(** * Cardano 1inch Fusion+ frontend: the API route handlers

    A shallow embedding of the backend-for-frontend routes of the
    repository (wallet history, NFT, gas price, portfolio, spot price,
    tokens, traces, domains) and of the wallet-connect provider module,
    together with the properties the specification states about them.

    The handlers are TypeScript running on a JavaScript engine, so the
    first part of the file is a small model of the JavaScript primitives
    the handlers call: strings, IEEE-754 numbers, [parseInt],
    [Number.prototype.toFixed], the address regular expression and the
    dynamic values that come back from the upstream JSON.  The second
    part models the upstream HTTP calls as a state-and-exception monad
    with a trace of effects, and the third part the handlers, one module
    per route.  The vocabulary of the properties and a few sample worlds
    follow, then two helpers of the wallet history and token search
    components and the vocabulary of the further properties, and then
    the properties themselves: those of the specification first, and
    after them further properties of the handlers and the components. *)

From Stdlib Require Import ZArith List String Ascii Bool Lia QArith Qround Qabs.
From Stdlib Require Import Floats.SpecFloat.
Import ListNotations.

Close Scope Q_scope.

Set Implicit Arguments.

(* ================================================================== *)
(** * JavaScript primitives *)
(* ================================================================== *)

Module JS.

Local Open Scope Z_scope.

(** ** Strings

    A JavaScript string is modelled as a Rocq [string]: a sequence of
    code units below 256. *)

Definition chars (s : string) : list ascii := list_ascii_of_string s.
Definition str (l : list ascii) : string := string_of_list_ascii l.

Definition code (c : ascii) : Z := Z.of_nat (nat_of_ascii c).

Definition between (lo hi : Z) (c : ascii) : bool :=
  (lo <=? code c) && (code c <=? hi).

(** [0-9] *)
Definition isDigit (c : ascii) : bool := between 48 57 c.

(** [a-fA-F0-9] *)
Definition isHexDigit (c : ascii) : bool :=
  isDigit c || between 97 102 c || between 65 70 c.

(** WhiteSpace and LineTerminator code units below 256: TAB, LF, VT, FF,
    CR, SP and NBSP. *)
Definition isWhiteSpace (c : ascii) : bool :=
  between 9 13 c || (code c =? 32) || (code c =? 160).

Fixpoint dropWhile (p : ascii -> bool) (l : list ascii) : list ascii :=
  match l with
  | [] => []
  | c :: r => if p c then dropWhile p r else l
  end.

Fixpoint takeWhile (p : ascii -> bool) (l : list ascii) : list ascii :=
  match l with
  | [] => []
  | c :: r => if p c then c :: takeWhile p r else []
  end.

(** [String.prototype.trim] *)
Definition trim (s : string) : string :=
  str (rev (dropWhile isWhiteSpace (rev (dropWhile isWhiteSpace (chars s))))).

(** [s.split(',')]: the pieces between the separators; the empty string
    splits into one empty piece. *)
Fixpoint splitOn (sep : ascii) (l : list ascii) : list (list ascii) :=
  match l with
  | [] => [[]]
  | c :: r =>
      if Ascii.eqb c sep then [] :: splitOn sep r
      else match splitOn sep r with
           | [] => [[c]]
           | p :: ps => (c :: p) :: ps
           end
  end.

Definition split (sep : ascii) (s : string) : list string :=
  map str (splitOn sep (chars s)).

(** [s.includes(c)] for a one-character needle. *)
Definition includes (c : ascii) (s : string) : bool :=
  existsb (Ascii.eqb c) (chars s).

(** [/^0x[a-fA-F0-9]{40}$/.test(s)] *)
Definition isHexAddress (s : string) : bool :=
  match chars s with
  | "0"%char :: "x"%char :: ds =>
      (Nat.eqb (List.length ds) 40) && forallb isHexDigit ds
  | _ => false
  end.

(** Truthiness of a string: only the empty string is falsy. *)
Definition nonEmpty (s : string) : bool :=
  match s with EmptyString => false | _ => true end.

(** [x || d] where [x] is a string, [null] or [undefined]. *)
Definition orDefault (x : option string) (d : string) : string :=
  match x with
  | Some s => if nonEmpty s then s else d
  | None => d
  end.

(** [x === 'literal'] where [x] is a string, [null] or [undefined]. *)
Definition isLiteral (x : option string) (literal : string) : bool :=
  match x with
  | Some s => String.eqb s literal
  | None => false
  end.

(** [!x] where [x] is a string, [null] or [undefined]. *)
Definition missing (x : option string) : bool :=
  match x with
  | Some s => negb (nonEmpty s)
  | None => true
  end.

(** Decimal rendering of a non-negative integer. *)
Definition digitChar (d : Z) : ascii := ascii_of_nat (Z.to_nat (48 + d)).

Fixpoint decimalDigits (fuel : nat) (n : Z) (acc : list ascii) : list ascii :=
  match fuel with
  | O => acc
  | S k =>
      let acc' := digitChar (n mod 10) :: acc in
      if n <? 10 then acc' else decimalDigits k (n / 10) acc'
  end.

(** Enough fuel for every digit: a number has at most as many decimal
    digits as binary ones. *)
Definition decimal (n : Z) : list ascii :=
  decimalDigits (S (Z.to_nat (Z.log2 n))) n [].

Definition hexDigitValue (c : ascii) : Z :=
  if isDigit c then code c - 48
  else if between 97 102 c then code c - 87
  else code c - 55.

(** [encodeURIComponent]: the unreserved marks stay, every other code
    unit is percent-encoded through its UTF-8 bytes. *)
Definition isUnreserved (c : ascii) : bool :=
  isDigit c || between 97 122 c || between 65 90 c
  || existsb (Ascii.eqb c) (chars "-_.!~*'()").

Definition hexUpper (d : Z) : ascii :=
  if d <? 10 then digitChar d else ascii_of_nat (Z.to_nat (55 + d)).

Definition percent (b : Z) : list ascii :=
  ["%"%char; hexUpper (b / 16); hexUpper (b mod 16)].

Definition encodeUnit (c : ascii) : list ascii :=
  if isUnreserved c then [c]
  else if code c <? 128 then percent (code c)
  else percent (192 + code c / 64) ++ percent (128 + code c mod 64).

Definition encodeURIComponent (s : string) : string :=
  str (flat_map encodeUnit (chars s)).

(** ** Numbers

    A JavaScript number is an IEEE-754 binary64 value; the operations are
    those of the standard library's executable specification of binary
    floating point, at precision 53 and maximal exponent 1024. *)

Definition number := spec_float.

Definition prec : Z := 53.
Definition emax : Z := 1024.

Definition NaN : number := S754_nan.

(** The number nearest to an integer (ties to even, overflow to infinity). *)
Definition ofZ (z : Z) : number := binary_normalize prec emax z 0 false.

Definition ofNat (n : nat) : number := ofZ (Z.of_nat n).

Definition div (x y : number) : number := SFdiv prec emax x y.
Definition add (x y : number) : number := SFadd prec emax x y.
Definition ltb (x y : number) : bool := SFltb x y.
Definition strictEq (x y : number) : bool := SFeqb x y.

Definition isNaN (x : number) : bool :=
  match x with S754_nan => true | _ => false end.

Definition isFinite (x : number) : bool :=
  match x with S754_zero _ | S754_finite _ _ _ => true | _ => false end.

Definition isNegative (x : number) : bool :=
  match x with S754_finite true _ _ | S754_infinity true => true | _ => false end.

(** The exact value of a finite number (zero for the others). *)
Definition pow2 (e : Z) : Q :=
  match e with
  | Z0 => 1%Q
  | Zpos p => inject_Z (Z.pow_pos 2 p)
  | Zneg p => Qmake 1 (Pos.pow 2 p)
  end.

Definition magnitude (x : number) : Q :=
  match x with
  | S754_finite _ m e => (inject_Z (Zpos m) * pow2 e)%Q
  | _ => 0%Q
  end.

Definition pow10 (n : Z) : Q :=
  match n with
  | Z0 => 1%Q
  | Zpos p => inject_Z (Z.pow_pos 10 p)
  | Zneg p => Qmake 1 (Pos.pow 10 p)
  end.

(** The literals [1e9] and [1e18]; both powers of ten are numbers
    exactly. *)
Definition n1e9 : number := ofZ (10 ^ 9).
Definition n1e18 : number := ofZ (10 ^ 18).

(** *** [parseInt(string)] with no radix

    Leading white space is skipped, a sign is read, a [0x] or [0X] prefix
    selects radix 16, and the longest prefix of digits of the radix is the
    integer; no digit at all gives [NaN].  The integer is rounded to the
    nearest number. *)

Definition isRadixDigit (radix : Z) (c : ascii) : bool :=
  if radix =? 16 then isHexDigit c else isDigit c.

Definition digitsValue (radix : Z) (ds : list ascii) : Z :=
  fold_left (fun acc c => acc * radix + hexDigitValue c) ds 0.

Definition readSign (l : list ascii) : bool * list ascii :=
  match l with
  | "-"%char :: r => (true, r)
  | "+"%char :: r => (false, r)
  | _ => (false, l)
  end.

Definition readPrefix (l : list ascii) : Z * list ascii :=
  match l with
  | "0"%char :: "x"%char :: r => (16, r)
  | "0"%char :: "X"%char :: r => (16, r)
  | _ => (10, l)
  end.

Definition parseInt (s : string) : number :=
  let (neg, l1) := readSign (dropWhile isWhiteSpace (chars s)) in
  let (radix, l2) := readPrefix l1 in
  match takeWhile (isRadixDigit radix) l2 with
  | [] => NaN
  | ds =>
      let mathInt := digitsValue radix ds in
      if mathInt =? 0 then S754_zero neg
      else ofZ (if neg then - mathInt else mathInt)
  end.

(** *** [Number::toString] in radix 10

    For a positive finite [x] the digits are the shortest decimal
    [s * 10^(n-k)], [10^(k-1) <= s < 10^k], that rounds to [x]; among the
    candidates of that length the one nearest to [x] is taken. *)

(** The numbers just below and just above a positive finite one, as exact
    values; the value above the largest number is [2^1024]. *)
Definition lowerNeighbour (m : positive) (e : Z) : Q :=
  if (Zpos m =? 2 ^ (prec - 1)) && (emin prec emax <? e)
  then (inject_Z (2 * Zpos m - 1) * pow2 (e - 1))%Q
  else (inject_Z (Zpos m - 1) * pow2 e)%Q.

Definition upperNeighbour (m : positive) (e : Z) : Q :=
  (inject_Z (Zpos m + 1) * pow2 e)%Q.

(** Does the exact value [v] round to the positive number [m * 2^e]?  The
    midpoints belong to the number with the even significand. *)
Definition roundsTo (m : positive) (e : Z) (v : Q) : bool :=
  let x := (inject_Z (Zpos m) * pow2 e)%Q in
  let lo := ((lowerNeighbour m e + x) / 2)%Q in
  let hi := ((x + upperNeighbour m e) / 2)%Q in
  if Z.even (Zpos m)
  then Qle_bool lo v && Qle_bool v hi
  else negb (Qle_bool v lo) && negb (Qle_bool hi v).

(** The decimal exponent [n] with [10^(n-1) <= x < 10^n].  The search goes
    upward from an estimate that lies below it: [x] has a leading bit at
    position [d - 1], and [log10 2 < 30103 / 100000]. *)
Fixpoint searchExponent (fuel : nat) (n : Z) (x : Q) : Z :=
  match fuel with
  | O => n
  | S k => if Qle_bool (pow10 n) x then searchExponent k (n + 1) x else n
  end.

Definition decimalExponent (m : positive) (e : Z) : Z :=
  let d := Zpos (digits2_pos m) + e in
  searchExponent 8 ((d - 1) * 30103 / 100000 - 1) (inject_Z (Zpos m) * pow2 e)%Q.

Definition Qdist (a b : Q) : Q := Qabs (a - b).

(** The candidates with [k] digits: the two integers around
    [x / 10^(n-k)]; one that reaches [10^k] is [10^(k-1)] at the next
    exponent. *)
Definition candidates (x : Q) (n k : Z) : list (Z * Z) :=
  let s := Qfloor (x / pow10 (n - k)) in
  map (fun c => if c <? 10 ^ k then (c, n) else (10 ^ (k - 1), n + 1))
      [s; s + 1].

Definition candidateValue (c : Z * Z) (k : Z) : Q :=
  (inject_Z (fst c) * pow10 (snd c - k))%Q.

Definition nearer (x : Q) (k : Z) (a b : Z * Z) : Z * Z :=
  match Qcompare (Qdist (candidateValue a k) x) (Qdist (candidateValue b k) x) with
  | Lt => a
  | Gt => b
  | Eq => if Z.even (fst a) then a else b
  end.

Definition bestCandidate (m : positive) (e : Z) (n k : Z) : option (Z * Z) :=
  let x := (inject_Z (Zpos m) * pow2 e)%Q in
  match filter (fun c => (10 ^ (k - 1) <=? fst c) && roundsTo m e (candidateValue c k))
               (candidates x n k) with
  | [] => None
  | [c] => Some c
  | a :: b :: _ => Some (nearer x k a b)
  end.

(** The shortest digits: [(s, n, k)]. *)
Fixpoint shortest (fuel : nat) (m : positive) (e : Z) (n k : Z) : Z * Z * Z :=
  match bestCandidate m e n k with
  | Some (s, n') => (s, n', k)
  | None =>
      match fuel with
      | O => (0, n, k)
      | S f => shortest f m e n (k + 1)
      end
  end.

Definition zeros (n : Z) : list ascii := repeat "0"%char (Z.to_nat n).

Definition exponentPart (n : Z) : list ascii :=
  let e := n - 1 in
  "e"%char :: (if e <? 0 then "-"%char :: decimal (- e) else "+"%char :: decimal e).

Definition positiveToString (m : positive) (e : Z) : list ascii :=
  let n0 := decimalExponent m e in
  let '(s, n, k) := shortest 17 m e n0 1 in
  let ds := decimal s in
  if (k <=? n) && (n <=? 21) then ds ++ zeros (n - k)
  else if (0 <? n) && (n <=? 21)
  then firstn (Z.to_nat n) ds ++ "."%char :: skipn (Z.to_nat n) ds
  else if (-6 <? n) && (n <=? 0)
  then "0"%char :: "."%char :: zeros (- n) ++ ds
  else match ds with
       | [] => []
       | d :: [] => d :: exponentPart n
       | d :: r => d :: "."%char :: r ++ exponentPart n
       end.

Definition numberToString (x : number) : string :=
  match x with
  | S754_nan => "NaN"
  | S754_zero _ => "0"
  | S754_infinity s => if s then "-Infinity" else "Infinity"
  | S754_finite s m e =>
      str ((if s then ["-"%char] else []) ++ positiveToString m e)
  end.

(** *** [Number.prototype.toFixed(f)] for [0 <= f]

    A number that is not finite, or whose magnitude reaches [10^21], is
    rendered by [Number::toString].  Otherwise [n] is the integer for
    which [n / 10^f] is nearest to the magnitude (the larger one of two),
    written with at least [f + 1] digits and a point before the last
    [f]. *)

Definition padLeft (width : nat) (l : list ascii) : list ascii :=
  repeat "0"%char (width - List.length l) ++ l.

Definition fixedDigits (f : nat) (n : Z) : list ascii :=
  let m := padLeft (S f) (decimal n) in
  match f with
  | O => m
  | _ =>
      let k := List.length m in
      firstn (k - f) m ++ "."%char :: skipn (k - f) m
  end.

Definition toFixed (x : number) (f : nat) : string :=
  if negb (isFinite x) then numberToString x
  else
    let v := magnitude x in
    if Qle_bool (pow10 21) v then numberToString x
    else
      let n := Qfloor (v * pow10 (Z.of_nat f) + (1 # 2)) in
      str ((if isNegative x then ["-"%char] else []) ++ fixedDigits f n).

(** ** Dynamic values

    What [response.json()] yields, and what reading a property of it
    yields.  The fields of an object are in the order the engine
    enumerates them, with distinct keys. *)

#[local] Unset Elimination Schemes.

Inductive value : Type :=
| VUndef
| VNull
| VBool (b : bool)
| VNum (x : number)
| VStr (s : string)
| VArr (items : list value)
| VObj (fields : list (string * value)).

#[local] Set Elimination Schemes.

(** Everything the handlers throw or catch is an [Error] object (also the
    engine's own [TypeError] and [SyntaxError]); only its message is
    observed. *)
Record exn : Type := Error { message : string }.

Inductive completion (A : Type) : Type :=
| Normal (a : A)
| Throw (e : exn).

Arguments Normal {A} a.
Arguments Throw {A} e.

Local Open Scope string_scope.

Definition truthy (v : value) : bool :=
  match v with
  | VUndef | VNull => false
  | VBool b => b
  | VNum (S754_zero _) | VNum S754_nan => false
  | VNum _ => true
  | VStr s => nonEmpty s
  | VArr _ | VObj _ => true
  end.

Definition isNullish (v : value) : bool :=
  match v with VUndef | VNull => true | _ => false end.

(** [ToString]; an array joins its elements with commas, its [null] and
    [undefined] elements as empty strings. *)
Fixpoint toStr (v : value) : string :=
  match v with
  | VUndef => "undefined"
  | VNull => "null"
  | VBool b => if b then "true" else "false"
  | VNum x => numberToString x
  | VStr s => s
  | VArr items =>
      (fix join (l : list value) : string :=
         match l with
         | [] => ""
         | x :: r =>
             let sx := if isNullish x then "" else toStr x in
             match r with
             | [] => sx
             | _ => sx ++ "," ++ join r
             end
         end) items
  | VObj _ => "[object Object]"
  end.

Fixpoint lookup {A : Type} (k : string) (fields : list (string * A)) : option A :=
  match fields with
  | [] => None
  | (k', v) :: r => if String.eqb k k' then Some v else lookup k r
  end.

(** [v.k] for the property names the handlers read: own fields of an
    object, [length] of an array or a string; reading a property of
    [null] or [undefined] throws (the message is worded as V8 does). *)
Definition getProp (v : value) (k : string) : completion value :=
  match v with
  | VUndef =>
      Throw (Error ("Cannot read properties of undefined (reading '" ++ k ++ "')"))
  | VNull =>
      Throw (Error ("Cannot read properties of null (reading '" ++ k ++ "')"))
  | VObj fields =>
      Normal (match lookup k fields with Some x => x | None => VUndef end)
  | VArr items =>
      Normal (if String.eqb k "length" then VNum (ofNat (List.length items)) else VUndef)
  | VStr s =>
      Normal (if String.eqb k "length" then VNum (ofNat (String.length s)) else VUndef)
  | VBool _ | VNum _ => Normal VUndef
  end.

(** [v?.k] *)
Definition getPropOpt (v : value) (k : string) : value :=
  match getProp v k with
  | Normal x => x
  | Throw _ => VUndef
  end.

(** [a || b] on values. *)
Definition orValue (a b : value) : value := if truthy a then a else b.

(** [a === b] where [b] is a number: equal only to a number of the same
    value. *)
Definition strictEqNum (a : value) (b : number) : bool :=
  match a with
  | VNum x => strictEq x b
  | _ => false
  end.

(** The own enumerable properties that [{...v}] copies. *)
Definition indexed (l : list value) : list (string * value) :=
  combine (map (fun i => str (decimal (Z.of_nat i))) (seq 0 (List.length l))) l.

Definition spread (v : value) : list (string * value) :=
  match v with
  | VObj fields => fields
  | VArr items => indexed items
  | VStr s => indexed (map (fun c => VStr (String c EmptyString)) (chars s))
  | _ => []
  end.

End JS.

(* ================================================================== *)
(** * The upstream API and the effects of a handler *)
(* ================================================================== *)

Module Http.

Import JS.
Local Open Scope string_scope.
Local Open Scope Z_scope.

(** What a handler passes to [fetch]. *)
Record UpstreamRequest : Type := {
  url : string;
  method : string;
  headers : list (string * string);
  requestBody : option value
}.

(** What [fetch] resolves to: the status line, the body as [text()] gives
    it and as [json()] gives it (which throws on a body that is not
    JSON). *)
Record UpstreamResponse : Type := {
  status : Z;
  statusText : string;
  text : string;
  json : completion value
}.

(** [response.ok] *)
Definition ok (r : UpstreamResponse) : bool :=
  (200 <=? status r) && (status r <=? 299).

Inductive FetchOutcome : Type :=
| Rejected (e : exn)
| Responded (r : UpstreamResponse).

(** [process.env] *)
Record Env : Type := {
  ONEINCH_API_KEY : option string;
  NEXT_PUBLIC_WALLETCONNECT_PROJECT_ID : option string
}.

Inductive Effect : Type :=
| Fetched (req : UpstreamRequest) (out : FetchOutcome)
| Slept (ms : Z).

(** The world a handler runs in: the environment, the upstream API (what
    the [i]-th [fetch] of the run answers to a request) and the effects
    performed so far, newest first. *)
Record State : Type := {
  env : Env;
  upstream : nat -> UpstreamRequest -> FetchOutcome;
  trace : list Effect
}.

Definition isFetch (e : Effect) : bool :=
  match e with Fetched _ _ => true | Slept _ => false end.

Definition fetches (s : State) : list Effect := filter isFetch (trace s).

Definition record (e : Effect) (s : State) : State :=
  {| env := env s; upstream := upstream s; trace := e :: trace s |}.

(** Computations with state and exceptions. *)
Definition M (A : Type) : Type := State -> completion A * State.

Definition ret {A} (a : A) : M A := fun s => (Normal a, s).

Definition throw {A} (e : exn) : M A := fun s => (Throw e, s).

Definition bind {A B} (m : M A) (k : A -> M B) : M B :=
  fun s =>
    match m s with
    | (Normal a, s') => k a s'
    | (Throw e, s') => (Throw e, s')
    end.

(** [try { m } catch (error) { h error }] *)
Definition tryCatch {A} (m : M A) (h : exn -> M A) : M A :=
  fun s =>
    match m s with
    | (Normal a, s') => (Normal a, s')
    | (Throw e, s') => h e s'
    end.

Definition lift {A} (c : completion A) : M A := fun s => (c, s).

Definition getEnv : M Env := fun s => (Normal (env s), s).

(** [await fetch(url, options)] *)
Definition fetch (req : UpstreamRequest) : M UpstreamResponse :=
  fun s =>
    let out := upstream s (List.length (fetches s)) req in
    (match out with
     | Rejected e => Throw e
     | Responded r => Normal r
     end, record (Fetched req out) s).

(** [await new Promise(resolve => setTimeout(resolve, ms))] *)
Definition delay (ms : Z) : M unit := fun s => (Normal tt, record (Slept ms) s).

End Http.

Declare Scope js_scope.
Delimit Scope js_scope with js.
Notation "x <- m ;; k" := (Http.bind m (fun x => k))
  (at level 61, m at next level, right associativity) : js_scope.
Notation "m ;;; k" := (Http.bind m (fun _ => k))
  (at level 61, right associativity) : js_scope.

(* ================================================================== *)
(** * What the routes share *)
(* ================================================================== *)

Module Next.

Import JS Http.
Local Open Scope string_scope.
Local Open Scope js_scope.

(** The JSON body of a [NextResponse]: [{ error }], [{ error, details }]
    or the route's own success object.  The [timestamp] field of the
    success objects (a reading of the wall clock) and the console output
    are left out. *)
Inductive Body (S : Type) : Type :=
| ErrorBody (error : string)
| FailureBody (error details : string)
| SuccessBody (payload : S).

Arguments ErrorBody {S} error.
Arguments FailureBody {S} error details.
Arguments SuccessBody {S} payload.

Record NextResponse (S : Type) : Type := {
  httpStatus : Z;
  body : Body S
}.

(** [NextResponse.json({ error }, { status: 400 })] *)
Definition badRequest {S} (error : string) : NextResponse S :=
  {| httpStatus := 400; body := ErrorBody error |}.

(** [NextResponse.json(payload)]: the status defaults to 200. *)
Definition success {S} (payload : S) : NextResponse S :=
  {| httpStatus := 200; body := SuccessBody payload |}.

(** The outer [catch] of every handler:
    [{ error, details: error instanceof Error ? error.message : "Unknown error" }]
    with status 500. *)
Definition serverError {S} (error : string) (e : exn) : NextResponse S :=
  {| httpStatus := 500; body := FailureBody error (message e) |}.

(** [searchParams.get(name)]: the first value of the name, or [null]. *)
Fixpoint get (name : string) (query : list (string * string)) : option string :=
  match query with
  | [] => None
  | (k, v) :: r => if String.eqb name k then Some v else get name r
  end.

(** [`${x}`] of a string that may be [undefined]. *)
Definition interpolate (x : option string) : string :=
  match x with
  | Some s => s
  | None => "undefined"
  end.

(** [`${n}`] of a status code. *)
Definition showStatus (n : Z) : string := str (decimal n).

(** [`Bearer ${process.env.ONEINCH_API_KEY}`] *)
Definition bearer : M string :=
  e <- getEnv ;; ret ("Bearer " ++ interpolate (ONEINCH_API_KEY e)).

(** The [makeRequest] helper that the routes repeat: an authorised
    [fetch], an [Error] for a status that is not a success, the parsed
    JSON otherwise. *)
Definition makeRequestWith (extra : list (string * string)) (method : string)
    (payload : option value) (url : string) : M value :=
  auth <- bearer ;;
  response <- fetch {| url := url;
                       method := method;
                       headers := [("Authorization", auth);
                                   ("Content-Type", "application/json")] ++ extra;
                       requestBody := payload |} ;;
  if negb (ok response) then
    throw (Error ("API request failed: " ++ showStatus (status response) ++ " "
                  ++ statusText response ++ " - " ++ text response))
  else lift (json response).

(** A chain name of [SUPPORTED_CHAINS] as its chain id. *)
Definition chainTable : Type := list (string * string).

Fixpoint chainIdOf (table : chainTable) (chain : string) : option string :=
  match table with
  | [] => None
  | (k, v) :: r => if String.eqb chain k then Some v else chainIdOf r chain
  end.

(** [chainId || SUPPORTED_CHAINS[chain] || '1'] *)
Definition resolveChainId (table : chainTable) (chainId : option string)
    (chain : option string) : string :=
  orDefault chainId
    (orDefault (match chain with
                | Some c => chainIdOf table c
                | None => None
                end) "1").

(** [addresses.split(',').every(addr => /^0x[a-fA-F0-9]{40}$/.test(addr.trim()))] *)
Definition validAddressList (addresses : string) : bool :=
  forallb (fun addr => isHexAddress (trim addr)) (split "," addresses).

(** ** The batch loop

    Every batch [POST] is the same loop: the body is parsed, its list is
    checked, and each sub-request runs inside its own [try]; the entry of
    a sub-request is pushed at the end of the [try] block, before the
    pause, or by the [catch] block. *)

(** The body of a batch [POST] as the handler sees it: parsing or
    destructuring it throws, or the list is missing or not an array, or
    there is a list of sub-requests.  A sub-request is an object whose
    fields, where present, are strings (an element that is a number, a
    string or a boolean destructures like an object without fields);
    [null] is not a sub-request and is outside the model: destructuring
    it throws before the inner [try] is entered. *)
Inductive BatchBody (I : Type) : Type :=
| Unreadable (e : exn)
| NoList
| Items (items : list I).

Arguments Unreadable {I} e.
Arguments NoList {I}.
Arguments Items {I} items.

(** An entry of [results]: [{ success: true, ... }] or
    [{ success: false, ..., error }]. *)
Inductive Entry (S F : Type) : Type :=
| Succeeded (entry : S)
| Failed (entry : F) (error : string).

Arguments Succeeded {S F} entry.
Arguments Failed {S F} entry error.

(** [r.success] *)
Definition entrySuccess {S F} (r : Entry S F) : bool :=
  match r with
  | Succeeded _ => true
  | Failed _ _ => false
  end.

Record BatchResult (S F : Type) : Type := {
  batchSuccess : bool;
  results : list (Entry S F);
  total : nat;
  successful : nat;
  failed : nat
}.

Section Batch.

Variables I S F : Type.

(** The [try] block up to its [results.push]. *)
Variable process : I -> M S.
(** The pause that ends the [try] block. *)
Variable pause : Z.
(** The fields the [catch] block echoes. *)
Variable echo : I -> F.

Definition iteration (results : list (Entry S F)) (item : I) : M (list (Entry S F)) :=
  tryCatch
    (entry <- process item ;;
     let results := (results ++ [Succeeded entry])%list in
     delay pause ;;;
     ret results)
    (fun error => ret (results ++ [Failed (echo item) (message error)])%list).

(** [for (const item of items) { ... }] *)
Fixpoint forOf (items : list I) (results : list (Entry S F)) : M (list (Entry S F)) :=
  match items with
  | [] => ret results
  | item :: rest => results <- iteration results item ;; forOf rest results
  end.

Definition batch (missing failure : string) (body : BatchBody I)
  : M (NextResponse (BatchResult S F)) :=
  tryCatch
    (match body with
     | Unreadable e => throw e
     | NoList => ret (badRequest missing)
     | Items items =>
         results <- forOf items [] ;;
         ret (success {| batchSuccess := true;
                         results := results;
                         total := List.length items;
                         successful := List.length (filter entrySuccess results);
                         failed := List.length (filter (fun r => negb (entrySuccess r)) results) |})
     end)
    (fun error => ret (serverError failure error)).

(** What the loop owes to a sub-request met in state [s]: the entry of
    a successful [try] block and the state after the pause, or the
    entry of the [catch] block with the message of what was thrown. *)
Definition outcome (item : I) (s : State) : Entry S F * State :=
  match process item s with
  | (Normal entry, s') => (Succeeded entry, record (Slept pause) s')
  | (Throw e, s') => (Failed (echo item) (message e), s')
  end.

(** The entries owed to a list of sub-requests, in their order, each
    met in the state its predecessor left. *)
Fixpoint outcomes (items : list I) (s : State) : list (Entry S F) * State :=
  match items with
  | [] => ([], s)
  | item :: rest =>
      let (r, s1) := outcome item s in
      let (rs, s2) := outcomes rest s1 in
      (r :: rs, s2)
  end.


End Batch.



End Next.

(* ================================================================== *)
(** * Wallet history route *)
(* ================================================================== *)

Module WalletHistory.

Import JS Http Next.
Local Open Scope string_scope.
Local Open Scope js_scope.

Definition BASE_URL : string := "https://api.1inch.dev/history/v2.0/history".

Record Transaction : Type := {
  id : value;
  hash : value;
  timestamp : value;
  from : value;
  to : value;
  amount : value;
  token : value;
  type : value;
  txStatus : value;
  txChainId : string
}.

Record Metadata : Type := {
  metaLimit : number;
  apiProvider : string
}.

Record History : Type := {
  address : string;
  chain : string;
  chainId : string;
  transactions : list Transaction;
  total : nat;
  metadata : Metadata
}.

(** The callback of [data.items?.map]. *)
Definition transformItem (chainId : string) (item : value) : completion Transaction :=
  match getProp item "id" with
  | Throw e => Throw e
  | Normal itemId =>
      let details := getPropOpt item "details" in
      let detail k := if isNullish details then VUndef else getPropOpt details k in
      Normal {| id := itemId;
                hash := getPropOpt item "txHash";
                timestamp := getPropOpt item "timeStamp";
                from := detail "fromAddress";
                to := detail "toAddress";
                amount := detail "amount";
                token := detail "token";
                type := getPropOpt item "type";
                txStatus := orValue (getPropOpt item "status") (VStr "completed");
                txChainId := chainId |}
  end.

Fixpoint mapItems (chainId : string) (items : list value) : completion (list Transaction) :=
  match items with
  | [] => Normal []
  | item :: rest =>
      match transformItem chainId item with
      | Throw e => Throw e
      | Normal t =>
          match mapItems chainId rest with
          | Throw e => Throw e
          | Normal ts => Normal (t :: ts)
          end
      end
  end.

(** [data.items?.map(...) || []] *)
Definition transformTransactions (chainId : string) (data : value)
  : completion (list Transaction) :=
  match getProp data "items" with
  | Throw e => Throw e
  | Normal items =>
      match items with
      | VUndef | VNull => Normal []
      | VArr l => mapItems chainId l
      | _ => Throw (Error "data.items?.map is not a function")
      end
  end.

Definition GET (query : list (string * string)) : M (NextResponse History) :=
  tryCatch
    (let address := get "address" query in
     let limit := orDefault (get "limit" query) "10" in
     let chain := orDefault (get "chain" query) "ethereum" in
     let chainId := orDefault (get "chainId" query) "1" in
     match address with
     | None => ret (badRequest "wallet address is Required")
     | Some address =>
         if negb (nonEmpty address) then ret (badRequest "wallet address is Required")
         else
           let constructedUrl :=
             BASE_URL ++ "/" ++ address ++ "/events?chainId=" ++ "1" ++ "&limit=" ++ limit in
           auth <- bearer ;;
           response <- fetch {| url := constructedUrl;
                                method := "GET";
                                headers := [("Authorization", auth);
                                            ("Content_Type", "appication/json")];
                                requestBody := None |} ;;
           if negb (ok response) then
             if (status response =? 401)%Z then
               ret {| httpStatus := 401; body := ErrorBody "Invalid API key" |}
             else if (status response =? 429)%Z then
               ret {| httpStatus := 429; body := ErrorBody "Rate limit exceeded" |}
             else
               throw (Error ("1inch API error: " ++ showStatus (status response)
                             ++ " " ++ statusText response))
           else
             data <- lift (json response) ;;
             transformedTransactions <- lift (transformTransactions chainId data) ;;
             ret (success {| address := address;
                             chain := chain;
                             chainId := chainId;
                             transactions := transformedTransactions;
                             total := List.length transformedTransactions;
                             metadata := {| metaLimit := parseInt limit;
                                            apiProvider := "1inch" |} |})
     end)
    (fun error => ret (serverError "Failed to fetch wallet transactions" error)).

End WalletHistory.

(* ================================================================== *)
(** * NFT route *)
(* ================================================================== *)

Module Nft.

Import JS Http Next.
Local Open Scope string_scope.
Local Open Scope js_scope.

Definition BASE_URL : string := "https://api.1inch.dev/nft/v1/byaddress".

Definition makeRequest : string -> M value := makeRequestWith [] "GET" None.

(** [transformedData]: the properties spread from [data], then the
    fields that replace the spread ones of the same name. *)
Record NftData : Type := {
  spreadData : list (string * value);
  address : string;
  chainIds : string;
  limit : number;
  offset : number;
  totalItems : value;
  hasMore : bool;
  nextOffset : number
}.

(** [isNaN(numericLimit) || numericLimit < 1 || numericLimit > 100] *)
Definition badLimit (numericLimit : number) : bool :=
  isNaN numericLimit || ltb numericLimit (ofZ 1) || ltb (ofZ 100) numericLimit.

(** [isNaN(numericOffset) || numericOffset < 0] *)
Definition badOffset (numericOffset : number) : bool :=
  isNaN numericOffset || ltb numericOffset (ofZ 0).

Definition constructUrl (address chainIds limit offset : string) : string :=
  BASE_URL ++ "?address=" ++ address ++ "&chainIds=" ++ chainIds
  ++ "&limit=" ++ limit ++ "&offset=" ++ offset.

(** [data.assets?.length] *)
Definition assetsLength (data : value) : completion value :=
  match getProp data "assets" with
  | Throw e => Throw e
  | Normal assets =>
      Normal (if isNullish assets then VUndef else getPropOpt assets "length")
  end.

Definition transform (data : value) (address chainIds : string)
    (numericLimit numericOffset : number) : completion NftData :=
  match assetsLength data with
  | Throw e => Throw e
  | Normal len =>
      Normal {| spreadData := spread data;
                address := address;
                chainIds := chainIds;
                limit := numericLimit;
                offset := numericOffset;
                totalItems := orValue len (VNum (ofZ 0));
                hasMore := strictEqNum len numericLimit;
                nextOffset := add numericOffset numericLimit |}
  end.

Definition GET (query : list (string * string)) : M (NextResponse NftData) :=
  tryCatch
    (let address := get "address" query in
     let chainIds := orDefault (get "chainIds" query) "1" in
     let limit := orDefault (get "limit" query) "50" in
     let offset := orDefault (get "offset" query) "0" in
     match address with
     | None => ret (badRequest "Address parameter is required")
     | Some address =>
         if negb (nonEmpty address) then ret (badRequest "Address parameter is required")
         else if negb (isHexAddress address) then
           ret (badRequest "Invalid wallet address format")
         else
           let numericLimit := parseInt limit in
           let numericOffset := parseInt offset in
           if badLimit numericLimit then
             ret (badRequest "Limit must be a number between 1 and 100")
           else if badOffset numericOffset then
             ret (badRequest "Offset must be a non-negative number")
           else
             data <- makeRequest (constructUrl address chainIds limit offset) ;;
             transformedData <- lift (transform data address chainIds numericLimit numericOffset) ;;
             ret (success transformedData)
     end)
    (fun error => ret (serverError "Failed to fetch NFT data" error)).

(** A sub-request of the batch; [chainIds], [limit] and [offset] default
    when they are [undefined]. *)
Record NftRequest : Type := {
  reqAddress : option string;
  reqChainIds : option string;
  reqLimit : option string;
  reqOffset : option string
}.

Definition withDefault (x : option string) (d : string) : string :=
  match x with
  | Some s => s
  | None => d
  end.

Record NftSuccess : Type := {
  okAddress : string;
  okChainIds : string;
  okData : NftData
}.

Record NftFailure : Type := {
  failAddress : string;
  failChainIds : string
}.

Definition process (r : NftRequest) : M NftSuccess :=
  let chainIds := withDefault (reqChainIds r) "1" in
  let limit := withDefault (reqLimit r) "50" in
  let offset := withDefault (reqOffset r) "0" in
  match reqAddress r with
  | None => throw (Error "Address is required for each request")
  | Some address =>
      if negb (nonEmpty address) then throw (Error "Address is required for each request")
      else if negb (isHexAddress address) then throw (Error "Invalid wallet address format")
      else
        let numericLimit := parseInt limit in
        let numericOffset := parseInt offset in
        if badLimit numericLimit then
          throw (Error "Limit must be a number between 1 and 100")
        else if badOffset numericOffset then
          throw (Error "Offset must be a non-negative number")
        else
          data <- makeRequest (constructUrl address chainIds limit offset) ;;
          transformedData <- lift (transform data address chainIds numericLimit numericOffset) ;;
          ret {| okAddress := address; okChainIds := chainIds; okData := transformedData |}
  end.

(** [{ address: address || 'unknown', chainIds: chainIds || '1' }] *)
Definition echo (r : NftRequest) : NftFailure :=
  {| failAddress := orDefault (reqAddress r) "unknown";
     failChainIds := orDefault (Some (withDefault (reqChainIds r) "1")) "1" |}.

Definition POST : BatchBody NftRequest -> M (NextResponse (BatchResult NftSuccess NftFailure)) :=
  batch process 1000 echo "Requests array is required" "Failed to process batch NFT requests".

End Nft.

(* ================================================================== *)
(** * Gas price route *)
(* ================================================================== *)

Module GasPrice.

Import JS Http Next.
Local Open Scope string_scope.
Local Open Scope js_scope.

Definition BASE_URL : string := "https://api.1inch.dev/gas-price/v1.4".

(** Chain names that are inherited properties of the table object
    ([constructor], [toString], ...) are outside the model. *)
Definition SUPPORTED_CHAINS : chainTable :=
  [("ethereum", "1"); ("bsc", "56"); ("polygon", "137"); ("optimism", "10");
   ("arbitrum", "42161"); ("gnosis", "100"); ("avalanche", "43114");
   ("fantom", "250"); ("klaytn", "8217"); ("aurora", "1313161554");
   ("zksync", "324")].

Definition makeRequest : string -> M value := makeRequestWith [] "GET" None.

Record Tier : Type := {
  tierSpread : list (string * value);
  maxPriorityFeePerGasGwei : string;
  maxFeePerGasGwei : string
}.

Record GasPricesGwei : Type := {
  baseFee : option string;
  low : option Tier;
  medium : option Tier;
  high : option Tier;
  instant : option Tier
}.

Record GasData : Type := {
  spreadData : list (string * value);
  dataChainId : string;
  dataChain : string;
  gasPricesGwei : GasPricesGwei
}.

Record GasPrice : Type := {
  chainId : string;
  chain : string;
  data : GasData
}.

(** [(parseInt(v) / 1e9).toFixed(2)] *)
Definition toGwei (v : value) : string :=
  toFixed (div (parseInt (toStr v)) n1e9) 2.

(** [tier ? { ...tier, maxPriorityFeePerGasGwei: ..., maxFeePerGasGwei: ... } : null] *)
Definition tierGwei (tier : value) : option Tier :=
  if truthy tier then
    Some {| tierSpread := spread tier;
            maxPriorityFeePerGasGwei := toGwei (getPropOpt tier "maxPriorityFeePerGas");
            maxFeePerGasGwei := toGwei (getPropOpt tier "maxFeePerGas") |}
  else None.

Definition transform (data : value) (chainId chain : string) : completion GasData :=
  match getProp data "baseFee" with
  | Throw e => Throw e
  | Normal fee =>
      Normal {| spreadData := spread data;
                dataChainId := chainId;
                dataChain := chain;
                gasPricesGwei :=
                  {| baseFee := if truthy fee then Some (toGwei fee) else None;
                     low := tierGwei (getPropOpt data "low");
                     medium := tierGwei (getPropOpt data "medium");
                     high := tierGwei (getPropOpt data "high");
                     instant := tierGwei (getPropOpt data "instant") |} |}
  end.

Definition GET (query : list (string * string)) : M (NextResponse GasPrice) :=
  tryCatch
    (let chain := orDefault (get "chain" query) "ethereum" in
     let chainId := resolveChainId SUPPORTED_CHAINS (get "chainId" query) (Some chain) in
     let url := BASE_URL ++ "/" ++ chainId in
     data <- makeRequest url ;;
     transformedData <- lift (transform data chainId chain) ;;
     ret (success {| chainId := chainId; chain := chain; data := transformedData |}))
    (fun error => ret (serverError "Failed to fetch gas prices" error)).

Record ChainRequest : Type := {
  reqChain : option string;
  reqChainId : option string
}.

Record ChainEcho : Type := {
  failChainId : string;
  failChain : string
}.

Definition process (r : ChainRequest) : M GasPrice :=
  let finalChainId := resolveChainId SUPPORTED_CHAINS (reqChainId r) (reqChain r) in
  let url := BASE_URL ++ "/" ++ finalChainId in
  data <- makeRequest url ;;
  transformedData <- lift (transform data finalChainId (orDefault (reqChain r) "ethereum")) ;;
  ret {| chainId := finalChainId;
         chain := orDefault (reqChain r) "ethereum";
         data := transformedData |}.

Definition echo (r : ChainRequest) : ChainEcho :=
  {| failChainId := orDefault (reqChainId r) "1";
     failChain := orDefault (reqChain r) "ethereum" |}.

Definition POST : BatchBody ChainRequest -> M (NextResponse (BatchResult GasPrice ChainEcho)) :=
  batch process 100 echo "Chains array is required" "Failed to process batch gas price requests".

End GasPrice.

(* ================================================================== *)
(** * Portfolio route *)
(* ================================================================== *)

Module Portfolio.

Import JS Http Next.
Local Open Scope string_scope.
Local Open Scope js_scope.

Definition BASE_URL : string :=
  "https://api.1inch.dev/portfolio/portfolio/v4/overview/erc20".

Definition makeRequest : string -> M value := makeRequestWith [] "GET" None.

Definition validActions : list string :=
  ["currentValue"; "profitAndLoss"; "tokenDetails"; "all"].

(** [data] of the response: what the upstream returned, or for the action
    [all] the object [{ currentValue, tokenDetails, profitAndLoss }]. *)
Inductive PortfolioData : Type :=
| Single (data : value)
| All (currentValue tokenDetails profitAndLoss : value).

Record Portfolio : Type := {
  action : string;
  addresses : string;
  chainId : string;
  data : PortfolioData
}.

Definition currentValueUrl (addresses chainId : string) : string :=
  BASE_URL ++ "/current_value?addresses=" ++ addresses ++ "&chain_id=" ++ chainId.

Definition profitAndLossUrl (addresses chainId fromTimestamp toTimestamp : string) : string :=
  BASE_URL ++ "/profit_and_loss?addresses=" ++ addresses ++ "&chain_id=" ++ chainId
  ++ "&from_timestamp=" ++ fromTimestamp ++ "&to_timestamp=" ++ toTimestamp.

Definition detailsUrl (addresses chainId : string) : string :=
  BASE_URL ++ "/details?addresses=" ++ addresses ++ "&chain_id=" ++ chainId.

Definition GET (query : list (string * string)) : M (NextResponse Portfolio) :=
  tryCatch
    (let action := get "action" query in
     let addresses := get "addresses" query in
     let chainId := orDefault (get "chainId" query) "1" in
     let fromTimestamp := get "fromTimestamp" query in
     let toTimestamp := get "toTimestamp" query in
     if missing action then
       ret (badRequest "Action parameter is required. Use: currentValue, profitAndLoss, tokenDetails, or all")
     else if missing addresses then
       ret (badRequest "Wallet addresses parameter is required")
     else
       let action := interpolate action in
       let addresses := interpolate addresses in
       if negb (validAddressList addresses) then
         ret (badRequest "Invalid wallet address format")
       else
         let respond data :=
           ret (success {| action := action; addresses := addresses;
                           chainId := chainId; data := data |}) in
         if String.eqb action "currentValue" then
           data <- makeRequest (currentValueUrl addresses chainId) ;;
           respond (Single data)
         else if String.eqb action "profitAndLoss" then
           if missing fromTimestamp || missing toTimestamp then
             ret (badRequest "fromTimestamp and toTimestamp parameters are required for profitAndLoss action")
           else
             data <- makeRequest (profitAndLossUrl addresses chainId
                                    (interpolate fromTimestamp) (interpolate toTimestamp)) ;;
             respond (Single data)
         else if String.eqb action "tokenDetails" then
           data <- makeRequest (detailsUrl addresses chainId) ;;
           respond (Single data)
         else if String.eqb action "all" then
           currentValue <- makeRequest (currentValueUrl addresses chainId) ;;
           delay 1000 ;;;
           tokenDetails <- makeRequest (detailsUrl addresses chainId) ;;
           profitAndLoss <-
             (if negb (missing fromTimestamp) && negb (missing toTimestamp) then
                delay 1000 ;;;
                makeRequest (profitAndLossUrl addresses chainId
                               (interpolate fromTimestamp) (interpolate toTimestamp))
              else ret VNull) ;;
           respond (All currentValue tokenDetails profitAndLoss)
         else
           ret (badRequest "Invalid action. Use: currentValue, profitAndLoss, tokenDetails, or all"))
    (fun error => ret (serverError "Failed to fetch portfolio data" error)).

(** A batch operation; [chainId] defaults when it is [undefined]. *)
Record Operation : Type := {
  opAction : option string;
  opAddresses : option string;
  opChainId : option string;
  opFromTimestamp : option string;
  opToTimestamp : option string
}.

Record OperationEcho : Type := {
  echoAction : option string;
  echoAddresses : option string;
  echoChainId : string
}.

Record OperationResult : Type := {
  okEcho : OperationEcho;
  okData : value
}.

Definition echo (op : Operation) : OperationEcho :=
  {| echoAction := opAction op;
     echoAddresses := opAddresses op;
     echoChainId := match opChainId op with Some c => c | None => "1" end |}.

Definition process (op : Operation) : M OperationResult :=
  let chainId := echoChainId (echo op) in
  if missing (opAddresses op) then throw (Error "addresses is required for all operations")
  else
    let addresses := interpolate (opAddresses op) in
    let respond data := ret {| okEcho := echo op; okData := data |} in
    match opAction op with
    | Some "currentValue" =>
        data <- makeRequest (currentValueUrl addresses chainId) ;;
        respond data
    | Some "profitAndLoss" =>
        if missing (opFromTimestamp op) || missing (opToTimestamp op) then
          throw (Error "fromTimestamp and toTimestamp are required for profitAndLoss")
        else
          data <- makeRequest (profitAndLossUrl addresses chainId
                                 (interpolate (opFromTimestamp op))
                                 (interpolate (opToTimestamp op))) ;;
          respond data
    | Some "tokenDetails" =>
        data <- makeRequest (detailsUrl addresses chainId) ;;
        respond data
    | action => throw (Error ("Invalid action: " ++ interpolate action))
    end.

Definition POST : BatchBody Operation -> M (NextResponse (BatchResult OperationResult OperationEcho)) :=
  batch process 1000 echo "Operations array is required" "Failed to process batch operations".

End Portfolio.

(* ================================================================== *)
(** * Spot price route *)
(* ================================================================== *)

Module SpotPrice.

Import JS Http Next.
Local Open Scope string_scope.
Local Open Scope js_scope.

Definition BASE_URL : string := "https://api.1inch.dev/price/v1.1".

Definition SUPPORTED_CHAINS : chainTable :=
  [("ethereum", "1"); ("bsc", "56"); ("polygon", "137"); ("optimism", "10");
   ("arbitrum", "42161"); ("gnosis", "100"); ("avalanche", "43114");
   ("fantom", "250")].

Definition validActions : list string := ["whitelisted"; "addresses"].

(** [makeRequest(url, method, body)]: the body is sent only with
    [POST]; it is kept here as the value that [JSON.stringify] is given. *)
Definition makeRequest (url : string) (method : string) (payload : option value) : M value :=
  makeRequestWith [] method
    (match payload with
     | Some b => if truthy b && String.eqb method "POST" then Some b else None
     | None => None
     end) url.

(** [(parseInt(priceWei) / 1e18).toFixed(6)] *)
Definition formatPriceFromWei (priceWei : string) : string :=
  toFixed (div (parseInt priceWei) n1e18) 6.

(** [Object.entries(data)] *)
Definition entries (data : value) : completion (list (string * value)) :=
  if isNullish data then Throw (Error "Cannot convert undefined or null to object")
  else Normal (spread data).

(** [object[key] = v] on an object literal: the key [__proto__] reaches
    the inherited setter and adds no field. *)
Fixpoint replace {A} (key : string) (v : A) (fields : list (string * A)) : list (string * A) :=
  match fields with
  | [] => [(key, v)]
  | (k, x) :: r => if String.eqb key k then (k, v) :: r else (k, x) :: replace key v r
  end.

Definition assign {A} (fields : list (string * A)) (key : string) (v : A) : list (string * A) :=
  if String.eqb key "__proto__" then fields else replace key v fields.

(** The loop over the entries: it fills [transformedData] and
    [formattedPrices]. *)
Definition reshape (es : list (string * value))
  : list (string * value) * list (string * string) :=
  fold_left
    (fun acc e =>
       let '(tokenAddress, priceWei) := e in
       (assign (fst acc) tokenAddress priceWei,
        assign (snd acc) tokenAddress (formatPriceFromWei (toStr priceWei))))
    es ([], []).

Record SpotPrices : Type := {
  action : string;
  chainId : string;
  chain : string;
  data : list (string * value);
  formattedPrices : list (string * string)
}.

Definition GET (query : list (string * string)) : M (NextResponse SpotPrices) :=
  tryCatch
    (let action := orDefault (get "action" query) "whitelisted" in
     let chain := orDefault (get "chain" query) "ethereum" in
     let addresses := get "addresses" query in
     let chainId := resolveChainId SUPPORTED_CHAINS (get "chainId" query) (Some chain) in
     let respond (data : value) :=
       es <- lift (entries data) ;;
       ret (success {| action := action; chainId := chainId; chain := chain;
                       data := fst (reshape es);
                       formattedPrices := snd (reshape es) |}) in
     if String.eqb action "whitelisted" then
       data <- makeRequest (BASE_URL ++ "/" ++ chainId) "GET" None ;;
       respond data
     else if String.eqb action "addresses" then
       if missing addresses then
         ret (badRequest "Addresses parameter is required for addresses action")
       else
         let addresses := interpolate addresses in
         if negb (forallb isHexAddress (map trim (split "," addresses))) then
           ret (badRequest "Invalid token address format")
         else
           data <- makeRequest (BASE_URL ++ "/" ++ chainId ++ "/" ++ addresses) "GET" None ;;
           respond data
     else
       ret (badRequest "Invalid action. Use: whitelisted or addresses"))
    (fun error => ret (serverError "Failed to fetch spot prices" error)).

(** A sub-request of the batch action; [tokens] is present when it is an
    array. *)
Record ChainRequest : Type := {
  reqChain : option string;
  reqChainId : option string;
  reqTokens : option (list string);
  reqAddresses : option string
}.

(** The body of a [POST]; [chainId] defaults when it is [undefined], and
    [tokens] and [chains] are present when they are arrays. *)
Record PostBody : Type := {
  bodyAction : option string;
  bodyChainId : option string;
  bodyTokens : option (list string);
  bodyChains : option (list ChainRequest)
}.

Record ChainPrices : Type := {
  okChainId : string;
  okChain : string;
  okData : value;
  okFormattedPrices : list (string * string)
}.

Record ChainEcho : Type := {
  failChainId : string;
  failChain : string
}.

Record Requested : Type := {
  requestedChainId : string;
  requestedTokens : list string;
  requestedData : list (string * value);
  requestedFormattedPrices : list (string * string)
}.

(** The payload of a [POST]; its [action] field is the action of the
    branch. *)
Inductive PostResult : Type :=
| RequestedResult (r : Requested)
| BatchedResult (r : BatchResult ChainPrices ChainEcho).

Definition tokensBody (tokens : list string) : value :=
  VObj [("tokens", VArr (map VStr tokens))].

Definition process (r : ChainRequest) : M ChainPrices :=
  let finalChainId := resolveChainId SUPPORTED_CHAINS (reqChainId r) (reqChain r) in
  data <-
    match reqTokens r with
    | Some tokens =>
        makeRequest (BASE_URL ++ "/" ++ finalChainId) "POST" (Some (tokensBody tokens))
    | None =>
        if negb (missing (reqAddresses r)) then
          makeRequest (BASE_URL ++ "/" ++ finalChainId ++ "/" ++ interpolate (reqAddresses r))
            "GET" None
        else
          makeRequest (BASE_URL ++ "/" ++ finalChainId) "GET" None
    end ;;
  es <- lift (entries data) ;;
  ret {| okChainId := finalChainId;
         okChain := orDefault (reqChain r) "ethereum";
         okData := data;
         okFormattedPrices := snd (reshape es) |}.

Definition echo (r : ChainRequest) : ChainEcho :=
  {| failChainId := orDefault (reqChainId r) "1";
     failChain := orDefault (reqChain r) "ethereum" |}.

Definition POST (body : completion PostBody) : M (NextResponse PostResult) :=
  tryCatch
    (body <- lift body ;;
     let chainId := match bodyChainId body with Some c => c | None => "1" end in
     if isLiteral (bodyAction body) "requested" then
         match bodyTokens body with
         | None => ret (badRequest "Tokens array is required for requested action")
         | Some tokens =>
             if negb (forallb isHexAddress tokens) then
               ret (badRequest "Invalid token address format")
             else
               data <- makeRequest (BASE_URL ++ "/" ++ chainId) "POST"
                         (Some (tokensBody tokens)) ;;
               es <- lift (entries data) ;;
               ret (success (RequestedResult
                               {| requestedChainId := chainId;
                                  requestedTokens := tokens;
                                  requestedData := fst (reshape es);
                                  requestedFormattedPrices := snd (reshape es) |}))
         end
     else if isLiteral (bodyAction body) "batch" then
         match bodyChains body with
         | None => ret (badRequest "Chains array is required for batch action")
         | Some chains =>
             results <- forOf process 1000 echo chains [] ;;
             ret (success (BatchedResult
                             {| batchSuccess := true;
                                results := results;
                                total := List.length chains;
                                successful := List.length (filter entrySuccess results);
                                failed := List.length
                                            (filter (fun r => negb (entrySuccess r)) results) |}))
         end
     else ret (badRequest "Invalid action. Use: requested or batch"))
    (fun error => ret (serverError "Failed to process spot price request" error)).

End SpotPrice.

(* ================================================================== *)
(** * Tokens route *)
(* ================================================================== *)

Module Tokens.

Import JS Http Next.
Local Open Scope string_scope.
Local Open Scope js_scope.

Definition BASE_URL : string := "https://api.1inch.dev/token".

Definition SUPPORTED_CHAINS : chainTable :=
  [("ethereum", "1"); ("bsc", "56"); ("polygon", "137"); ("optimism", "10");
   ("arbitrum", "42161"); ("gnosis", "100"); ("avalanche", "43114");
   ("fantom", "250"); ("klaytn", "8217"); ("aurora", "1313161554")].

Definition validActions : list string := ["search"; "custom"; "all"; "tokenList"].

(** The [method] argument of this route's helper is not passed on to
    [fetch]. *)
Definition makeRequest : string -> M value :=
  makeRequestWith [("accept", "application/json")] "GET" None.

(** [...(x && { x })]: the field is there when the value is truthy. *)
Definition whenPresent (x : option string) : option string :=
  if missing x then None else x.

Record TokenData : Type := {
  action : string;
  chainId : string;
  chain : string;
  query : option string;
  addresses : option string;
  provider : option string;
  data : value
}.

Definition searchUrl (chainId query limit ignoreListed : string) : string :=
  BASE_URL ++ "/v1.2/" ++ chainId ++ "/search?query=" ++ encodeURIComponent query
  ++ "&limit=" ++ limit ++ "&ignore_listed=" ++ ignoreListed.

Definition customUrl (chainId addresses : string) : string :=
  BASE_URL ++ "/v1.2/" ++ chainId ++ "/custom/" ++ addresses.

Definition allUrl (chainId provider : string) : string :=
  BASE_URL ++ "/v1.2/" ++ chainId ++ "?provider=" ++ provider.

Definition tokenListUrl (chainId provider : string) : string :=
  BASE_URL ++ "/v1.2/" ++ chainId ++ "/token-list?provider=" ++ provider.

Definition GET (query : list (string * string)) : M (NextResponse TokenData) :=
  tryCatch
    (let action := orDefault (get "action" query) "all" in
     let chain := orDefault (get "chain" query) "ethereum" in
     let search := get "query" query in
     let addresses := get "addresses" query in
     let limit := orDefault (get "limit" query) "10" in
     let ignoreListed := orDefault (get "ignoreListed" query) "false" in
     let provider := orDefault (get "provider" query) "1inch" in
     let chainId := resolveChainId SUPPORTED_CHAINS (get "chainId" query) (Some chain) in
     let respond (data : value) :=
       ret (success {| action := action; chainId := chainId; chain := chain;
                       query := whenPresent search;
                       addresses := whenPresent addresses;
                       provider := whenPresent (Some provider);
                       data := data |}) in
     if String.eqb action "search" then
       if missing search then
         ret (badRequest "Query parameter is required for search action")
       else
         data <- makeRequest (searchUrl chainId (interpolate search) limit ignoreListed) ;;
         respond data
     else if String.eqb action "custom" then
       if missing addresses then
         ret (badRequest "Addresses parameter is required for custom action")
       else
         let addresses := interpolate addresses in
         if negb (forallb isHexAddress (map trim (split "," addresses))) then
           ret (badRequest "Invalid token address format")
         else
           data <- makeRequest (customUrl chainId addresses) ;;
           respond data
     else if String.eqb action "all" then
       data <- makeRequest (allUrl chainId provider) ;;
       respond data
     else if String.eqb action "tokenList" then
       data <- makeRequest (tokenListUrl chainId provider) ;;
       respond data
     else
       ret (badRequest "Invalid action. Use: search, custom, all, or tokenList"))
    (fun error => ret (serverError "Failed to fetch token data" error)).

(** A batch operation; [limit], [ignoreListed] and [provider] default
    when they are [undefined]. *)
Record Operation : Type := {
  opAction : option string;
  opChain : option string;
  opChainId : option string;
  opQuery : option string;
  opAddresses : option string;
  opLimit : option string;
  opIgnoreListed : option string;
  opProvider : option string
}.

Record OperationResult : Type := {
  okAction : option string;
  okChainId : string;
  okChain : string;
  okQuery : option string;
  okAddresses : option string;
  okProvider : option string;
  okData : value
}.

Record OperationEcho : Type := {
  failAction : option string;
  failChainId : string;
  failChain : string
}.

Definition withDefault (x : option string) (d : string) : string :=
  match x with
  | Some s => s
  | None => d
  end.

Definition process (op : Operation) : M OperationResult :=
  let limit := withDefault (opLimit op) "10" in
  let ignoreListed := withDefault (opIgnoreListed op) "false" in
  let provider := withDefault (opProvider op) "1inch" in
  let finalChainId := resolveChainId SUPPORTED_CHAINS (opChainId op) (opChain op) in
  let respond (data : value) :=
    ret {| okAction := opAction op;
           okChainId := finalChainId;
           okChain := orDefault (opChain op) "ethereum";
           okQuery := whenPresent (opQuery op);
           okAddresses := whenPresent (opAddresses op);
           okProvider := whenPresent (Some provider);
           okData := data |} in
  match opAction op with
  | Some "search" =>
      if missing (opQuery op) then throw (Error "Query is required for search action")
      else
        data <- makeRequest (searchUrl finalChainId (interpolate (opQuery op))
                               limit ignoreListed) ;;
        respond data
  | Some "custom" =>
      if missing (opAddresses op) then throw (Error "Addresses are required for custom action")
      else
        let addresses := interpolate (opAddresses op) in
        if negb (forallb isHexAddress (map trim (split "," addresses))) then
          throw (Error "Invalid token address format")
        else
          data <- makeRequest (customUrl finalChainId addresses) ;;
          respond data
  | Some "all" =>
      data <- makeRequest (allUrl finalChainId provider) ;;
      respond data
  | Some "tokenList" =>
      data <- makeRequest (tokenListUrl finalChainId provider) ;;
      respond data
  | action => throw (Error ("Invalid action: " ++ interpolate action))
  end.

Definition echo (op : Operation) : OperationEcho :=
  {| failAction := opAction op;
     failChainId := orDefault (opChainId op) "1";
     failChain := orDefault (opChain op) "ethereum" |}.

Definition POST : BatchBody Operation -> M (NextResponse (BatchResult OperationResult OperationEcho)) :=
  batch process 1000 echo "Operations array is required" "Failed to process batch token operations".

End Tokens.

(* ================================================================== *)
(** * Traces route *)
(* ================================================================== *)

Module Traces.

Import JS Http Next.
Local Open Scope string_scope.
Local Open Scope js_scope.

Definition BASE_URL : string := "https://api.1inch.dev/traces/v1.0/chain".

Definition makeRequest : string -> M value := makeRequestWith [] "GET" None.

Definition validActions : list string := ["syncedInterval"; "blockTrace"; "txTrace"].

Record Trace : Type := {
  action : string;
  chain : string;
  data : value
}.

Definition syncedIntervalUrl (chain : string) : string :=
  BASE_URL ++ "/" ++ chain ++ "/synced-interval".

Definition blockTraceUrl (chain blockNumber : string) : string :=
  BASE_URL ++ "/" ++ chain ++ "/block-trace/" ++ blockNumber.

Definition txTraceUrl (chain blockNumber txHash : string) : string :=
  BASE_URL ++ "/" ++ chain ++ "/block-trace/" ++ blockNumber ++ "/tx-hash/" ++ txHash.

Definition GET (query : list (string * string)) : M (NextResponse Trace) :=
  tryCatch
    (let action := get "action" query in
     let chain := orDefault (get "chain" query) "1" in
     let blockNumber := get "blockNumber" query in
     let txHash := get "txHash" query in
     if missing action then
       ret (badRequest "Action parameter is required. Use: syncedInterval, blockTrace, or txTrace")
     else
       let action := interpolate action in
       let respond (data : value) :=
         ret (success {| action := action; chain := chain; data := data |}) in
       if String.eqb action "syncedInterval" then
         data <- makeRequest (syncedIntervalUrl chain) ;;
         respond data
       else if String.eqb action "blockTrace" then
         if missing blockNumber then
           ret (badRequest "blockNumber parameter is required for blockTrace action")
         else
           data <- makeRequest (blockTraceUrl chain (interpolate blockNumber)) ;;
           respond data
       else if String.eqb action "txTrace" then
         if missing blockNumber || missing txHash then
           ret (badRequest "blockNumber and txHash parameters are required for txTrace action")
         else
           data <- makeRequest (txTraceUrl chain (interpolate blockNumber)
                                  (interpolate txHash)) ;;
           respond data
       else
         ret (badRequest "Invalid action. Use: syncedInterval, blockTrace, or txTrace"))
    (fun error => ret (serverError "Failed to fetch trace data" error)).

(** A batch operation; [chain] defaults when it is [undefined]. *)
Record Operation : Type := {
  opAction : option string;
  opChain : option string;
  opBlockNumber : option string;
  opTxHash : option string
}.

Record OperationEcho : Type := {
  echoAction : option string;
  echoChain : string;
  echoBlockNumber : option string;
  echoTxHash : option string
}.

Record OperationResult : Type := {
  okEcho : OperationEcho;
  okData : value
}.

Definition echo (op : Operation) : OperationEcho :=
  {| echoAction := opAction op;
     echoChain := match opChain op with Some c => c | None => "1" end;
     echoBlockNumber := opBlockNumber op;
     echoTxHash := opTxHash op |}.

Definition process (op : Operation) : M OperationResult :=
  let chain := echoChain (echo op) in
  let respond (data : value) := ret {| okEcho := echo op; okData := data |} in
  match opAction op with
  | Some "syncedInterval" =>
      data <- makeRequest (syncedIntervalUrl chain) ;;
      respond data
  | Some "blockTrace" =>
      if missing (opBlockNumber op) then throw (Error "blockNumber is required for blockTrace")
      else
        data <- makeRequest (blockTraceUrl chain (interpolate (opBlockNumber op))) ;;
        respond data
  | Some "txTrace" =>
      if missing (opBlockNumber op) || missing (opTxHash op) then
        throw (Error "blockNumber and txHash are required for txTrace")
      else
        data <- makeRequest (txTraceUrl chain (interpolate (opBlockNumber op))
                               (interpolate (opTxHash op))) ;;
        respond data
  | action => throw (Error ("Invalid action: " ++ interpolate action))
  end.

Definition POST : BatchBody Operation -> M (NextResponse (BatchResult OperationResult OperationEcho)) :=
  batch process 1000 echo "Operations array is required" "Failed to process batch operations".

End Traces.

(* ================================================================== *)
(** * Domains route *)
(* ================================================================== *)

Module Domains.

Import JS Http Next.
Local Open Scope string_scope.
Local Open Scope js_scope.

Definition BASE_URL : string := "https://api.1inch.dev/domains/v2.0".

Definition makeRequest : string -> M value := makeRequestWith [] "GET" None.

Definition validActions : list string := ["lookup"; "reverseLookup"; "providersData"].

(** [...(x && { x })]: the field is there when the value is truthy. *)
Definition whenPresent (x : option string) : option string :=
  if missing x then None else x.

Record DomainData : Type := {
  action : string;
  domain : option string;
  address : option string;
  data : value
}.

Definition lookupUrl (domain : string) : string := BASE_URL ++ "/" ++ domain ++ "/lookup".

Definition reverseLookupUrl (address : string) : string :=
  BASE_URL ++ "/" ++ address ++ "/reverse-lookup".

Definition providersUrl : string := BASE_URL ++ "/get-providers-data-with-avatar".

Definition GET (query : list (string * string)) : M (NextResponse DomainData) :=
  tryCatch
    (let action := get "action" query in
     let domain := get "domain" query in
     let address := get "address" query in
     if missing action then
       ret (badRequest "Action parameter is required. Use: lookup, reverseLookup, or providersData")
     else
       let action := interpolate action in
       let respond (data : value) :=
         ret (success {| action := action;
                         domain := whenPresent domain;
                         address := whenPresent address;
                         data := data |}) in
       if String.eqb action "lookup" then
         if missing domain then
           ret (badRequest "Domain parameter is required for lookup action")
         else if negb (includes "." (interpolate domain)) then
           ret (badRequest "Invalid domain format")
         else
           data <- makeRequest (lookupUrl (interpolate domain)) ;;
           respond data
       else if String.eqb action "reverseLookup" then
         if missing address then
           ret (badRequest "Address parameter is required for reverseLookup action")
         else if negb (isHexAddress (interpolate address)) then
           ret (badRequest "Invalid wallet address format")
         else
           data <- makeRequest (reverseLookupUrl (interpolate address)) ;;
           respond data
       else if String.eqb action "providersData" then
         data <- makeRequest providersUrl ;;
         respond data
       else
         ret (badRequest "Invalid action. Use: lookup, reverseLookup, or providersData"))
    (fun error => ret (serverError "Failed to fetch domain data" error)).

Record Operation : Type := {
  opAction : option string;
  opDomain : option string;
  opAddress : option string
}.

Record OperationEcho : Type := {
  echoAction : option string;
  echoDomain : option string;
  echoAddress : option string
}.

Record OperationResult : Type := {
  okEcho : OperationEcho;
  okData : value
}.

Definition echo (op : Operation) : OperationEcho :=
  {| echoAction := opAction op;
     echoDomain := whenPresent (opDomain op);
     echoAddress := whenPresent (opAddress op) |}.

Definition process (op : Operation) : M OperationResult :=
  let respond (data : value) := ret {| okEcho := echo op; okData := data |} in
  match opAction op with
  | Some "lookup" =>
      if missing (opDomain op) then throw (Error "Domain is required for lookup action")
      else if negb (includes "." (interpolate (opDomain op))) then
        throw (Error "Invalid domain format")
      else
        data <- makeRequest (lookupUrl (interpolate (opDomain op))) ;;
        respond data
  | Some "reverseLookup" =>
      if missing (opAddress op) then throw (Error "Address is required for reverseLookup action")
      else if negb (isHexAddress (interpolate (opAddress op))) then
        throw (Error "Invalid wallet address format")
      else
        data <- makeRequest (reverseLookupUrl (interpolate (opAddress op))) ;;
        respond data
  | Some "providersData" =>
      data <- makeRequest providersUrl ;;
      respond data
  | action => throw (Error ("Invalid action: " ++ interpolate action))
  end.

Definition POST : BatchBody Operation -> M (NextResponse (BatchResult OperationResult OperationEcho)) :=
  batch process 1000 echo "Operations array is required" "Failed to process batch domain operations".

End Domains.

(* ================================================================== *)
(** * The wallet-connect provider module *)
(* ================================================================== *)

Module Provider.

Import JS Http.
Local Open Scope string_scope.

(** The argument of [getDefaultConfig]. *)
Record Config : Type := {
  appName : string;
  projectId : string;
  chains : list string;
  ssr : bool
}.

(** Loading the module: the project id is read from the environment, and
    the module throws when it is [undefined] or empty. *)
Definition load (e : Env) : completion Config :=
  let WALLETCONNECT_ID := NEXT_PUBLIC_WALLETCONNECT_PROJECT_ID e in
  match WALLETCONNECT_ID with
  | None => Throw (Error "Please enter the project id in .env.local")
  | Some id =>
      if negb (nonEmpty id) then Throw (Error "Please enter the project id in .env.local")
      else
        Normal {| appName := "Cardano 1inch Fusion+";
                  projectId := id;
                  chains := ["mainnet"; "sepolia"; "polygon"; "polygonMumbai";
                             "arbitrum"; "arbitrumSepolia"; "optimism"; "optimismSepolia";
                             "base"; "baseSepolia"; "bsc"; "bscTestnet";
                             "avalanche"; "avalancheFuji"];
                  ssr := false |}
  end.

End Provider.

(* ================================================================== *)
(** * Vocabulary of the properties *)
(* ================================================================== *)

Module Terms.

Import JS Http Next.
Local Open Scope string_scope.

(** The upstream URL of the wallet history as the specification words
    it: the client's [chainId] (or ['1']) and [limit] in the query. *)
Definition specifiedHistoryUrl (address chainId limit : string) : string :=
  WalletHistory.BASE_URL ++ "/" ++ address ++ "/events?chainId=" ++ chainId
  ++ "&limit=" ++ limit.

(** The request the wallet history route sends for an address. *)
Definition historyRequest (s : State) (address limit : string) : UpstreamRequest :=
  {| url := WalletHistory.BASE_URL ++ "/" ++ address ++ "/events?chainId=1&limit=" ++ limit;
     method := "GET";
     headers := [("Authorization", "Bearer " ++ interpolate (ONEINCH_API_KEY (env s)));
                 ("Content_Type", "appication/json")];
     requestBody := None |}.

(** The request that the [makeRequest] helpers send for a URL. *)
Definition authorised (s : State) (extra : list (string * string)) (method : string)
    (payload : option value) (url : string) : UpstreamRequest :=
  {| url := url;
     method := method;
     headers := [("Authorization", "Bearer " ++ interpolate (ONEINCH_API_KEY (env s)));
                 ("Content-Type", "application/json")] ++ extra;
     requestBody := payload |}.

(** The message in which the [makeRequest] helpers wrap an upstream
    failure. *)
Definition wrapped (r : UpstreamResponse) : string :=
  "API request failed: " ++ showStatus (status r) ++ " " ++ statusText r
  ++ " - " ++ text r.

(** The effects a computation added to the trace. *)
Definition added (s s' : State) : list Effect :=
  firstn (List.length (trace s') - List.length (trace s)) (trace s').

(** A string is in fixed notation with exactly six fractional digits: an
    optional sign, at least one digit, a point and six digits. *)
Definition unsigned (l : list ascii) : list ascii :=
  match l with
  | "-"%char :: r => r
  | _ => l
  end.

Definition sixFractionalDigits (s : string) : bool :=
  let l := unsigned (chars s) in
  match dropWhile isDigit l with
  | "."%char :: fraction =>
      match takeWhile isDigit l with [] => false | _ => true end
      && Nat.eqb (List.length fraction) 6
      && forallb isDigit fraction
  | _ => false
  end.

(** The integer that the digits of a string spell, the point left out:
    for six fractional digits, the number of millionths. *)
Definition millionths (s : string) : Z :=
  digitsValue 10 (filter isDigit (chars s)).

(** A string of decimal digits, at least one. *)
Definition isDecimal (s : string) : bool :=
  nonEmpty s && forallb isDigit (chars s).

(** What the loop over a price map with distinct keys leaves for each
    key: the key [__proto__] is lost. *)
Definition kept (e : string * value) : bool := negb (String.eqb (fst e) "__proto__").

(** An entry of the price map as [formattedPrices] has it. *)
Definition formatted (e : string * value) : string * string :=
  (fst e, SpotPrice.formatPriceFromWei (toStr (snd e))).

(** The [data] and [formattedPrices] of an answer reflect a price map
    with distinct keys: every address of the map has its upstream value
    in [data] and the conversion of that value in [formattedPrices]. *)
Definition Reflects (prices : value) (data : list (string * value))
    (formattedPrices : list (string * string)) : Prop :=
  forall fields : list (string * value),
    prices = VObj fields ->
    NoDup (map fst fields) ->
    forall (address : string) (priceWei : value),
      lookup address fields = Some priceWei ->
      address <> "__proto__" ->
      lookup address formattedPrices
      = Some (SpotPrice.formatPriceFromWei (toStr priceWei))
      /\ lookup address data = Some priceWei.

(** Reading decimal digits onto an integer already read. *)
Definition readOnto (a : Z) (ds : list ascii) : Z :=
  fold_left (fun acc c => (acc * 10 + hexDigitValue c)%Z) ds a.

(** The numbers that are neither negative nor [NaN]. *)
Inductive NonNegative : number -> Prop :=
| NonNegative_zero : NonNegative (S754_zero false)
| NonNegative_finite (m : positive) (e : Z) : NonNegative (S754_finite false m e)
| NonNegative_infinity : NonNegative (S754_infinity false).

(** A message names an action when the action occurs in it. *)
Fixpoint isPrefix (p l : list ascii) : bool :=
  match p, l with
  | [], _ => true
  | c :: p', d :: l' => Ascii.eqb c d && isPrefix p' l'
  | _ :: _, [] => false
  end.

Fixpoint occursIn (needle hay : list ascii) : bool :=
  isPrefix needle hay
  || match hay with
     | [] => false
     | _ :: rest => occursIn needle rest
     end.

Definition namesActions (valid : list string) (error : string) : bool :=
  forallb (fun action => occursIn (chars action) (chars error)) valid.

(** The action of a request is not one the route dispatches on: it is
    missing (or empty), or it is none of the valid ones. *)
Definition unrecognised (valid : list string) (action : option string) : Prop :=
  missing action = true \/ ~ In (interpolate action) valid.

(** A computation surfaces upstream failures: it only adds effects, and a
    response it received that is not a success makes it throw the
    wrapped message. *)
Definition Surfaces {A : Type} (m : M A) : Prop :=
  forall s : State,
  exists new : list Effect,
    trace (snd (m s)) = (new ++ trace s)%list
    /\ forall req r,
         In (Fetched req (Responded r)) new ->
         ok r = false ->
         fst (m s) = Throw (Error (wrapped r)).

(** A handler turns an upstream failure into its 500 answer, with the
    wrapped message as the details. *)
Definition SurfacesAs500 {P : Type} (handler : M (NextResponse P)) (error : string) : Prop :=
  forall (s : State) req r,
    In (Fetched req (Responded r)) (added s (snd (handler s))) ->
    ok r = false ->
    fst (handler s)
    = Normal {| httpStatus := 500; body := FailureBody error (wrapped r) |}.

End Terms.

(* ================================================================== *)
(** * Sample worlds *)
(* ================================================================== *)

Module Sample.

Import JS Http Next.
Local Open Scope string_scope.

Definition anAddress : string := "0x1111111111111111111111111111111111111111".

Definition noKey : Env :=
  {| ONEINCH_API_KEY := None;
     NEXT_PUBLIC_WALLETCONNECT_PROJECT_ID := Some "project" |}.

Definition withKey : Env :=
  {| ONEINCH_API_KEY := Some "secret";
     NEXT_PUBLIC_WALLETCONNECT_PROJECT_ID := Some "project" |}.

Definition answer (v : value) : FetchOutcome :=
  Responded {| status := 200; statusText := "OK"; text := ""; json := Normal v |}.

Definition unavailable : UpstreamResponse :=
  {| status := 503; statusText := "Service Unavailable"; text := "down";
     json := Throw (Error "Unexpected token") |}.

(** An upstream that always answers with the same JSON. *)
Definition steady (e : Env) (v : value) : State :=
  {| env := e; upstream := fun _ _ => answer v; trace := [] |}.

(** An upstream that is down. *)
Definition down : State :=
  {| env := withKey; upstream := fun _ _ => Responded unavailable; trace := [] |}.

(** An upstream that refuses the API key. *)
Definition unauthorized : UpstreamResponse :=
  {| status := 401; statusText := "Unauthorized"; text := "";
     json := Throw (Error "Unexpected end of JSON input") |}.

Definition refusing : State :=
  {| env := noKey; upstream := fun _ _ => Responded unauthorized; trace := [] |}.

(** A price map with a token at 0.0015 and a token at [10^40] wei. *)
Definition tokenA : string := "0x1111111111111111111111111111111111111111".
Definition tokenB : string := "0x2222222222222222222222222222222222222222".

Definition prices : value :=
  VObj [(tokenA, VStr "1500000000000000");
        (tokenB, VStr "10000000000000000000000000000000000000000")].

(** An upstream whose second answer is a failure. *)
Definition flaky : State :=
  {| env := withKey;
     upstream := fun i _ => if Nat.eqb i 1 then Responded unavailable
                            else answer (VObj [("assets", VArr [VNull; VNull])]);
     trace := [] |}.

Definition nftRequest (address : string) : Nft.NftRequest :=
  {| Nft.reqAddress := Some address; Nft.reqChainIds := None;
     Nft.reqLimit := None; Nft.reqOffset := None |}.

Definition threeRequests : list Nft.NftRequest :=
  [nftRequest anAddress; nftRequest anAddress; nftRequest "0x11"].

End Sample.

(* ================================================================== *)
(** * The wallet history and token search components *)
(* ================================================================== *)

Module Panel.

Import JS.
Local Open Scope string_scope.




(** ** Favourite tokens

    A [Set<string>] is the list of its elements in the order of their
    insertion, each one once. *)

Definition has (x : string) (set : list string) : bool := existsb (String.eqb x) set.

Definition add (x : string) (set : list string) : list string :=
  if has x set then set else (set ++ [x])%list.

Definition delete (x : string) (set : list string) : list string :=
  filter (fun y => negb (String.eqb x y)) set.

(** [new Set(iterable)] *)
Definition newSet (items : list string) : list string :=
  fold_left (fun set x => add x set) items [].

Record Token : Type := {
  address : string;
  symbol : string;
  name : string;
  decimals : number;
  logoURI : option string;
  tags : option (list string);
  chainId : option string
}.

(** The [favorites] state of the token search and the item
    [token-favorites] of the local storage, kept as the array that its
    JSON text denotes. *)
Record Favorites : Type := {
  favorites : list string;
  storage : option (list string)
}.

Definition saveFavorites (newFavorites : list string) (st : Favorites) : Favorites :=
  {| favorites := newFavorites; storage := Some newFavorites |}.

Definition toggleFavorite (tokenAddress : string) (st : Favorites) : Favorites :=
  let newFavorites := newSet (favorites st) in
  let newFavorites :=
    if has tokenAddress newFavorites then delete tokenAddress newFavorites
    else add tokenAddress newFavorites in
  saveFavorites newFavorites st.

(** The effect that loads the favourites when the component mounts. *)
Definition loadFavorites (st : Favorites) : Favorites :=
  match storage st with
  | Some savedFavorites =>
      {| favorites := newSet savedFavorites; storage := storage st |}
  | None => st
  end.

Definition getFavoriteTokens (tokens : list Token) (st : Favorites) : list Token :=
  filter (fun token => has (address token) (favorites st)) tokens.

End Panel.

(* ================================================================== *)
(** * Vocabulary of the further properties *)
(* ================================================================== *)

Module Laws.

Import JS Http Next.
Local Open Scope string_scope.

(** The state a computation leaves when all it did was to add effects. *)
Definition after (s : State) (new : list Effect) : State :=
  {| env := env s; upstream := upstream s; trace := (new ++ trace s)%list |}.


(** A computation only adds effects. *)
Definition Grows {A : Type} (m : M A) : Prop :=
  forall s : State, exists new : list Effect, snd (m s) = after s new.

(** ** What a handler answers *)

(** A handler always answers, with one of the given statuses, and an
    answer 400 is given before anything was done. *)
Definition Replies {P : Type} (statuses : list Z) (handler : M (NextResponse P)) : Prop :=
  forall s : State,
  exists (r : NextResponse P) (s' : State),
    handler s = (Normal r, s')
    /\ In (httpStatus r) statuses
    /\ (httpStatus r = 400%Z -> s' = s).

(** An answer 200 of the handler comes from the upstream: a successful
    upstream response is among the effects of the run. *)
Definition ServesUpstream {P : Type} (handler : M (NextResponse P)) : Prop :=
  forall (s s' : State) (r : NextResponse P),
    handler s = (Normal r, s') ->
    httpStatus r = 200%Z ->
    exists req rsp,
      In (Fetched req (Responded rsp)) (Terms.added s s') /\ ok rsp = true.

(** The body of a handler up to its first upstream request: it refuses
    with 400 (where [refuses] allows it) having done nothing, or goes on
    to answer 200 after a successful upstream response, or throws. *)
Definition Checks {P : Type} (refuses : bool) (body : M (NextResponse P)) : Prop :=
  forall s : State,
    match body s with
    | (Normal r, s') =>
        (refuses = true /\ httpStatus r = 400%Z /\ s' = s)
        \/ (httpStatus r = 200%Z
            /\ exists req rsp new,
                 s' = after s new
                 /\ In (Fetched req (Responded rsp)) new /\ ok rsp = true)
    | (Throw _, _) => True
    end.

(** The rest of a body, after its first upstream request: it only adds
    effects, and what it answers is 200. *)
Definition Serves {P : Type} (rest : M (NextResponse P)) : Prop :=
  forall s : State,
  exists new : list Effect,
    snd (rest s) = after s new
    /\ match fst (rest s) with
       | Normal r => httpStatus r = 200%Z
       | Throw _ => True
       end.

(** A body that refuses with 400 having done nothing, or answers 200, or
    throws. *)
Definition Decides {P : Type} (body : M (NextResponse P)) : Prop :=
  forall s : State,
    match body s with
    | (Normal r, s') => (httpStatus r = 400%Z /\ s' = s) \/ httpStatus r = 200%Z
    | (Throw _, _) => True
    end.

(** ** What a handler sends *)



(** ** How an upstream call fails *)

(** The error of an upstream call that failed in transport: the rejection
    of [fetch], or what [response.json()] throws on a successful response
    whose body is not JSON. *)
Definition transportFailure (out : FetchOutcome) : option exn :=
  match out with
  | Rejected e => Some e
  | Responded r =>
      if ok r then
        match json r with
        | Throw e => Some e
        | Normal _ => None
        end
      else None
  end.

(** The error that an upstream call made through the request helper ends
    in: a transport failure, or the wrapped message of a response that is
    not a success. *)
Definition failure (out : FetchOutcome) : option exn :=
  match out with
  | Rejected e => Some e
  | Responded r =>
      if ok r then transportFailure out else Some (Error (Terms.wrapped r))
  end.

(** A computation relays the failure of an upstream call: it throws the
    error the call ended in. *)
Definition Relays {A : Type} (m : M A) : Prop :=
  forall s : State,
  exists new : list Effect,
    snd (m s) = after s new
    /\ forall req out e,
         In (Fetched req out) new -> failure out = Some e -> fst (m s) = Throw e.

(** A handler answers a failed upstream call with 500 and the message of
    the error as the details. *)
Definition RelaysAs500 {P : Type} (handler : M (NextResponse P)) (error : string) : Prop :=
  forall (s : State) req out e,
    In (Fetched req out) (Terms.added s (snd (handler s))) ->
    failure out = Some e ->
    fst (handler s) = Normal (serverError error e).

(** ** The pace of a batch *)

(** A computation has no effect. *)
Definition Quiet {A : Type} (m : M A) : Prop := forall s : State, snd (m s) = s.

(** A computation makes one upstream request before it returns, at most
    one before it throws, and never pauses. *)
Definition Single {A : Type} (m : M A) : Prop :=
  forall s : State,
    (exists req out, snd (m s) = after s [Fetched req out])
    \/ (snd (m s) = s /\ exists e, fst (m s) = Throw e).



(** A computation met in state [s] sends this one request and does
    nothing else. *)
Definition SendsOnly {A : Type} (m : M A) (s : State) (req : UpstreamRequest) : Prop :=
  exists out : FetchOutcome, snd (m s) = after s [Fetched req out].



(** A transaction of the wallet history carries the chain id of the
    client's request and a status. *)
Definition stamped (chainId : string) (t : WalletHistory.Transaction) : Prop :=
  WalletHistory.txChainId t = chainId /\ truthy (WalletHistory.txStatus t) = true.








(** A computation sends at most one upstream request and does nothing
    else: it makes no pause and no second attempt. *)
Definition AtMostOnce {A : Type} (m : M A) : Prop :=
  forall s : State,
    snd (m s) = s \/ exists req out, snd (m s) = after s [Fetched req out].

(** ** Worlds *)

(** An upstream that cannot be reached. *)
Definition offline : State :=
  {| env := Sample.withKey;
     upstream := fun _ _ => Rejected (Error "fetch failed");
     trace := [] |}.

End Laws.

(* ================================================================== *)
(** * Properties *)
(* ================================================================== *)

Import JS Http Next.

Import Terms.

(** ** The batch loop *)

Section BatchFacts.

Variables I S F : Type.
Variable process : I -> M S.
Variable pause : Z.
Variable echo : I -> F.

Let outcome := outcome process pause echo.
Let outcomes := outcomes process pause echo.

Lemma iteration_outcome (results : list (Entry S F)) (item : I) (s : State) :
  iteration process pause echo results item s
  = (Normal (results ++ [fst (outcome item s)]), snd (outcome item s)).
Proof.
  unfold iteration, tryCatch, bind, delay, ret, outcome, Next.outcome.
  destruct (process item s) as [[entry | e] s1]; reflexivity.
Qed.

Lemma forOf_outcomes (items : list I) :
  forall (results : list (Entry S F)) (s : State),
    forOf process pause echo items results s
    = (Normal (results ++ fst (outcomes items s)), snd (outcomes items s)).
Proof.
  induction items as [| item rest IH]; intros results s; simpl.
  - unfold ret. now rewrite app_nil_r.
  - unfold bind. rewrite iteration_outcome.
    fold (outcome item s).
    destruct (outcome item s) as [r s1]; simpl.
    rewrite IH.
    fold (outcomes rest s1).
    destruct (outcomes rest s1) as [rs s2]; simpl.
    now rewrite <- app_assoc.
Qed.






End BatchFacts.

Local Open Scope string_scope.

(** ** Batch handlers *)





(** With the upstream down every entry of the NFT batch is a failure, and
    the answer is still a 200 whose [success] is [true]. *)
Example batch_of_failures_succeeds :
  exists r s',
    Nft.POST (Items Sample.threeRequests) Sample.down = (Normal (success r), s')
    /\ batchSuccess r = true
    /\ forallb (fun e => negb (entrySuccess e)) (results r) = true
    /\ (total r, successful r, failed r) = (3, 0, 3)%nat.
Proof. eexists. eexists. split; [vm_compute; reflexivity |]. repeat split. Qed.

(** ** Wallet history *)

(** With an address that is present, the wallet history route goes to the
    upstream whatever the address looks like, and asks for chain 1. *)
Lemma history_fetches (query : list (string * string)) (address : string) (s : State) :
  get "address" query = Some address ->
  nonEmpty address = true ->
  exists out,
    trace (snd (WalletHistory.GET query s))
    = Fetched (Terms.historyRequest s address (orDefault (get "limit" query) "10")) out
      :: trace s.
Proof.
  intros Ha Hne.
  unfold Terms.historyRequest, WalletHistory.GET. rewrite Ha, Hne.
  cbv beta iota zeta delta [tryCatch bind bearer getEnv ret fetch negb fst snd].
  match goal with
  | |- context [upstream s ?n ?r] => destruct (upstream s n r) as [e | r0]
  end.
  - eexists. reflexivity.
  - destruct (ok r0); simpl.
    + unfold lift, throw.
      destruct (json r0) as [data | e]; simpl; [| eexists; reflexivity].
      destruct (WalletHistory.transformTransactions _ data); simpl; eexists; reflexivity.
    + destruct (status r0 =? 401)%Z; [eexists; reflexivity |].
      destruct (status r0 =? 429)%Z; eexists; reflexivity.
Qed.

(** The NFT route, for comparison, answers 400 to an address that is
    missing or malformed and leaves the upstream alone. *)
Lemma nft_rejects_malformed_address (query : list (string * string)) (s : State) :
  match get "address" query with
  | Some address => isHexAddress address = false
  | None => True
  end ->
  exists error, Nft.GET query s = (Normal (badRequest error), s).
Proof.
  intros H. unfold Nft.GET, tryCatch, ret.
  destruct (get "address" query) as [address |].
  - destruct (nonEmpty address); simpl; [| eexists; reflexivity].
    rewrite H. simpl. eexists; reflexivity.
  - eexists; reflexivity.
Qed.

(** So does the reverse lookup of the domains route. *)
Lemma domains_rejects_malformed_address (query : list (string * string)) (s : State) :
  get "action" query = Some "reverseLookup" ->
  match get "address" query with
  | Some address => isHexAddress address = false
  | None => True
  end ->
  exists error, Domains.GET query s = (Normal (badRequest error), s).
Proof.
  intros Haction H. unfold Domains.GET, tryCatch, ret. rewrite Haction.
  cbn [missing nonEmpty negb interpolate String.eqb Ascii.eqb Bool.eqb].
  cbv zeta. cbn [String.eqb Ascii.eqb Bool.eqb].
  destruct (get "address" query) as [address |]; [| eexists; reflexivity].
  cbn [missing interpolate]. destruct (nonEmpty address); cbn [negb];
    [| eexists; reflexivity].
  rewrite H. eexists; reflexivity.
Qed.

(** And so does the portfolio [GET], for each address of its list. *)
Lemma portfolio_rejects_malformed_addresses (query : list (string * string)) (s : State) :
  missing (get "action" query) = false ->
  missing (get "addresses" query) = false ->
  validAddressList (interpolate (get "addresses" query)) = false ->
  Portfolio.GET query s = (Normal (badRequest "Invalid wallet address format"), s).
Proof.
  intros Haction Haddresses Hvalid. unfold Portfolio.GET, tryCatch, ret.
  rewrite Haction, Haddresses. cbv zeta. now rewrite Hvalid.
Qed.

(** C1. The wallet history route does not check the format of the
    address: for [address=not-an-address] it sends the upstream request
    with the address spliced into the URL, where the claim wants a 400
    before any upstream request. *)
Theorem C1_wallet_history_forwards_a_malformed_address :
  forall s : State,
    isHexAddress "not-an-address" = false
    /\ exists out,
         trace (snd (WalletHistory.GET [("address", "not-an-address")] s))
         = Fetched {| url := "https://api.1inch.dev/history/v2.0/history/not-an-address/events?chainId=1&limit=10";
                      method := "GET";
                      headers := [("Authorization",
                                   "Bearer " ++ interpolate (ONEINCH_API_KEY (env s)));
                                  ("Content_Type", "appication/json")];
                      requestBody := None |} out
           :: trace s.
Proof.
  intros s. split; [reflexivity |].
  exact (@history_fetches [("address", "not-an-address")] "not-an-address" s
           eq_refl eq_refl).
Qed.

(** C2. The wallet history route writes the literal chain id 1 into the
    upstream URL: for [chainId=137] the URL fetched still says
    [chainId=1], which is not the URL the claim describes. *)
Theorem C2_wallet_history_url_ignores_chainId :
  forall s : State,
    let query := [("address", Sample.anAddress); ("chainId", "137"); ("limit", "5")] in
    exists req out,
      trace (snd (WalletHistory.GET query s)) = Fetched req out :: trace s
      /\ url req = "https://api.1inch.dev/history/v2.0/history/0x1111111111111111111111111111111111111111/events?chainId=1&limit=5"
      /\ url req <> Terms.specifiedHistoryUrl Sample.anAddress "137" "5".
Proof.
  intros s query.
  destruct (@history_fetches query Sample.anAddress s eq_refl eq_refl) as [out H].
  eexists. exists out. split; [exact H |].
  split; [reflexivity |]. vm_compute. discriminate.
Qed.

(** ** The request helper *)

Lemma makeRequestWith_run (extra : list (string * string)) (method : string)
    (payload : option value) (url : string) (s : State) :
  makeRequestWith extra method payload url s
  = let req := Terms.authorised s extra method payload url in
    let out := upstream s (List.length (fetches s)) req in
    (match out with
     | Rejected e => Throw e
     | Responded r => if ok r then json r else Throw (Error (Terms.wrapped r))
     end,
     record (Fetched req out) s).
Proof.
  unfold makeRequestWith, Terms.authorised, Terms.wrapped.
  cbv beta iota zeta delta [bind bearer getEnv ret fetch lift throw].
  match goal with
  | |- context [upstream s ?n ?r] => destruct (upstream s n r) as [e | r0]
  end; [reflexivity |].
  destruct (ok r0); reflexivity.
Qed.

(** ** NFT route *)

Lemma hexAddress_nonEmpty (a : string) : isHexAddress a = true -> nonEmpty a = true.
Proof. destruct a; [discriminate | reflexivity]. Qed.

(** C6. For a request to the NFT route with a well-formed address: a
    limit that parses to [NaN], to less than 1 or to more than 100 is
    answered with 400 and the limit message, and otherwise an offset that
    parses to [NaN] or to a negative number with 400 and the offset
    message, in both cases without any effect on the upstream; when
    neither is the case the request goes upstream with the two
    parameters in its URL. *)
Theorem C6_nft_numeric_parameters :
  forall (query : list (string * string)) (s : State) (address : string),
    get "address" query = Some address ->
    isHexAddress address = true ->
    let limit := orDefault (get "limit" query) "50" in
    let offset := orDefault (get "offset" query) "0" in
    let badLimit :=
      isNaN (parseInt limit) || ltb (parseInt limit) (ofZ 1) || ltb (ofZ 100) (parseInt limit) in
    let badOffset := isNaN (parseInt offset) || ltb (parseInt offset) (ofZ 0) in
    (badLimit = true ->
     Nft.GET query s = (Normal (badRequest "Limit must be a number between 1 and 100"), s))
    /\ (badLimit = false -> badOffset = true ->
        Nft.GET query s = (Normal (badRequest "Offset must be a non-negative number"), s))
    /\ (badLimit = false -> badOffset = false ->
        exists out,
          trace (snd (Nft.GET query s))
          = Fetched (Terms.authorised s [] "GET" None
                       (Nft.constructUrl address (orDefault (get "chainIds" query) "1")
                          limit offset)) out
            :: trace s).
Proof.
  intros query s address Ha Hhex limit offset badLimit badOffset.
  pose proof (hexAddress_nonEmpty _ Hhex) as Hne.
  unfold Nft.GET. rewrite Ha, Hne, Hhex.
  fold limit offset. change (Nft.badLimit (parseInt limit)) with badLimit.
  change (Nft.badOffset (parseInt offset)) with badOffset.
  cbv beta iota zeta delta [negb tryCatch ret].
  repeat split.
  - intros ->. reflexivity.
  - intros -> ->. reflexivity.
  - intros -> ->. unfold bind, Nft.makeRequest. rewrite makeRequestWith_run.
    cbv zeta.
    match goal with
    | |- context [upstream s ?n ?r] => destruct (upstream s n r) as [e | r0]
    end.
    + eexists; reflexivity.
    + destruct (ok r0); [| eexists; reflexivity].
      destruct (json r0) as [data | e]; [| eexists; reflexivity].
      unfold lift. destruct (Nft.transform _ _ _ _ _); eexists; reflexivity.
Qed.

(** A limit of 500 is refused; the default limit and offset go through. *)
Lemma C6_witness :
  Nft.GET [("address", Sample.anAddress); ("limit", "500")] Sample.down
  = (Normal (badRequest "Limit must be a number between 1 and 100"), Sample.down)
  /\ Nft.GET [("address", Sample.anAddress); ("offset", "-1")] Sample.down
     = (Normal (badRequest "Offset must be a non-negative number"), Sample.down)
  /\ exists out,
       trace (snd (Nft.GET [("address", Sample.anAddress)] Sample.down))
       = [Fetched (Terms.authorised Sample.down [] "GET" None
                     "https://api.1inch.dev/nft/v1/byaddress?address=0x1111111111111111111111111111111111111111&chainIds=1&limit=50&offset=0")
            out].
Proof.
  split; [| split].
  - apply (C6_nft_numeric_parameters
             [("address", Sample.anAddress); ("limit", "500")] Sample.down
             eq_refl eq_refl).
    vm_compute. reflexivity.
  - apply (C6_nft_numeric_parameters
             [("address", Sample.anAddress); ("offset", "-1")] Sample.down
             eq_refl eq_refl); vm_compute; reflexivity.
  - apply (C6_nft_numeric_parameters
             [("address", Sample.anAddress)] Sample.down
             eq_refl eq_refl); vm_compute; reflexivity.
Defined.

(** ** Numbers: rounding a non-negative integer

    The number nearest to a non-negative integer is never [NaN] and never
    negative. *)

Section Rounding.

Local Open Scope Z_scope.

Lemma shr_1_nonneg (mrs : shr_record) : 0 <= shr_m mrs -> 0 <= shr_m (shr_1 mrs).
Proof.
  destruct mrs as [m r t]; simpl.
  destruct m as [| p | p]; [simpl; lia | | lia].
  intros _. destruct p; simpl; lia.
Qed.

Lemma iter_shr_1_nonneg (p : positive) :
  forall mrs, 0 <= shr_m mrs -> 0 <= shr_m (iter_pos shr_1 p mrs).
Proof.
  induction p as [p IH | p IH |]; intros mrs H; simpl.
  - apply IH, IH, shr_1_nonneg, H.
  - apply IH, IH, H.
  - apply shr_1_nonneg, H.
Qed.

Lemma shr_fexp_nonneg (m e : Z) (l : location) :
  0 <= m -> 0 <= shr_m (fst (shr_fexp prec emax m e l)).
Proof.
  intros H. unfold shr_fexp, shr.
  assert (H0 : 0 <= shr_m (shr_record_of_loc m l))
    by (destruct l as [| []]; simpl; exact H).
  destruct (fexp prec emax (Zdigits2 m + e) - e); simpl; try exact H0.
  now apply iter_shr_1_nonneg.
Qed.

Lemma round_nearest_even_nonneg (m : Z) (l : location) :
  0 <= m -> 0 <= round_nearest_even m l.
Proof.
  intros H. destruct l as [| []]; simpl; try lia.
  destruct (Z.even m); lia.
Qed.

Lemma binary_round_aux_nonneg (m e : Z) (l : location) :
  0 <= m -> NonNegative (binary_round_aux prec emax false m e l).
Proof.
  intros H. unfold binary_round_aux.
  pose proof (shr_fexp_nonneg e l H) as H1.
  destruct (shr_fexp prec emax m e l) as [mrs1 e1]; simpl in H1.
  pose proof (shr_fexp_nonneg e1 loc_Exact
                (round_nearest_even_nonneg (loc_of_shr_record mrs1) H1)) as H2.
  destruct (shr_fexp prec emax _ e1 loc_Exact) as [mrs2 e2]; simpl in H2.
  destruct (shr_m mrs2) as [| p | p]; [constructor | | lia].
  destruct (e2 <=? emax - prec); constructor.
Qed.

Lemma ofZ_nonneg (z : Z) : 0 <= z -> NonNegative (ofZ z).
Proof.
  intros H. unfold ofZ, binary_normalize.
  destruct z as [| p | p]; [constructor | | lia].
  unfold binary_round.
  destruct (shl_align p 0 _) as [mz ez].
  apply binary_round_aux_nonneg. lia.
Qed.

(** [n || 0] is [n] for the length of an array. *)
Lemma length_or_zero (n : nat) :
  orValue (VNum (ofNat n)) (VNum (ofZ 0)) = VNum (ofNat n).
Proof.
  unfold orValue, ofNat.
  destruct (ofZ_nonneg (Nat2Z.is_nonneg n)); reflexivity.
Qed.

End Rounding.

(** C10. A successful NFT [GET] has made one upstream request, and its
    payload has [limit] and [offset] as parsed from the query,
    [nextOffset] their sum whatever the upstream returned, and, when the
    upstream data has an [assets] array, [totalItems] its length and
    [hasMore] true exactly when that length equals the parsed limit; with
    no [assets] at all [totalItems] is 0. *)
Theorem C10_nft_pagination :
  forall (query : list (string * string)) (s s' : State) (payload : Nft.NftData),
    Nft.GET query s = (Normal (success payload), s') ->
    exists req r data,
      trace s' = Fetched req (Responded r) :: trace s
      /\ json r = Normal data
      /\ Nft.limit payload = parseInt (orDefault (get "limit" query) "50")
      /\ Nft.offset payload = parseInt (orDefault (get "offset" query) "0")
      /\ Nft.nextOffset payload = add (Nft.offset payload) (Nft.limit payload)
      /\ (forall assets : list value,
            getProp data "assets" = Normal (VArr assets) ->
            Nft.totalItems payload = VNum (ofNat (List.length assets))
            /\ (Nft.hasMore payload = true
                <-> strictEq (ofNat (List.length assets)) (Nft.limit payload) = true))
      /\ (getProp data "assets" = Normal VUndef ->
          Nft.totalItems payload = VNum (ofZ 0) /\ Nft.hasMore payload = false).
Proof.
  intros query s s' payload.
  unfold Nft.GET, tryCatch.
  destruct (get "address" query) as [address |]; [| discriminate].
  destruct (nonEmpty address); [| discriminate].
  destruct (isHexAddress address); [| discriminate].
  cbv beta iota zeta delta [negb ret].
  destruct (Nft.badLimit _); [discriminate |].
  destruct (Nft.badOffset _); [discriminate |].
  unfold bind, Nft.makeRequest. rewrite makeRequestWith_run. cbv zeta.
  match goal with
  | |- context [upstream s ?n ?r] => destruct (upstream s n r) as [e | r0]
  end; [discriminate |].
  destruct (ok r0); [| discriminate].
  destruct (json r0) as [data | e] eqn:Hjson; [| discriminate].
  unfold lift, Nft.transform, Nft.assetsLength.
  destruct (getProp data "assets") as [assets | e] eqn:Hassets; [| discriminate].
  intros H. injection H as Hp Hs. subst s' payload. simpl.
  eexists. exists r0, data. split; [reflexivity |].
  split; [exact Hjson |].
  do 3 (split; [reflexivity |]). split.
  - intros l Hl. rewrite Hassets in Hl. injection Hl as ->.
    split; [exact (length_or_zero (List.length l)) | reflexivity].
  - intros Hu. rewrite Hassets in Hu. injection Hu as ->.
    split; reflexivity.
Qed.

(** Two assets for a limit of two: there may be more. *)
Lemma C10_witness :
  let s := Sample.steady Sample.withKey (VObj [("assets", VArr [VNull; VNull])]) in
  exists payload,
    fst (Nft.GET [("address", Sample.anAddress); ("limit", "2"); ("offset", "4")] s)
    = Normal (success payload)
    /\ Nft.totalItems payload = VNum (ofZ 2)
    /\ Nft.hasMore payload = true
    /\ Nft.nextOffset payload = ofZ 6.
Proof.
  intros s.
  destruct (Nft.GET [("address", Sample.anAddress); ("limit", "2"); ("offset", "4")] s)
    as [answer s'] eqn:Hrun.
  assert (Hs : exists payload, answer = Normal (success payload)).
  { vm_compute in Hrun. injection Hrun as <- _. eexists. reflexivity. }
  destruct Hs as [payload ->].
  destruct (C10_nft_pagination _ _ Hrun) as (req & r & data & Ht & Hj & Hl & Ho & Hn & Ha & _).
  assert (Hd : data = VObj [("assets", VArr [VNull; VNull])]).
  { vm_compute in Hrun. injection Hrun as _ <-. injection Ht as _ <-.
    simpl in Hj. now injection Hj. }
  subst data.
  destruct (Ha [VNull; VNull] eq_refl) as [Htot Hmore].
  exists payload. split; [reflexivity |]. split; [exact Htot |]. split.
  - apply Hmore. rewrite Hl. vm_compute. reflexivity.
  - rewrite Hn, Ho, Hl. vm_compute. reflexivity.
Defined.

(** ** Configuration *)

(** C5, as stated, fails for the API key: with no [ONEINCH_API_KEY] in
    the environment the gas price route still sends its upstream request,
    with the header [Bearer undefined], and answers 200. *)
Lemma C5_request_proceeds_without_api_key :
  let s := Sample.steady Sample.noKey (VObj []) in
  ONEINCH_API_KEY (env s) = None
  /\ httpStatus (match fst (GasPrice.GET [] s) with
                 | Normal answer => answer
                 | Throw _ => badRequest ""
                 end) = 200%Z
  /\ trace (snd (GasPrice.GET [] s))
     = [Fetched {| url := "https://api.1inch.dev/gas-price/v1.4/1";
                   method := "GET";
                   headers := [("Authorization", "Bearer undefined");
                               ("Content-Type", "application/json")];
                   requestBody := None |}
          (Sample.answer (VObj []))].
Proof. vm_compute. repeat split. Qed.

(** C5, amended. The wallet-connect project id is required: the provider
    module throws its configuration error when the id is absent or
    empty, and otherwise configures the wallet with it.  The API key is
    not checked: the request helper of the routes and the wallet history
    route send their upstream request in any case, with the key, or the
    text [undefined] for an absent key, after [Bearer] in the
    [Authorization] header. *)
Theorem C5_configuration :
  (forall e : Env,
      missing (NEXT_PUBLIC_WALLETCONNECT_PROJECT_ID e) = true ->
      Provider.load e = Throw (Error "Please enter the project id in .env.local"))
  /\ (forall e : Env,
        missing (NEXT_PUBLIC_WALLETCONNECT_PROJECT_ID e) = false ->
        exists c, Provider.load e = Normal c
                  /\ Some (Provider.projectId c) = NEXT_PUBLIC_WALLETCONNECT_PROJECT_ID e)
  /\ (forall extra method payload url (s : State),
        exists out,
          trace (snd (makeRequestWith extra method payload url s))
          = Fetched {| url := url;
                       method := method;
                       headers := [("Authorization",
                                    "Bearer " ++ interpolate (ONEINCH_API_KEY (env s)));
                                   ("Content-Type", "application/json")] ++ extra;
                       requestBody := payload |} out
            :: trace s)
  /\ (forall query address (s : State),
        get "address" query = Some address ->
        nonEmpty address = true ->
        exists out,
          trace (snd (WalletHistory.GET query s))
          = Fetched (Terms.historyRequest s address (orDefault (get "limit" query) "10")) out
            :: trace s)
  /\ interpolate None = "undefined".
Proof.
  split; [| split; [| split; [| split]]].
  - intros e H. unfold Provider.load.
    destruct (NEXT_PUBLIC_WALLETCONNECT_PROJECT_ID e) as [id |]; [| reflexivity].
    simpl in H. now rewrite H.
  - intros e H. unfold Provider.load.
    destruct (NEXT_PUBLIC_WALLETCONNECT_PROJECT_ID e) as [id |]; [| discriminate].
    simpl in H. rewrite H. eexists. split; reflexivity.
  - intros extra method payload url s. rewrite makeRequestWith_run.
    eexists. reflexivity.
  - intros query address s. apply history_fetches.
  - reflexivity.
Qed.

(** With a project id and no API key: the provider loads, and a request
    for the gas price of chain 1 carries [Bearer undefined]. *)
Lemma C5_witness :
  (exists c, Provider.load Sample.noKey = Normal c /\ Provider.projectId c = "project")
  /\ Provider.load {| ONEINCH_API_KEY := Some "secret";
                      NEXT_PUBLIC_WALLETCONNECT_PROJECT_ID := None |}
     = Throw (Error "Please enter the project id in .env.local")
  /\ exists out,
       trace (snd (WalletHistory.GET [("address", "0xabc")]
                     (Sample.steady Sample.noKey VNull)))
       = [Fetched {| url := "https://api.1inch.dev/history/v2.0/history/0xabc/events?chainId=1&limit=10";
                     method := "GET";
                     headers := [("Authorization", "Bearer undefined");
                                 ("Content_Type", "appication/json")];
                     requestBody := None |} out].
Proof.
  destruct C5_configuration as (Hmissing & Hpresent & _ & Hhistory & _).
  split; [| split].
  - destruct (Hpresent Sample.noKey eq_refl) as (c & Hc & Hid).
    exists c. split; [exact Hc |]. simpl in Hid. now injection Hid.
  - apply Hmissing. reflexivity.
  - exact (Hhistory [("address", "0xabc")] "0xabc"
             (Sample.steady Sample.noKey VNull) eq_refl eq_refl).
Defined.

(** ** Dispatch on the action *)

Lemma not_in_eqb (a x : string) (valid : list string) :
  ~ In a valid -> In x valid -> String.eqb a x = false.
Proof.
  intros Hn Hx. apply String.eqb_neq. intros ->. now apply Hn.
Qed.

Ltac not_valid H :=
  repeat match goal with
         | |- context [String.eqb ?a ?x] =>
             rewrite (@not_in_eqb a x _ H) by (vm_compute; auto 10)
         end.

Lemma missing_false_nonEmpty (x : option string) :
  missing x = false -> exists a, x = Some a /\ nonEmpty a = true.
Proof.
  destruct x as [a |]; [| discriminate]. simpl.
  destruct (nonEmpty a) eqn:E; [| discriminate]. intros _. now exists a.
Qed.

(** C7, as stated, fails for the portfolio route: with an action that is
    not recognised and no addresses, the 400 answer carries the message
    about the addresses, which names no action. *)
Lemma C7_portfolio_message_names_no_action :
  Terms.unrecognised Portfolio.validActions (get "action" [("action", "foo")])
  /\ Portfolio.GET [("action", "foo")] Sample.down
     = (Normal (badRequest "Wallet addresses parameter is required"), Sample.down)
  /\ Terms.namesActions Portfolio.validActions "Wallet addresses parameter is required"
     = false.
Proof.
  split; [| split; reflexivity].
  right. simpl. intuition discriminate.
Qed.

(** C7, amended. In the five routes that dispatch on an action, a
    request whose action is missing where it is required, or is not a
    recognised one, is answered with status 400 and nothing is sent
    upstream.  The message names the valid actions, except in the
    portfolio route when the action is present and the addresses are
    missing or malformed: the addresses are checked before the action,
    and the message is theirs. *)
Theorem C7_unrecognised_action :
  (forall query s,
      Terms.unrecognised Traces.validActions (get "action" query) ->
      exists error,
        Traces.GET query s = (Normal (badRequest error), s)
        /\ Terms.namesActions Traces.validActions error = true)
  /\ (forall query s,
        Terms.unrecognised Domains.validActions (get "action" query) ->
        exists error,
          Domains.GET query s = (Normal (badRequest error), s)
          /\ Terms.namesActions Domains.validActions error = true)
  /\ (forall query s,
        ~ In (orDefault (get "action" query) "all") Tokens.validActions ->
        exists error,
          Tokens.GET query s = (Normal (badRequest error), s)
          /\ Terms.namesActions Tokens.validActions error = true)
  /\ (forall query s,
        ~ In (orDefault (get "action" query) "whitelisted") SpotPrice.validActions ->
        exists error,
          SpotPrice.GET query s = (Normal (badRequest error), s)
          /\ Terms.namesActions SpotPrice.validActions error = true)
  /\ (forall query s,
        Terms.unrecognised Portfolio.validActions (get "action" query) ->
        exists error,
          Portfolio.GET query s = (Normal (badRequest error), s)
          /\ if missing (get "action" query) then
               Terms.namesActions Portfolio.validActions error = true
             else if missing (get "addresses" query) then
               error = "Wallet addresses parameter is required"
             else if validAddressList (interpolate (get "addresses" query)) then
               Terms.namesActions Portfolio.validActions error = true
             else
               error = "Invalid wallet address format").
Proof.
  split; [| split; [| split; [| split]]].
  - intros query s H. unfold Traces.GET, tryCatch, ret.
    destruct (missing (get "action" query)) eqn:Hm;
      [eexists; split; reflexivity |].
    destruct H as [H | H]; [congruence |].
    cbv zeta. not_valid H. eexists; split; reflexivity.
  - intros query s H. unfold Domains.GET, tryCatch, ret.
    destruct (missing (get "action" query)) eqn:Hm;
      [eexists; split; reflexivity |].
    destruct H as [H | H]; [congruence |].
    cbv zeta. not_valid H. eexists; split; reflexivity.
  - intros query s H. unfold Tokens.GET, tryCatch, ret.
    cbv zeta. not_valid H. eexists; split; reflexivity.
  - intros query s H. unfold SpotPrice.GET, tryCatch, ret.
    cbv zeta. not_valid H. eexists; split; reflexivity.
  - intros query s H. unfold Portfolio.GET, tryCatch, ret.
    destruct (missing (get "action" query)) eqn:Hm;
      [eexists; split; reflexivity |].
    destruct H as [H | H]; [congruence |].
    destruct (missing (get "addresses" query));
      [eexists; split; reflexivity |].
    cbv zeta.
    destruct (validAddressList _); simpl negb; cbv iota;
      [| eexists; split; reflexivity].
    not_valid H. eexists; split; reflexivity.
Qed.

(** An action the traces route does not know, and the portfolio route
    with good addresses. *)
Lemma C7_witness :
  (exists error,
      Traces.GET [("action", "rewind")] Sample.down
      = (Normal (badRequest error), Sample.down)
      /\ Terms.namesActions Traces.validActions error = true)
  /\ (exists error,
        Portfolio.GET [("action", "foo"); ("addresses", Sample.anAddress)] Sample.down
        = (Normal (badRequest error), Sample.down)
        /\ Terms.namesActions Portfolio.validActions error = true).
Proof.
  destruct C7_unrecognised_action as (Htraces & _ & _ & _ & Hportfolio).
  split.
  - apply Htraces. right. simpl. intuition discriminate.
  - destruct (Hportfolio [("action", "foo"); ("addresses", Sample.anAddress)]
                Sample.down) as (error & Heq & Hnames).
    + right. simpl. intuition discriminate.
    + exists error. split; [exact Heq | exact Hnames].
Defined.

(** ** Upstream failures *)

Section SurfacesFacts.

Import Terms.

Lemma added_app (s s' : State) (new : list Effect) :
  trace s' = (new ++ trace s)%list -> added s s' = new.
Proof.
  intros H. unfold added. rewrite H, length_app.
  replace (List.length new + List.length (trace s) - List.length (trace s))%nat
    with (List.length new) by lia.
  rewrite firstn_app, firstn_all, Nat.sub_diag. simpl. apply app_nil_r.
Qed.

Lemma Surfaces_ret (A : Type) (a : A) : Surfaces (ret a).
Proof. intros s. exists []. split; [reflexivity | intros ? ? []]. Qed.

Lemma Surfaces_throw (A : Type) (e : exn) : Surfaces (@throw A e).
Proof. intros s. exists []. split; [reflexivity | intros ? ? []]. Qed.

Lemma Surfaces_lift (A : Type) (c : completion A) : Surfaces (lift c).
Proof. intros s. exists []. split; [reflexivity | intros ? ? []]. Qed.

Lemma Surfaces_delay (ms : Z) : Surfaces (delay ms).
Proof.
  intros s. exists [Slept ms]. split; [reflexivity |].
  intros req r [H | []]. discriminate.
Qed.

Lemma Surfaces_makeRequestWith (extra : list (string * string)) (method : string)
    (payload : option value) (url : string) :
  Surfaces (makeRequestWith extra method payload url).
Proof.
  intros s. rewrite makeRequestWith_run. cbv zeta.
  eexists [_]. split; [reflexivity |].
  intros req r [H | []] Hok. injection H as _ H. rewrite H. simpl.
  now rewrite Hok.
Qed.

Lemma Surfaces_bind (A B : Type) (m : M A) (k : A -> M B) :
  Surfaces m -> (forall a, Surfaces (k a)) -> Surfaces (bind m k).
Proof.
  intros Hm Hk s. unfold bind.
  destruct (Hm s) as (new1 & Ht1 & Hbad1).
  destruct (m s) as [[a | e] s1]; simpl in *.
  - destruct (Hk a s1) as (new2 & Ht2 & Hbad2).
    exists (new2 ++ new1)%list. split.
    + now rewrite Ht2, Ht1, app_assoc.
    + intros req r Hin Hok. apply in_app_or in Hin as [Hin | Hin].
      * now apply (Hbad2 req r).
      * specialize (Hbad1 req r Hin Hok). discriminate.
  - exists new1. split; [exact Ht1 |].
    intros req r Hin Hok. specialize (Hbad1 req r Hin Hok). now injection Hbad1 as ->.
Qed.

(** The outer [try] of a handler. *)
Lemma Surfaces_handler (P : Type) (body : M (NextResponse P)) (error : string) :
  Surfaces body ->
  SurfacesAs500 (tryCatch body (fun e => ret (serverError error e))) error.
Proof.
  intros Hb s req r Hin Hok. unfold tryCatch in *.
  destruct (Hb s) as (new & Ht & Hbad).
  destruct (body s) as [[a | e] s1]; simpl in *.
  - rewrite (@added_app s s1 new Ht) in Hin. specialize (Hbad req r Hin Hok). discriminate.
  - rewrite (@added_app s s1 new Ht) in Hin. specialize (Hbad req r Hin Hok).
    injection Hbad as ->. reflexivity.
Qed.

End SurfacesFacts.

Ltac surfaces :=
  repeat first
    [ apply Surfaces_ret
    | apply Surfaces_throw
    | apply Surfaces_lift
    | apply Surfaces_delay
    | apply Surfaces_makeRequestWith
    | apply Surfaces_bind; [| intros ?]
    | match goal with
      | |- Terms.Surfaces (if ?b then _ else _) => destruct b
      | |- Terms.Surfaces (match ?x with _ => _ end) => destruct x
      end ].

Lemma added_record (e : Effect) (s : State) : Terms.added s (record e s) = [e].
Proof. now apply (@added_app s (record e s) [e]). Qed.

Lemma added_none (s : State) : Terms.added s s = [].
Proof. now apply (@added_app s s []). Qed.

(** What the wallet history route answers to an upstream response that is
    not a success. *)
Lemma history_failure (query : list (string * string)) (s : State) req r :
  In (Fetched req (Responded r)) (Terms.added s (snd (WalletHistory.GET query s))) ->
  ok r = false ->
  fst (WalletHistory.GET query s)
  = Normal (if (status r =? 401)%Z then
              {| httpStatus := 401; body := ErrorBody "Invalid API key" |}
            else if (status r =? 429)%Z then
              {| httpStatus := 429; body := ErrorBody "Rate limit exceeded" |}
            else
              {| httpStatus := 500;
                 body := FailureBody "Failed to fetch wallet transactions"
                           ("1inch API error: " ++ showStatus (status r) ++ " "
                            ++ statusText r) |}).
Proof.
  unfold WalletHistory.GET.
  destruct (get "address" query) as [address |];
    [| simpl; rewrite added_none; intros []].
  destruct (nonEmpty address);
    [| simpl; rewrite added_none; intros []].
  cbv beta iota zeta delta [tryCatch bind bearer getEnv ret fetch negb].
  match goal with
  | |- context [upstream s ?n ?q] => destruct (upstream s n q) as [e | r0] eqn:Hup
  end.
  - simpl. rewrite added_record. intros [H | []]. discriminate.
  - destruct (ok r0) eqn:Hok0; simpl.
    + unfold lift, throw.
      destruct (json r0) as [data | e]; simpl.
      * destruct (WalletHistory.transformTransactions _ data); simpl;
          rewrite added_record;
          intros [H | []] Hok; injection H as _ <-; congruence.
      * rewrite added_record.
        intros [H | []] Hok; injection H as _ <-; congruence.
    + destruct (status r0 =? 401)%Z eqn:H401;
        [| destruct (status r0 =? 429)%Z eqn:H429]; simpl;
        rewrite added_record;
        intros [H | []] Hok; injection H as _ <-; rewrite H401; try rewrite H429;
        reflexivity.
Qed.

(** C4. Every single-request handler that goes through the request
    helper (the [GET] of NFT, gas price, portfolio, spot price, tokens,
    traces and domains, and the [requested] action of the spot price
    [POST]) answers an upstream response that is not a success with
    status 500, its own error text, and as details the message that wraps
    the upstream status, status text and body.  The wallet history [GET]
    answers an upstream 401 with 401 and [Invalid API key], an upstream
    429 with 429 and [Rate limit exceeded], and any other failure with
    500 and details that wrap the upstream status and status text. *)
Theorem C4_upstream_failures :
  (forall query, Terms.SurfacesAs500 (Nft.GET query) "Failed to fetch NFT data")
  /\ (forall query, Terms.SurfacesAs500 (GasPrice.GET query) "Failed to fetch gas prices")
  /\ (forall query,
        Terms.SurfacesAs500 (Portfolio.GET query) "Failed to fetch portfolio data")
  /\ (forall query, Terms.SurfacesAs500 (SpotPrice.GET query) "Failed to fetch spot prices")
  /\ (forall query, Terms.SurfacesAs500 (Tokens.GET query) "Failed to fetch token data")
  /\ (forall query, Terms.SurfacesAs500 (Traces.GET query) "Failed to fetch trace data")
  /\ (forall query, Terms.SurfacesAs500 (Domains.GET query) "Failed to fetch domain data")
  /\ (forall chainId tokens chains,
        Terms.SurfacesAs500
          (SpotPrice.POST (Normal {| SpotPrice.bodyAction := Some "requested";
                                     SpotPrice.bodyChainId := chainId;
                                     SpotPrice.bodyTokens := tokens;
                                     SpotPrice.bodyChains := chains |}))
          "Failed to process spot price request")
  /\ (forall query (s : State) req r,
        In (Fetched req (Responded r))
           (Terms.added s (snd (WalletHistory.GET query s))) ->
        ok r = false ->
        fst (WalletHistory.GET query s)
        = Normal (if (status r =? 401)%Z then
                    {| httpStatus := 401; body := ErrorBody "Invalid API key" |}
                  else if (status r =? 429)%Z then
                    {| httpStatus := 429; body := ErrorBody "Rate limit exceeded" |}
                  else
                    {| httpStatus := 500;
                       body := FailureBody "Failed to fetch wallet transactions"
                                 ("1inch API error: " ++ showStatus (status r) ++ " "
                                  ++ statusText r) |})).
Proof.
  repeat apply conj.
  - intros query. unfold Nft.GET. apply Surfaces_handler.
    cbv zeta. unfold Nft.makeRequest. surfaces.
  - intros query. unfold GasPrice.GET. apply Surfaces_handler.
    cbv zeta. unfold GasPrice.makeRequest. surfaces.
  - intros query. unfold Portfolio.GET. apply Surfaces_handler.
    cbv zeta. unfold Portfolio.makeRequest. surfaces.
  - intros query. unfold SpotPrice.GET. apply Surfaces_handler.
    cbv zeta. unfold SpotPrice.makeRequest. surfaces.
  - intros query. unfold Tokens.GET. apply Surfaces_handler.
    cbv zeta. unfold Tokens.makeRequest. surfaces.
  - intros query. unfold Traces.GET. apply Surfaces_handler.
    cbv zeta. unfold Traces.makeRequest. surfaces.
  - intros query. unfold Domains.GET. apply Surfaces_handler.
    cbv zeta. unfold Domains.makeRequest. surfaces.
  - intros chainId tokens chains. unfold SpotPrice.POST. apply Surfaces_handler.
    match goal with
    | |- Terms.Surfaces (bind (lift (Normal ?b)) ?k) =>
        change (Terms.Surfaces (k b))
    end.
    cbn beta iota delta [SpotPrice.bodyAction SpotPrice.bodyTokens SpotPrice.bodyChainId].
    unfold SpotPrice.makeRequest. surfaces.
  - exact history_failure.
Qed.


(** Gas prices from an upstream that is down; the wallet history from an
    upstream that refuses the key. *)
Lemma C4_witness :
  fst (GasPrice.GET [] Sample.down)
  = Normal {| httpStatus := 500;
              body := FailureBody "Failed to fetch gas prices"
                        "API request failed: 503 Service Unavailable - down" |}
  /\ fst (WalletHistory.GET [("address", Sample.anAddress)] Sample.refusing)
     = Normal {| httpStatus := 401; body := ErrorBody "Invalid API key" |}.
Proof.
  destruct C4_upstream_failures as (_ & Hgas & _ & _ & _ & _ & _ & _ & Hhistory).
  split.
  - apply (Hgas [] Sample.down
             (Terms.authorised Sample.down [] "GET" None
                "https://api.1inch.dev/gas-price/v1.4/1")
             Sample.unavailable).
    + vm_compute. left. reflexivity.
    + reflexivity.
  - apply (Hhistory [("address", Sample.anAddress)] Sample.refusing
             (Terms.historyRequest Sample.refusing Sample.anAddress "10")
             Sample.unauthorized).
    + vm_compute. left. reflexivity.
    + reflexivity.
Defined.

(** ** Decimal digits *)

Section Digits.

Local Open Scope Z_scope.

Lemma digitChar_spec (d : Z) :
  0 <= d < 10 -> isDigit (digitChar d) = true /\ hexDigitValue (digitChar d) = d.
Proof.
  intros H.
  assert (E : d = 0 \/ d = 1 \/ d = 2 \/ d = 3 \/ d = 4 \/ d = 5 \/ d = 6 \/ d = 7
              \/ d = 8 \/ d = 9) by lia.
  repeat (destruct E as [-> | E]; [split; reflexivity |]).
  subst d. split; reflexivity.
Qed.

Lemma readOnto_app (a : Z) (l1 l2 : list ascii) :
  readOnto a (l1 ++ l2) = readOnto (readOnto a l1) l2.
Proof. apply fold_left_app. Qed.

Lemma decimalDigits_spec (fuel : nat) :
  forall (n : Z) (acc : list ascii),
    0 <= n < 10 ^ Z.of_nat (S fuel) ->
    exists ds,
      decimalDigits (S fuel) n acc = (ds ++ acc)%list
      /\ ds <> []
      /\ forallb isDigit ds = true
      /\ forall a, readOnto a ds = a * 10 ^ Z.of_nat (List.length ds) + n.
Proof.
  induction fuel as [| fuel IH]; intros n acc Hn.
  - change (10 ^ Z.of_nat 1) with 10 in Hn.
    destruct (digitChar_spec (d := n) Hn) as [Hd Hv].
    exists [digitChar n].
    change (decimalDigits 1 n acc)
      with (if n <? 10 then digitChar (n mod 10) :: acc
            else digitChar (n mod 10) :: acc).
    rewrite Z.mod_small by lia.
    repeat split.
    + now destruct (n <? 10).
    + discriminate.
    + cbn [forallb]. now rewrite Hd.
    + intros a. unfold readOnto. cbn [fold_left List.length]. rewrite Hv. lia.
  - assert (Hmod : 0 <= n mod 10 < 10) by (apply Z.mod_pos_bound; lia).
    destruct (digitChar_spec Hmod) as [Hd Hv].
    change (decimalDigits (S (S fuel)) n acc)
      with (let acc' := digitChar (n mod 10) :: acc in
            if n <? 10 then acc' else decimalDigits (S fuel) (n / 10) acc').
    cbv zeta. destruct (n <? 10) eqn:Hlt.
    + apply Z.ltb_lt in Hlt.
      exists [digitChar (n mod 10)]. repeat split; try discriminate.
      * cbn [forallb]. now rewrite Hd.
      * intros a. unfold readOnto. cbn [fold_left List.length].
        rewrite Hv, Z.mod_small by lia. lia.
    + apply Z.ltb_ge in Hlt.
      assert (Hdiv : 0 <= n / 10 < 10 ^ Z.of_nat (S fuel)).
      { split; [apply Z.div_pos; lia |].
        apply Z.div_lt_upper_bound; [lia |].
        replace (Z.of_nat (S (S fuel))) with (Z.succ (Z.of_nat (S fuel))) in Hn by lia.
        rewrite Z.pow_succ_r in Hn by lia. lia. }
      destruct (IH (n / 10) (digitChar (n mod 10) :: acc) Hdiv)
        as (ds & Heq & Hne & Hall & Hval).
      exists (ds ++ [digitChar (n mod 10)])%list. repeat split.
      * now rewrite Heq, <- app_assoc.
      * destruct ds; discriminate.
      * rewrite forallb_app, Hall. cbn [forallb andb]. now rewrite Hd.
      * intros a. rewrite readOnto_app, Hval. unfold readOnto at 1.
        cbn [fold_left]. rewrite Hv, length_app. cbn [List.length].
        replace (Z.of_nat (List.length ds + 1)) with (Z.succ (Z.of_nat (List.length ds)))
          by lia.
        rewrite Z.pow_succ_r by lia.
        pose proof (Z.div_mod n 10 ltac:(lia)). lia.
Qed.

Lemma decimal_spec (n : Z) :
  0 <= n ->
  decimal n <> []
  /\ forallb isDigit (decimal n) = true
  /\ digitsValue 10 (decimal n) = n.
Proof.
  intros Hn. unfold decimal.
  assert (Hb : 0 <= n < 10 ^ Z.of_nat (S (Z.to_nat (Z.log2 n)))).
  { split; [exact Hn |].
    rewrite Nat2Z.inj_succ, Z2Nat.id by apply Z.log2_nonneg.
    destruct (Z.eq_dec n 0) as [-> | Hz]; [reflexivity |].
    pose proof (Z.log2_spec n ltac:(lia)) as [_ H2].
    apply Z.lt_le_trans with (1 := H2).
    apply Z.pow_le_mono_l. split; [lia | lia]. }
  destruct (decimalDigits_spec (Z.to_nat (Z.log2 n)) [] Hb) as (ds & Heq & Hne & Hall & Hval).
  rewrite Heq, app_nil_r. repeat split; try assumption.
  change (readOnto 0 ds = n). rewrite Hval. lia.
Qed.

Lemma readOnto_zeros (k : nat) (a : Z) :
  readOnto a (repeat "0"%char k) = a * 10 ^ Z.of_nat k.
Proof.
  revert a. induction k as [| k IH]; intros a.
  - simpl. lia.
  - change (readOnto a (repeat "0"%char (S k)))
      with (readOnto (a * 10 + 0) (repeat "0"%char k)).
    rewrite IH, Nat2Z.inj_succ, Z.pow_succ_r by lia. lia.
Qed.

Lemma padLeft_spec (w : nat) (l : list ascii) :
  forallb isDigit l = true ->
  forallb isDigit (padLeft w l) = true
  /\ (w <= List.length (padLeft w l))%nat
  /\ digitsValue 10 (padLeft w l) = digitsValue 10 l.
Proof.
  intros Hl. unfold padLeft. repeat split.
  - rewrite forallb_app, Hl, andb_true_r.
    induction (w - List.length l)%nat; [reflexivity | assumption].
  - rewrite length_app, repeat_length. lia.
  - change (readOnto 0 (repeat "0"%char (w - List.length l) ++ l) = readOnto 0 l).
    now rewrite readOnto_app, readOnto_zeros.
Qed.

End Digits.

(** ** Fixed notation *)

Section Fixed.

Local Open Scope Z_scope.

Lemma filter_all (A : Type) (p : A -> bool) (l : list A) :
  forallb p l = true -> filter p l = l.
Proof.
  induction l as [| x l IH]; simpl; [reflexivity |].
  intros H. apply andb_prop in H as [Hx Hl]. rewrite Hx. f_equal. now apply IH.
Qed.

Lemma forallb_firstn (A : Type) (p : A -> bool) (k : nat) (l : list A) :
  forallb p l = true -> forallb p (firstn k l) = true.
Proof.
  revert k. induction l as [| x l IH]; intros [| k] H; simpl; try reflexivity.
  simpl in H. apply andb_prop in H as [Hx Hl]. rewrite Hx. now apply IH.
Qed.

Lemma forallb_skipn (A : Type) (p : A -> bool) (k : nat) (l : list A) :
  forallb p l = true -> forallb p (skipn k l) = true.
Proof.
  revert k. induction l as [| x l IH]; intros [| k] H; simpl; try reflexivity.
  - exact H.
  - simpl in H. apply andb_prop in H as [Hx Hl]. now apply IH.
Qed.

Lemma takeWhile_stop (p : ascii -> bool) (l r : list ascii) (c : ascii) :
  forallb p l = true -> p c = false ->
  takeWhile p (l ++ c :: r) = l /\ dropWhile p (l ++ c :: r) = c :: r.
Proof.
  intros Hl Hc. induction l as [| x l IH]; simpl.
  - now rewrite Hc.
  - simpl in Hl. apply andb_prop in Hl as [Hx Hl]. rewrite Hx.
    destruct (IH Hl) as [-> ->]. now split.
Qed.

(** The digits that [toFixed(6)] writes for [n] millionths. *)
Lemma fixedDigits_spec (n : Z) :
  0 <= n ->
  exists whole fraction,
    fixedDigits 6 n = (whole ++ "."%char :: fraction)%list
    /\ whole <> []
    /\ forallb isDigit whole = true
    /\ List.length fraction = 6%nat
    /\ forallb isDigit fraction = true
    /\ digitsValue 10 (whole ++ fraction) = n.
Proof.
  intros Hn.
  destruct (@decimal_spec n Hn) as (_ & Hall & Hval).
  destruct (@padLeft_spec 7 (decimal n) Hall) as (Hpad & Hlen & Hpv).
  unfold fixedDigits. set (m := padLeft 7 (decimal n)) in *.
  exists (firstn (List.length m - 6) m), (skipn (List.length m - 6) m).
  repeat split.
  - intros H. apply (f_equal (@List.length ascii)) in H.
    rewrite length_firstn in H. simpl in H. lia.
  - now apply forallb_firstn.
  - rewrite length_skipn. lia.
  - now apply forallb_skipn.
  - rewrite firstn_skipn. congruence.
Qed.

Lemma fixed_shape (negative : bool) (n : Z) :
  0 <= n ->
  let s := str ((if negative then ["-"%char] else []) ++ fixedDigits 6 n) in
  Terms.sixFractionalDigits s = true /\ Terms.millionths s = n.
Proof.
  intros Hn s.
  destruct (@fixedDigits_spec n Hn) as (whole & fraction & Heq & Hne & Hw & Hlen & Hf & Hv).
  assert (Hpoint : isDigit "."%char = false) by reflexivity.
  destruct (@takeWhile_stop isDigit whole fraction "."%char Hw Hpoint) as [Htake Hdrop].
  assert (Hu : Terms.unsigned (chars s) = (whole ++ "."%char :: fraction)%list).
  { unfold s, chars, str. rewrite list_ascii_of_string_of_list_ascii, Heq.
    destruct negative; [reflexivity |].
    destruct whole as [| c whole']; [congruence |].
    simpl in Hw. apply andb_prop in Hw as [Hc _].
    destruct (Ascii.eqb_spec c "-"%char) as [-> | Hc']; [discriminate |].
    simpl.
    destruct c as [[] [] [] [] [] [] [] []]; try reflexivity. congruence. }
  split.
  - unfold Terms.sixFractionalDigits. rewrite Hu, Hdrop, Htake, Hlen, Hf.
    destruct whole; [congruence | reflexivity].
  - unfold Terms.millionths, s, chars, str.
    rewrite list_ascii_of_string_of_list_ascii, Heq.
    rewrite filter_app.
    replace (filter isDigit (if negative then ["-"%char] else [])) with (@nil ascii)
      by (now destruct negative).
    rewrite filter_app. cbn [filter app]. rewrite Hpoint.
    now rewrite !filter_all.
Qed.

End Fixed.

(** ** [parseInt] on decimal digits, and the nearest millionth *)

Section Parsing.

Local Open Scope Z_scope.

Lemma digit_not_space (c : ascii) : isDigit c = true -> isWhiteSpace c = false.
Proof.
  unfold isDigit, isWhiteSpace, between. intros H.
  apply andb_prop in H as [H1 H2].
  apply Z.leb_le in H1. apply Z.leb_le in H2.
  destruct (9 <=? code c) eqn:E1, (code c <=? 13) eqn:E2,
           (code c =? 32) eqn:E3, (code c =? 160) eqn:E4;
    try reflexivity;
    try apply Z.leb_le in E2; try apply Z.eqb_eq in E3; try apply Z.eqb_eq in E4; lia.
Qed.

Lemma readSign_digit (c : ascii) (rest : list ascii) :
  isDigit c = true -> readSign (c :: rest) = (false, c :: rest).
Proof.
  intros H.
  destruct c as [[] [] [] [] [] [] [] []]; try reflexivity;
    vm_compute in H; discriminate.
Qed.

Lemma readPrefix_digits (l : list ascii) :
  forallb isDigit l = true -> readPrefix l = (10, l).
Proof.
  destruct l as [| c rest]; [reflexivity |]. intros H.
  destruct c as [[] [] [] [] [] [] [] []]; try reflexivity.
  destruct rest as [| c2 r]; [reflexivity |].
  simpl in H. apply andb_prop in H as [H _].
  destruct c2 as [[] [] [] [] [] [] [] []]; try reflexivity;
    vm_compute in H; discriminate.
Qed.

Lemma takeWhile_all (p : ascii -> bool) (l : list ascii) :
  forallb p l = true -> takeWhile p l = l.
Proof.
  induction l as [| c l IH]; simpl; [reflexivity |].
  intros H. apply andb_prop in H as [Hc Hl]. rewrite Hc. f_equal. now apply IH.
Qed.

(** On a string of decimal digits [parseInt] is the number nearest to
    the integer the digits spell in base 10. *)
Lemma parseInt_decimal (s : string) :
  Terms.isDecimal s = true -> parseInt s = ofZ (digitsValue 10 (chars s)).
Proof.
  unfold Terms.isDecimal, parseInt. intros H.
  apply andb_prop in H as [Hne Hall].
  destruct (chars s) as [| c rest] eqn:Hs.
  { destruct s; [discriminate Hne | discriminate Hs]. }
  pose proof Hall as Hall'. simpl in Hall'. apply andb_prop in Hall' as [Hc _].
  cbn [dropWhile]. rewrite (@digit_not_space c Hc), (@readSign_digit c rest Hc).
  rewrite (@readPrefix_digits (c :: rest) Hall).
  change (isRadixDigit 10) with isDigit.
  rewrite (@takeWhile_all isDigit (c :: rest) Hall).
  destruct (digitsValue 10 (c :: rest) =? 0) eqn:Hz; [| reflexivity].
  apply Z.eqb_eq in Hz. now rewrite Hz.
Qed.

End Parsing.

Section Nearest.

Local Open Scope Q_scope.

Lemma pow2_pos (e : Z) : 0 < pow2 e.
Proof.
  destruct e as [| p | p]; simpl; try reflexivity.
  unfold Qlt. simpl. rewrite Z.mul_1_r.
  change (Z.pow_pos 2 p) with (2 ^ Zpos p)%Z.
  apply Z.pow_pos_nonneg; lia.
Qed.

Lemma magnitude_nonneg (x : number) : 0 <= magnitude x.
Proof.
  destruct x as [b | b | | b m e]; simpl; try apply Qle_refl.
  apply Qmult_le_0_compat; [unfold Qle; simpl; lia | apply Qlt_le_weak, pow2_pos].
Qed.

(** [Qfloor (y + 1/2)] is an integer nearest to [y]. *)
Lemma nearest_integer (y : Q) :
  0 <= y ->
  let n := Qfloor (y + (1 # 2)) in
  (0 <= n)%Z /\ inject_Z n <= y + (1 # 2) /\ y - (1 # 2) < inject_Z n.
Proof.
  intros Hy n. repeat split.
  - change 0%Z with (Qfloor 0). apply Qfloor_resp_le.
    apply Qle_trans with (1 := Hy).
    rewrite <- (Qplus_0_r y) at 1. apply Qplus_le_r. discriminate.
  - apply Qfloor_le.
  - pose proof (Qlt_floor (y + (1 # 2))) as H. fold n in H.
    rewrite inject_Z_plus in H.
    apply Qplus_lt_l with (z := 1 # 2).
    setoid_replace (y - (1 # 2) + (1 # 2)) with y by ring.
    apply Qplus_lt_l with (z := 1 # 2).
    setoid_replace (inject_Z n + (1 # 2) + (1 # 2)) with (inject_Z n + inject_Z 1) by ring.
    exact H.
Qed.

End Nearest.

(** ** Spot prices *)

Section Reshape.

Lemma replace_fresh (A : Type) (k : string) (v : A) (fields : list (string * A)) :
  ~ In k (map fst fields) -> SpotPrice.replace k v fields = (fields ++ [(k, v)])%list.
Proof.
  induction fields as [| [k' x] r IH]; simpl; [reflexivity |].
  intros H. destruct (String.eqb_spec k k') as [-> | Hk]; [tauto |].
  f_equal. apply IH. tauto.
Qed.

Lemma reshape_from (es : list (string * value)) :
  forall done : list (string * value),
    NoDup (map fst (done ++ es)) ->
    fold_left
      (fun acc e =>
         let '(tokenAddress, priceWei) := e in
         (SpotPrice.assign (fst acc) tokenAddress priceWei,
          SpotPrice.assign (snd acc) tokenAddress
            (SpotPrice.formatPriceFromWei (toStr priceWei))))
      es (done, map formatted done)
    = ((done ++ filter Terms.kept es)%list,
       map formatted (done ++ filter Terms.kept es)).
Proof.
  set (step := fun (acc : list (string * value) * list (string * string))
                   (e : string * value) =>
                 let '(tokenAddress, priceWei) := e in
                 (SpotPrice.assign (fst acc) tokenAddress priceWei,
                  SpotPrice.assign (snd acc) tokenAddress
                    (SpotPrice.formatPriceFromWei (toStr priceWei)))).
  induction es as [| [k v] es IH]; intros done Hnd.
  - simpl. now rewrite app_nil_r.
  - change (fold_left step ((k, v) :: es) (done, map formatted done))
      with (fold_left step es (step (done, map formatted done) (k, v))).
    assert (Hstep : step (done, map formatted done) (k, v)
                    = if Terms.kept (k, v)
                      then ((done ++ [(k, v)])%list, map formatted (done ++ [(k, v)]))
                      else (done, map formatted done)).
    { unfold step, SpotPrice.assign, Terms.kept. cbn [fst snd].
      destruct (String.eqb k "__proto__"); [reflexivity |]. cbn [negb].
      assert (Hfresh : ~ In k (map fst done)).
      { rewrite map_app in Hnd. simpl in Hnd. apply NoDup_remove_2 in Hnd.
        intros Hin. apply Hnd, in_or_app. now left. }
      rewrite (@replace_fresh value k v done Hfresh).
      rewrite (@replace_fresh string k _ (map formatted done)).
      - now rewrite map_app.
      - rewrite map_map. exact Hfresh. }
    rewrite Hstep. cbn [filter].
    destruct (Terms.kept (k, v)).
    + rewrite IH by (now rewrite <- app_assoc).
      now rewrite <- !app_assoc.
    + apply IH. rewrite map_app in *. simpl in Hnd.
      now apply NoDup_remove_1 in Hnd.
Qed.

Lemma reshape_spec (es : list (string * value)) :
  NoDup (map fst es) ->
  SpotPrice.reshape es
  = (filter Terms.kept es, map formatted (filter Terms.kept es)).
Proof. intros H. exact (@reshape_from es [] H). Qed.

Lemma lookup_kept (A : Type) (k : string) (l : list (string * value)) :
  k <> "__proto__" -> lookup k (filter Terms.kept l) = lookup k l.
Proof.
  intros Hk. induction l as [| [k' v] l IH]; simpl; [reflexivity |].
  unfold Terms.kept at 1. simpl.
  destruct (String.eqb_spec k' "__proto__") as [-> | Hp]; simpl.
  - destruct (String.eqb_spec k "__proto__"); [tauto | exact IH].
  - now rewrite IH.
Qed.

Lemma lookup_formatted (k : string) (l : list (string * value)) :
  lookup k (map formatted l)
  = option_map (fun v => SpotPrice.formatPriceFromWei (toStr v)) (lookup k l).
Proof.
  induction l as [| [k' v] l IH]; simpl; [reflexivity |].
  now destruct (String.eqb k k').
Qed.

End Reshape.

(** A handler answers with a success only when its [try] block does. *)
Lemma handler_success (P : Type) (body : M (NextResponse P)) (error : string)
    (s s' : State) (p : P) :
  tryCatch body (fun e => ret (serverError error e)) s = (Normal (success p), s') ->
  body s = (Normal (success p), s').
Proof.
  unfold tryCatch. destruct (body s) as [[a | e] s1]; [auto |].
  unfold ret, serverError, success. discriminate.
Qed.

(** A request followed by more work ends normally only when the upstream
    answered with a success and with JSON. *)
Lemma makeRequest_then (A : Type) (extra : list (string * string)) (method : string)
    (payload : option value) (url : string) (k : value -> M A)
    (s s' : State) (a : A) :
  bind (makeRequestWith extra method payload url) k s = (Normal a, s') ->
  exists r data,
    ok r = true
    /\ json r = Normal data
    /\ k data (record (Fetched (authorised s extra method payload url) (Responded r)) s)
       = (Normal a, s').
Proof.
  unfold bind. rewrite makeRequestWith_run. cbv zeta.
  match goal with
  | |- context [upstream s ?n ?q] => destruct (upstream s n q) as [e | r]
  end; [discriminate |].
  destruct (ok r) eqn:Hok; [| discriminate].
  destruct (json r) as [data | e] eqn:Hjson; [| discriminate].
  intros H. now exists r, data.
Qed.

Lemma entries_then (A : Type) (k : list (string * value) -> M A) (data : value)
    (s s' : State) (a : A) :
  bind (lift (SpotPrice.entries data)) k s = (Normal a, s') ->
  isNullish data = false /\ k (spread data) s = (Normal a, s').
Proof.
  unfold bind, lift, SpotPrice.entries.
  destruct (isNullish data); [discriminate | now split].
Qed.

Lemma reshape_reflects (prices : value) :
  Reflects prices (fst (SpotPrice.reshape (spread prices)))
    (snd (SpotPrice.reshape (spread prices))).
Proof.
  intros fields -> Hnd address priceWei Hl Ha.
  simpl spread. rewrite (@reshape_spec fields Hnd). simpl.
  rewrite lookup_formatted, (@lookup_kept value address fields Ha), Hl.
  split; reflexivity.
Qed.

Lemma raw_reflects (prices : value) :
  Reflects prices (spread prices) (snd (SpotPrice.reshape (spread prices))).
Proof.
  intros fields -> Hnd address priceWei Hl Ha.
  destruct (@reshape_reflects (VObj fields) fields eq_refl Hnd address priceWei Hl Ha)
    as [Hf _].
  split; [exact Hf | exact Hl].
Qed.

Ltac spot_path H :=
  apply makeRequest_then in H as (r & prices & _ & Hjson & H);
  apply entries_then in H as [_ H];
  unfold ret in H; inversion H; subst; clear H;
  eexists; exists r, prices;
  split; [reflexivity |]; split; [exact Hjson |].

(** A successful spot price [GET] has made one upstream request, and its
    payload reflects the price map received. *)
Lemma spot_get_reflects (query : list (string * string)) (s s' : State)
    (payload : SpotPrice.SpotPrices) :
  SpotPrice.GET query s = (Normal (success payload), s') ->
  exists req r prices,
    trace s' = Fetched req (Responded r) :: trace s
    /\ json r = Normal prices
    /\ Reflects prices (SpotPrice.data payload) (SpotPrice.formattedPrices payload).
Proof.
  intros H. unfold SpotPrice.GET in H. apply handler_success in H.
  cbv zeta in H. unfold SpotPrice.makeRequest in H.
  destruct (String.eqb _ "whitelisted").
  - spot_path H. apply reshape_reflects.
  - destruct (String.eqb _ "addresses"); [| discriminate].
    destruct (missing (get "addresses" query)); [discriminate |].
    destruct (forallb _ _); simpl negb in H; cbv iota in H; [| discriminate].
    spot_path H. apply reshape_reflects.
Qed.

(** The same for the [requested] action of the [POST]. *)
Lemma spot_requested_reflects (body : SpotPrice.PostBody) (s s' : State)
    (answer : SpotPrice.Requested) :
  SpotPrice.POST (Normal body) s = (Normal (success (SpotPrice.RequestedResult answer)), s') ->
  exists req r prices,
    trace s' = Fetched req (Responded r) :: trace s
    /\ json r = Normal prices
    /\ Reflects prices (SpotPrice.requestedData answer)
         (SpotPrice.requestedFormattedPrices answer).
Proof.
  intros H. unfold SpotPrice.POST in H. apply handler_success in H.
  change (bind (lift (Normal body)) ?k s) with (k body s) in H.
  cbv beta zeta in H. unfold SpotPrice.makeRequest in H.
  destruct (isLiteral (SpotPrice.bodyAction body) "requested").
  - destruct (SpotPrice.bodyTokens body) as [tokens |]; [| discriminate].
    destruct (forallb isHexAddress tokens); simpl negb in H; cbv iota in H;
      [| discriminate].
    cbn [truthy SpotPrice.tokensBody String.eqb Ascii.eqb Bool.eqb andb] in H.
    spot_path H. apply reshape_reflects.
  - destruct (isLiteral (SpotPrice.bodyAction body) "batch"); [| discriminate].
    destruct (SpotPrice.bodyChains body) as [chains |]; [| discriminate].
    unfold bind in H. rewrite forOf_outcomes in H. discriminate.
Qed.

(** The same for a successful entry of the batch action, whose [data] is
    the price map as received. *)
Lemma spot_entry_reflects (item : SpotPrice.ChainRequest) (s s' : State)
    (entry : SpotPrice.ChainPrices) :
  SpotPrice.process item s = (Normal entry, s') ->
  exists req r prices,
    trace s' = Fetched req (Responded r) :: trace s
    /\ json r = Normal prices
    /\ SpotPrice.okData entry = prices
    /\ Reflects prices (spread prices) (SpotPrice.okFormattedPrices entry).
Proof.
  intros H. unfold SpotPrice.process in H. cbv zeta in H.
  unfold SpotPrice.makeRequest in H.
  assert (Hk : forall method payload url,
    bind (makeRequestWith [] method payload url)
      (fun data =>
         bind (lift (SpotPrice.entries data))
           (fun es =>
              ret {| SpotPrice.okChainId :=
                       resolveChainId SpotPrice.SUPPORTED_CHAINS
                         (SpotPrice.reqChainId item) (SpotPrice.reqChain item);
                     SpotPrice.okChain := orDefault (SpotPrice.reqChain item) "ethereum";
                     SpotPrice.okData := data;
                     SpotPrice.okFormattedPrices := snd (SpotPrice.reshape es) |})) s
    = (Normal entry, s') ->
    exists req r prices,
      trace s' = Fetched req (Responded r) :: trace s
      /\ json r = Normal prices
      /\ SpotPrice.okData entry = prices
      /\ Reflects prices (spread prices) (SpotPrice.okFormattedPrices entry)).
  { intros method payload url H'. spot_path H'.
    split; [reflexivity | apply raw_reflects]. }
  destruct (SpotPrice.reqTokens item) as [tokens |].
  - eapply Hk. exact H.
  - destruct (negb (missing (SpotPrice.reqAddresses item))); eapply Hk; exact H.
Qed.

(** C8, as stated, fails for large prices: for a token at [10^40] wei the
    formatted price is [1e+22], which has no fractional digits at all. *)
Lemma C8_large_price_is_exponential :
  let s := Sample.steady Sample.withKey Sample.prices in
  exists payload,
    fst (SpotPrice.GET [] s) = Normal (success payload)
    /\ lookup Sample.tokenB (spread Sample.prices)
       = Some (VStr "10000000000000000000000000000000000000000")
    /\ lookup Sample.tokenB (SpotPrice.formattedPrices payload) = Some "1e+22"
    /\ Terms.sixFractionalDigits "1e+22" = false.
Proof.
  eexists. split; [vm_compute; reflexivity |].
  split; [reflexivity |]. split; [reflexivity |]. reflexivity.
Qed.

(** The conversion goes through binary floating point: 0.0000005 and
    0.0000025 are both half-way between two millionths, and the first is
    formatted downward, the second upward. *)
Example halfway_prices :
  SpotPrice.formatPriceFromWei "500000000000" = "0.000000"
  /\ SpotPrice.formatPriceFromWei "2500000000000" = "0.000003".
Proof. split; vm_compute; reflexivity. Qed.

(** C8, amended. Every spot price answer (the [GET], the [requested]
    action of the [POST], and each successful entry of the batch action)
    comes from one upstream request, and for each address of the price
    map received [formattedPrices] has the string that
    [(parseInt(price) / 1e18).toFixed(6)] gives in double precision,
    while [data] keeps the upstream value for the same address.  For a
    price that is a string of decimal digits, [parseInt] is the number
    nearest to the integer spelt in base 10 and [1e18] is exactly
    [10^18]; when the quotient is finite and below [10^21] the formatted
    string is in fixed notation with exactly six fractional digits and
    spells the number of millionths nearest to the quotient (the larger
    of two); from [10^21] on it is what [Number::toString] gives for the
    quotient. *)
Theorem C8_spot_price_formatting :
  (forall query (s s' : State) (payload : SpotPrice.SpotPrices),
      SpotPrice.GET query s = (Normal (success payload), s') ->
      exists req r prices,
        trace s' = Fetched req (Responded r) :: trace s
        /\ json r = Normal prices
        /\ Terms.Reflects prices (SpotPrice.data payload)
             (SpotPrice.formattedPrices payload))
  /\ (forall body (s s' : State) (answer : SpotPrice.Requested),
        SpotPrice.POST (Normal body) s
        = (Normal (success (SpotPrice.RequestedResult answer)), s') ->
        exists req r prices,
          trace s' = Fetched req (Responded r) :: trace s
          /\ json r = Normal prices
          /\ Terms.Reflects prices (SpotPrice.requestedData answer)
               (SpotPrice.requestedFormattedPrices answer))
  /\ (forall item (s s' : State) (entry : SpotPrice.ChainPrices),
        SpotPrice.process item s = (Normal entry, s') ->
        exists req r prices,
          trace s' = Fetched req (Responded r) :: trace s
          /\ json r = Normal prices
          /\ SpotPrice.okData entry = prices
          /\ Terms.Reflects prices (spread prices) (SpotPrice.okFormattedPrices entry))
  /\ (forall priceWei : string,
        Terms.isDecimal priceWei = true ->
        let quotient := div (ofZ (digitsValue 10 (chars priceWei))) n1e18 in
        let formatted := SpotPrice.formatPriceFromWei priceWei in
        formatted = toFixed quotient 6
        /\ (isFinite quotient = true ->
            Qle_bool (pow10 21) (magnitude quotient) = false ->
            let n := Qfloor (magnitude quotient * pow10 6 + (1 # 2)) in
            Terms.sixFractionalDigits formatted = true
            /\ Terms.millionths formatted = n
            /\ (inject_Z n <= magnitude quotient * pow10 6 + (1 # 2))%Q
            /\ (magnitude quotient * pow10 6 - (1 # 2) < inject_Z n)%Q)
        /\ (Qle_bool (pow10 21) (magnitude quotient) = true ->
            formatted = numberToString quotient))
  /\ (magnitude n1e18 == inject_Z (10 ^ 18))%Q.
Proof.
  split; [exact spot_get_reflects |].
  split; [exact spot_requested_reflects |].
  split; [exact spot_entry_reflects |].
  split.
  - intros priceWei Hdec quotient formatted.
    assert (Hfmt : formatted = toFixed quotient 6).
    { unfold formatted, SpotPrice.formatPriceFromWei, quotient.
      now rewrite (@parseInt_decimal priceWei Hdec). }
    split; [exact Hfmt |]. split.
    + intros Hfin Hsmall n. rewrite Hfmt. unfold toFixed.
      rewrite Hfin, Hsmall. cbn [negb].
      change (Z.of_nat 6) with 6%Z. fold n.
      destruct (@nearest_integer (magnitude quotient * pow10 6)) as (Hn & Hle & Hlt).
      { apply Qmult_le_0_compat; [apply magnitude_nonneg | discriminate]. }
      fold n in Hn, Hle, Hlt.
      destruct (@fixed_shape (isNegative quotient) n Hn) as [Hshape Hvalue].
      repeat split; assumption.
    + intros Hbig. rewrite Hfmt. unfold toFixed. rewrite Hbig.
      now destruct (negb (isFinite quotient)).
  - vm_compute. reflexivity.
Qed.

(** The token at 1500000000000000 wei is formatted as [0.001500]. *)
Lemma C8_witness :
  let s := Sample.steady Sample.withKey Sample.prices in
  (exists payload,
      fst (SpotPrice.GET [] s) = Normal (success payload)
      /\ lookup Sample.tokenA (SpotPrice.formattedPrices payload) = Some "0.001500"
      /\ lookup Sample.tokenA (SpotPrice.data payload) = Some (VStr "1500000000000000"))
  /\ Terms.sixFractionalDigits (SpotPrice.formatPriceFromWei "1500000000000000") = true
  /\ Terms.millionths (SpotPrice.formatPriceFromWei "1500000000000000") = 1500%Z.
Proof.
  intros s.
  destruct C8_spot_price_formatting as (Hresponse & _ & _ & Hformat & _).
  split.
  - destruct (SpotPrice.GET [] s) as [answer s'] eqn:Hrun.
    assert (Hs : exists payload, answer = Normal (success payload)).
    { vm_compute in Hrun. injection Hrun as <- _. eexists. reflexivity. }
    destruct Hs as [payload ->].
    destruct (Hresponse [] s s' payload Hrun) as (req & r & prices & Ht & Hj & Hkeys).
    assert (Hp : prices = Sample.prices).
    { vm_compute in Hrun. injection Hrun as _ <-. injection Ht as _ <-.
      simpl in Hj. now injection Hj. }
    exists payload. split; [reflexivity |].
    destruct (Hkeys _ Hp) with (address := Sample.tokenA)
                               (priceWei := VStr "1500000000000000") as [Hf Hd].
    + apply NoDup_cons; [simpl; intuition discriminate |].
      apply NoDup_cons; [simpl; tauto | apply NoDup_nil].
    + reflexivity.
    + discriminate.
    + split; [| exact Hd]. rewrite Hf. vm_compute. reflexivity.
  - destruct (Hformat "1500000000000000" eq_refl) as (_ & Hfixed & _).
    destruct Hfixed as (Hshape & Hvalue & _); [reflexivity | reflexivity |].
    split; [exact Hshape |]. rewrite Hvalue. vm_compute. reflexivity.
Defined.

(* ================================================================== *)
(** * Further properties of the handlers *)
(* ================================================================== *)



Import Laws.

(** ** Effects are only added *)

Section GrowsFacts.

Lemma after_nil (s : State) : after s [] = s.
Proof. now destruct s. Qed.

Lemma after_after (s : State) (a b : list Effect) :
  after (after s a) b = after s (b ++ a).
Proof. unfold after. simpl. now rewrite app_assoc. Qed.

Lemma record_after (e : Effect) (s : State) : record e s = after s [e].
Proof. reflexivity. Qed.

Lemma added_after (s : State) (new : list Effect) : Terms.added s (after s new) = new.
Proof. now apply (@added_app s (after s new) new). Qed.

Lemma Grows_ret (A : Type) (a : A) : Grows (ret a).
Proof. intros s. exists []. now rewrite after_nil. Qed.

Lemma Grows_throw (A : Type) (e : exn) : Grows (@throw A e).
Proof. intros s. exists []. now rewrite after_nil. Qed.

Lemma Grows_lift (A : Type) (c : completion A) : Grows (lift c).
Proof. intros s. exists []. now rewrite after_nil. Qed.

Lemma Grows_delay (ms : Z) : Grows (delay ms).
Proof. intros s. now exists [Slept ms]. Qed.

Lemma Grows_makeRequestWith (extra : list (string * string)) (method : string)
    (payload : option value) (url : string) :
  Grows (makeRequestWith extra method payload url).
Proof. intros s. rewrite makeRequestWith_run. cbv zeta. now eexists [_]. Qed.

Lemma Grows_bind (A B : Type) (m : M A) (k : A -> M B) :
  Grows m -> (forall a, Grows (k a)) -> Grows (bind m k).
Proof.
  intros Hm Hk s. unfold bind. destruct (Hm s) as (new1 & H1).
  destruct (m s) as [[a | e] s1]; simpl in *; subst s1.
  - destruct (Hk a (after s new1)) as (new2 & H2).
    exists (new2 ++ new1)%list. now rewrite H2, after_after.
  - now exists new1.
Qed.

Lemma Grows_tryCatch (A : Type) (m : M A) (h : exn -> M A) :
  Grows m -> (forall e, Grows (h e)) -> Grows (tryCatch m h).
Proof.
  intros Hm Hh s. unfold tryCatch. destruct (Hm s) as (new1 & H1).
  destruct (m s) as [[a | e] s1]; simpl in *; subst s1.
  - now exists new1.
  - destruct (Hh e (after s new1)) as (new2 & H2).
    exists (new2 ++ new1)%list. now rewrite H2, after_after.
Qed.

End GrowsFacts.

Ltac grows :=
  repeat first
    [ apply Grows_ret
    | apply Grows_throw
    | apply Grows_lift
    | apply Grows_delay
    | apply Grows_makeRequestWith
    | apply Grows_bind; [| intros ?]
    | match goal with
      | |- Laws.Grows (if ?b then _ else _) => destruct b
      | |- Laws.Grows (match ?x with _ => _ end) => destruct x
      end ].

(** ** What a handler answers *)

Section AnswerFacts.

Variable P : Type.

Lemma Serves_success (p : P) : Serves (ret (success p)).
Proof. intros s. exists []. now rewrite after_nil. Qed.

Lemma Serves_bind (A : Type) (m : M A) (k : A -> M (NextResponse P)) :
  Grows m -> (forall a, Serves (k a)) -> Serves (bind m k).
Proof.
  intros Hm Hk s. unfold bind. destruct (Hm s) as (new1 & H1).
  destruct (m s) as [[a | e] s1]; simpl in *; subst s1.
  - destruct (Hk a (after s new1)) as (new2 & H2 & Hr).
    exists (new2 ++ new1)%list. now rewrite H2, after_after.
  - now exists new1.
Qed.

Lemma Checks_refuse (error : string) : Checks true (ret (@badRequest P error)).
Proof. intros s. left. now repeat split. Qed.

Lemma Checks_request (refuses : bool) (extra : list (string * string)) (method : string)
    (payload : option value) (url : string) (k : value -> M (NextResponse P)) :
  (forall data, Serves (k data)) ->
  Checks refuses (bind (makeRequestWith extra method payload url) k).
Proof.
  intros Hk s. unfold bind. rewrite makeRequestWith_run. cbv zeta.
  set (req := Terms.authorised s extra method payload url).
  destruct (upstream s (List.length (fetches s)) req) as [e | rsp]; [exact I |].
  destruct (ok rsp) eqn:Hok; [| exact I].
  destruct (json rsp) as [data | e]; [| exact I].
  destruct (Hk data (record (Fetched req (Responded rsp)) s)) as (new & Hs & Hr).
  destruct (k data _) as [[r | e] s']; [| exact I]. simpl in *.
  right. split; [exact Hr |].
  exists req, rsp, (new ++ [Fetched req (Responded rsp)])%list.
  repeat split.
  - now rewrite Hs, record_after, after_after.
  - apply in_or_app. right. now left.
  - exact Hok.
Qed.

Lemma Checks_handler (refuses : bool) (body : M (NextResponse P)) (error : string) :
  Checks refuses body ->
  Replies (200 :: (if refuses then [400] else []) ++ [500])%Z
    (tryCatch body (fun e => ret (serverError error e)))
  /\ ServesUpstream (tryCatch body (fun e => ret (serverError error e))).
Proof.
  intros Hb. split.
  - intros s. specialize (Hb s). unfold tryCatch.
    destruct (body s) as [[r | e] s'].
    + exists r, s'. split; [reflexivity |].
      destruct Hb as [(-> & H400 & ->) | (H200 & _)].
      * rewrite H400. split; [simpl; tauto | reflexivity].
      * rewrite H200. split; [now left | discriminate].
    + eexists _, s'. split; [reflexivity |]. split.
      * simpl. destruct refuses; simpl; tauto.
      * discriminate.
  - intros s s' r. specialize (Hb s). unfold tryCatch.
    destruct (body s) as [[r0 | e] s0]; intros H H200.
    + injection H as <- <-.
      destruct Hb as [(_ & H400 & _) | (_ & req & rsp & new & -> & Hin & Hok)]; [congruence |].
      exists req, rsp. now rewrite added_after.
    + injection H as <- <-. discriminate.
Qed.

End AnswerFacts.

Ltac serves :=
  repeat first
    [ apply Serves_success
    | apply Serves_bind; [solve [grows] | intros ?] ].

Ltac checks :=
  repeat first
    [ apply Checks_refuse
    | apply Checks_request; intros ?; solve [serves]
    | match goal with
      | |- Laws.Checks _ (if ?b then _ else _) => destruct b
      | |- Laws.Checks _ (match ?x with _ => _ end) => destruct x
      end ].

(** The body of the wallet history handler, which makes its request
    itself. *)
Lemma history_answers (query : list (string * string)) :
  Replies [200; 400; 401; 429; 500]%Z (WalletHistory.GET query)
  /\ ServesUpstream (WalletHistory.GET query).
Proof.
  assert (H : forall s, exists r new,
             WalletHistory.GET query s = (Normal r, after s new)
             /\ In (httpStatus r) [200; 400; 401; 429; 500]%Z
             /\ (httpStatus r = 400%Z -> new = [])
             /\ (httpStatus r = 200%Z ->
                 exists req rsp, In (Fetched req (Responded rsp)) new /\ ok rsp = true)).
  { intros s. unfold WalletHistory.GET.
    destruct (get "address" query) as [address |];
      [| eexists _, []; rewrite after_nil; split; [reflexivity |];
         simpl; repeat split; try tauto; discriminate].
    destruct (nonEmpty address);
      [| eexists _, []; rewrite after_nil; split; [reflexivity |];
         simpl; repeat split; try tauto; discriminate].
    cbv beta iota zeta delta [tryCatch bind bearer getEnv ret fetch negb].
    match goal with
    | |- context [upstream s ?n ?q] => destruct (upstream s n q) as [e | r0] eqn:Hup
    end.
    - eexists _, [_]. split; [reflexivity |].
      simpl. repeat split; try tauto; discriminate.
    - destruct (ok r0) eqn:Hok0; simpl.
      + unfold lift, throw.
        destruct (json r0) as [data | e]; simpl.
        * destruct (WalletHistory.transformTransactions _ data); simpl;
            eexists _, [_]; (split; [reflexivity |]);
            simpl; repeat split; try tauto; try discriminate.
          intros _. eexists _, r0. split; [left; reflexivity | exact Hok0].
        * eexists _, [_]. split; [reflexivity |].
          simpl. repeat split; try tauto; discriminate.
      + destruct (status r0 =? 401)%Z; [| destruct (status r0 =? 429)%Z]; simpl;
          eexists _, [_]; (split; [reflexivity |]);
          simpl; repeat split; try tauto; discriminate. }
  split.
  - intros s. destruct (H s) as (r & new & Hrun & Hin & H400 & _).
    exists r, (after s new). repeat split; try assumption.
    intros E. rewrite (H400 E). apply after_nil.
  - intros s s' r Hrun H200. destruct (H s) as (r0 & new & Hrun0 & _ & _ & Hserved).
    rewrite Hrun0 in Hrun. injection Hrun as <- <-.
    rewrite added_after. now apply Hserved.
Qed.

(** X1. Every [GET] handler always answers and never throws.  The status
    is 200, 400 or 500 (the gas price route never answers 400; the wallet
    history may also answer 401 and 429).  An answer 400 is given before
    anything was done: no upstream request was sent.  An answer 200 is
    given only after an upstream response that was a success. *)
Theorem get_answers :
  (forall query,
     Replies [200; 400; 500]%Z (Nft.GET query) /\ ServesUpstream (Nft.GET query))
  /\ (forall query,
        Replies [200; 500]%Z (GasPrice.GET query) /\ ServesUpstream (GasPrice.GET query))
  /\ (forall query,
        Replies [200; 400; 500]%Z (Portfolio.GET query)
        /\ ServesUpstream (Portfolio.GET query))
  /\ (forall query,
        Replies [200; 400; 500]%Z (SpotPrice.GET query)
        /\ ServesUpstream (SpotPrice.GET query))
  /\ (forall query,
        Replies [200; 400; 500]%Z (Tokens.GET query) /\ ServesUpstream (Tokens.GET query))
  /\ (forall query,
        Replies [200; 400; 500]%Z (Traces.GET query) /\ ServesUpstream (Traces.GET query))
  /\ (forall query,
        Replies [200; 400; 500]%Z (Domains.GET query)
        /\ ServesUpstream (Domains.GET query))
  /\ (forall query,
        Replies [200; 400; 401; 429; 500]%Z (WalletHistory.GET query)
        /\ ServesUpstream (WalletHistory.GET query)).
Proof.
  repeat apply conj.
  - intros query; unfold Nft.GET; apply (@Checks_handler _ true);
    cbv zeta; unfold Nft.makeRequest; checks.
  - intros query; unfold GasPrice.GET; apply (@Checks_handler _ false);
    cbv zeta; unfold GasPrice.makeRequest; checks.
  - intros query; unfold Portfolio.GET; apply (@Checks_handler _ true);
    cbv zeta; unfold Portfolio.makeRequest; checks.
  - intros query; unfold SpotPrice.GET; apply (@Checks_handler _ true);
    cbv zeta; unfold SpotPrice.makeRequest; checks.
  - intros query; unfold Tokens.GET; apply (@Checks_handler _ true);
    cbv zeta; unfold Tokens.makeRequest; checks.
  - intros query; unfold Traces.GET; apply (@Checks_handler _ true);
    cbv zeta; unfold Traces.makeRequest; checks.
  - intros query; unfold Domains.GET; apply (@Checks_handler _ true);
    cbv zeta; unfold Domains.makeRequest; checks.
  - intros query; apply history_answers.
Qed.

(** The witness of [get_answers]: gas prices from an upstream that
    answers. *)
Lemma get_answers_witness :
  exists req rsp,
    In (Fetched req (Responded rsp))
       (Terms.added (Sample.steady Sample.withKey (VObj []))
          (snd (GasPrice.GET [] (Sample.steady Sample.withKey (VObj [])))))
    /\ ok rsp = true.
Proof.
  destruct get_answers as (_ & Hgas & _).
  destruct (Hgas []) as [_ H].
  apply (H (Sample.steady Sample.withKey (VObj []))
           (snd (GasPrice.GET [] (Sample.steady Sample.withKey (VObj []))))
           (match fst (GasPrice.GET [] (Sample.steady Sample.withKey (VObj []))) with
            | Normal r => r
            | Throw _ => badRequest EmptyString
            end)).
  - vm_compute. reflexivity.
  - vm_compute. reflexivity.
Defined.

Section DecidesFacts.

Variable P : Type.

Lemma Checks_Decides (refuses : bool) (body : M (NextResponse P)) :
  Checks refuses body -> Decides body.
Proof.
  intros H s. specialize (H s). destruct (body s) as [[r | e] s']; [| exact I].
  destruct H as [(_ & H400 & Hs) | (H200 & _)]; [left | right]; auto.
Qed.

Lemma Decides_refuse (error : string) : Decides (ret (@badRequest P error)).
Proof. intros s. left. now split. Qed.

Lemma Decides_then (A : Type) (m : M A) (k : A -> M (NextResponse P)) :
  (forall a s, match fst (k a s) with
               | Normal r => httpStatus r = 200%Z
               | Throw _ => True
               end) ->
  Decides (bind m k).
Proof.
  intros Hk s. unfold bind. destruct (m s) as [[a | e] s1]; [| exact I].
  specialize (Hk a s1). destruct (k a s1) as [[r | e] s']; [| exact I].
  now right.
Qed.

Lemma Decides_handler (body : M (NextResponse P)) (error : string) :
  Decides body ->
  Replies [200; 400; 500]%Z (tryCatch body (fun e => ret (serverError error e))).
Proof.
  intros Hb s. specialize (Hb s). unfold tryCatch.
  destruct (body s) as [[r | e] s'].
  - exists r, s'. split; [reflexivity |].
    destruct Hb as [(H400 & ->) | H200].
    + rewrite H400. split; [simpl; tauto | reflexivity].
    + rewrite H200. split; [now left | discriminate].
  - eexists _, s'. split; [reflexivity |]. split; [simpl; tauto | discriminate].
Qed.

(** The body of a request that was read. *)
Lemma Decides_body (A : Type) (a : A) (k : A -> M (NextResponse P)) :
  Decides (k a) -> Decides (bind (lift (Normal a)) k).
Proof. intros H s. exact (H s). Qed.

End DecidesFacts.

Lemma batch_replies (Item S F : Type) (process : Item -> M S) (pause : Z)
    (echo : Item -> F) (missing failure : string) (body : BatchBody Item) :
  Replies [200; 400; 500]%Z (batch process pause echo missing failure body).
Proof.
  unfold batch. apply Decides_handler. destruct body as [e | | items].
  - intros s. exact I.
  - apply Decides_refuse.
  - apply Decides_then. intros a s. reflexivity.
Qed.

(** X2. Every [POST] handler always answers and never throws, with status
    200, 400 or 500, and an answer 400 is given before anything was done:
    no upstream request was sent and no pause was made. *)
Theorem post_answers :
  (forall body, Replies [200; 400; 500]%Z (Nft.POST body))
  /\ (forall body, Replies [200; 400; 500]%Z (GasPrice.POST body))
  /\ (forall body, Replies [200; 400; 500]%Z (Portfolio.POST body))
  /\ (forall body, Replies [200; 400; 500]%Z (SpotPrice.POST body))
  /\ (forall body, Replies [200; 400; 500]%Z (Tokens.POST body))
  /\ (forall body, Replies [200; 400; 500]%Z (Traces.POST body))
  /\ (forall body, Replies [200; 400; 500]%Z (Domains.POST body)).
Proof.
  repeat apply conj; try (intros body; apply batch_replies).
  intros body. unfold SpotPrice.POST. apply Decides_handler.
  destruct body as [b | e]; [| intros s; exact I].
  apply Decides_body.
  cbv beta zeta.
  destruct (isLiteral (SpotPrice.bodyAction b) "requested").
  - destruct (SpotPrice.bodyTokens b) as [tokens |]; [| apply Decides_refuse].
    destruct (negb (forallb isHexAddress tokens)); [apply Decides_refuse |].
    apply (@Checks_Decides _ true). unfold SpotPrice.makeRequest. checks.
  - destruct (isLiteral (SpotPrice.bodyAction b) "batch"); [| apply Decides_refuse].
    destruct (SpotPrice.bodyChains b) as [chains |]; [| apply Decides_refuse].
    apply Decides_then. intros a s. reflexivity.
Qed.

(** A batch without its list is refused before anything is done. *)
Lemma post_answers_witness :
  exists r, Nft.POST NoList Sample.down = (Normal r, Sample.down) /\ httpStatus r = 400%Z.
Proof.
  destruct post_answers as (Hnft & _).
  destruct (Hnft NoList Sample.down) as (r & s' & Hrun & _ & H400).
  exists r. rewrite Hrun.
  assert (Hr : httpStatus r = 400%Z).
  { vm_compute in Hrun. injection Hrun as <- _. reflexivity. }
  rewrite (H400 Hr). split; [reflexivity | exact Hr].
Defined.

(** ** What a handler sends *)

Section SendsFacts.

Variable Q : Env -> UpstreamRequest -> Prop.









End SendsFacts.






(** ** How an upstream call fails *)

Section RelaysFacts.

Lemma Relays_ret (A : Type) (a : A) : Relays (ret a).
Proof. intros s. exists []. rewrite after_nil. split; [reflexivity | intros ? ? ? []]. Qed.

Lemma Relays_throw (A : Type) (e : exn) : Relays (@throw A e).
Proof. intros s. exists []. rewrite after_nil. split; [reflexivity | intros ? ? ? []]. Qed.

Lemma Relays_lift (A : Type) (c : completion A) : Relays (lift c).
Proof. intros s. exists []. rewrite after_nil. split; [reflexivity | intros ? ? ? []]. Qed.

Lemma Relays_delay (ms : Z) : Relays (delay ms).
Proof.
  intros s. exists [Slept ms]. split; [reflexivity |].
  intros req out e [H | []]. discriminate.
Qed.

Lemma Relays_makeRequestWith (extra : list (string * string)) (method : string)
    (payload : option value) (url : string) :
  Relays (makeRequestWith extra method payload url).
Proof.
  intros s. rewrite makeRequestWith_run. cbv zeta.
  eexists [_]. split; [reflexivity |].
  intros req out e [H | []] Hf. injection H as _ H. rewrite H. simpl.
  destruct out as [e0 | r]; simpl in Hf.
  - now injection Hf as ->.
  - destruct (ok r); [| now injection Hf as <-].
    destruct (json r); [discriminate | now injection Hf as ->].
Qed.

Lemma Relays_bind (A B : Type) (m : M A) (k : A -> M B) :
  Relays m -> (forall a, Relays (k a)) -> Relays (bind m k).
Proof.
  intros Hm Hk s. unfold bind.
  destruct (Hm s) as (new1 & H1 & Hbad1).
  destruct (m s) as [[a | e] s1]; simpl in *; subst s1.
  - destruct (Hk a (after s new1)) as (new2 & H2 & Hbad2).
    exists (new2 ++ new1)%list. split; [now rewrite H2, after_after |].
    intros req out e Hin Hf. apply in_app_or in Hin as [Hin | Hin].
    + now apply (Hbad2 req out).
    + specialize (Hbad1 req out e Hin Hf). discriminate.
  - exists new1. split; [reflexivity |].
    intros req out e0 Hin Hf. specialize (Hbad1 req out e0 Hin Hf).
    now injection Hbad1 as ->.
Qed.

(** The outer [try] of a handler. *)
Lemma Relays_handler (P : Type) (body : M (NextResponse P)) (error : string) :
  Relays body ->
  RelaysAs500 (tryCatch body (fun e => ret (serverError error e))) error.
Proof.
  intros Hb s req out e Hin Hf. unfold tryCatch in *.
  destruct (Hb s) as (new & Hs & Hbad).
  destruct (body s) as [[a | e0] s1]; simpl in *; subst s1;
    rewrite added_after in Hin; specialize (Hbad req out e Hin Hf).
  - discriminate.
  - now injection Hbad as ->.
Qed.

End RelaysFacts.

Ltac relays :=
  repeat first
    [ apply Relays_ret
    | apply Relays_throw
    | apply Relays_lift
    | apply Relays_delay
    | apply Relays_makeRequestWith
    | apply Relays_bind; [| intros ?]
    | match goal with
      | |- Laws.Relays (if ?b then _ else _) => destruct b
      | |- Laws.Relays (match ?x with _ => _ end) => destruct x
      end ].

Lemma history_relays (query : list (string * string)) (s : State) req out e :
  In (Fetched req out) (Terms.added s (snd (WalletHistory.GET query s))) ->
  transportFailure out = Some e ->
  fst (WalletHistory.GET query s)
  = Normal (serverError "Failed to fetch wallet transactions" e).
Proof.
  unfold WalletHistory.GET.
  destruct (get "address" query) as [address |];
    [| simpl; rewrite added_none; intros []].
  destruct (nonEmpty address);
    [| simpl; rewrite added_none; intros []].
  cbv beta iota zeta delta [tryCatch bind bearer getEnv ret fetch negb].
  match goal with
  | |- context [upstream s ?n ?q] => destruct (upstream s n q) as [e0 | r0] eqn:Hup
  end.
  - simpl. rewrite added_record. intros [H | []] Hf. injection H as _ <-.
    simpl in Hf. now injection Hf as ->.
  - destruct (ok r0) eqn:Hok0; simpl.
    + unfold lift, throw.
      destruct (json r0) as [data | e0] eqn:Hjson; simpl.
      * destruct (WalletHistory.transformTransactions _ data); simpl;
          rewrite added_record;
          intros [H | []] Hf; injection H as _ <-; simpl in Hf;
          rewrite Hok0, Hjson in Hf; discriminate.
      * rewrite added_record.
        intros [H | []] Hf; injection H as _ <-; simpl in Hf.
        rewrite Hok0, Hjson in Hf. now injection Hf as ->.
    + destruct (status r0 =? 401)%Z; [| destruct (status r0 =? 429)%Z]; simpl;
        rewrite added_record;
        intros [H | []] Hf; injection H as _ <-; simpl in Hf;
        rewrite Hok0 in Hf; discriminate.
Qed.

(** X4. However an upstream call of a single-request handler fails, the
    handler answers 500 with the error of that call as the details: the
    error that rejected [fetch] (a network failure), the error that
    [response.json()] throws on a successful response whose body is not
    JSON, or the wrapped message of a response that is not a success.
    The wallet history does the same for the transport failures. *)
Theorem failed_calls_are_relayed :
  (forall query, RelaysAs500 (Nft.GET query) "Failed to fetch NFT data")
  /\ (forall query, RelaysAs500 (GasPrice.GET query) "Failed to fetch gas prices")
  /\ (forall query, RelaysAs500 (Portfolio.GET query) "Failed to fetch portfolio data")
  /\ (forall query, RelaysAs500 (SpotPrice.GET query) "Failed to fetch spot prices")
  /\ (forall query, RelaysAs500 (Tokens.GET query) "Failed to fetch token data")
  /\ (forall query, RelaysAs500 (Traces.GET query) "Failed to fetch trace data")
  /\ (forall query, RelaysAs500 (Domains.GET query) "Failed to fetch domain data")
  /\ (forall query (s : State) req out e,
        In (Fetched req out) (Terms.added s (snd (WalletHistory.GET query s))) ->
        transportFailure out = Some e ->
        fst (WalletHistory.GET query s)
        = Normal (serverError "Failed to fetch wallet transactions" e)).
Proof.
  repeat apply conj.
  - intros query. unfold Nft.GET. apply Relays_handler.
    cbv zeta. unfold Nft.makeRequest. relays.
  - intros query. unfold GasPrice.GET. apply Relays_handler.
    cbv zeta. unfold GasPrice.makeRequest. relays.
  - intros query. unfold Portfolio.GET. apply Relays_handler.
    cbv zeta. unfold Portfolio.makeRequest. relays.
  - intros query. unfold SpotPrice.GET. apply Relays_handler.
    cbv zeta. unfold SpotPrice.makeRequest. relays.
  - intros query. unfold Tokens.GET. apply Relays_handler.
    cbv zeta. unfold Tokens.makeRequest. relays.
  - intros query. unfold Traces.GET. apply Relays_handler.
    cbv zeta. unfold Traces.makeRequest. relays.
  - intros query. unfold Domains.GET. apply Relays_handler.
    cbv zeta. unfold Domains.makeRequest. relays.
  - exact history_relays.
Qed.

(** Gas prices from an upstream that cannot be reached. *)
Lemma failed_calls_are_relayed_witness :
  fst (GasPrice.GET [] offline)
  = Normal {| httpStatus := 500;
              body := FailureBody "Failed to fetch gas prices" "fetch failed" |}.
Proof.
  destruct failed_calls_are_relayed as (_ & Hgas & _).
  apply (Hgas [] offline
           (Terms.authorised offline [] "GET" None "https://api.1inch.dev/gas-price/v1.4/1")
           (Rejected (Error "fetch failed")) (Error "fetch failed")).
  - vm_compute. left. reflexivity.
  - reflexivity.
Defined.

(** ** The pace of a batch *)

Section SingleFacts.

Lemma Quiet_ret (A : Type) (a : A) : Quiet (ret a).
Proof. intros s. reflexivity. Qed.

Lemma Quiet_lift (A : Type) (c : completion A) : Quiet (lift c).
Proof. intros s. reflexivity. Qed.

Lemma Quiet_bind (A B : Type) (m : M A) (k : A -> M B) :
  Quiet m -> (forall a, Quiet (k a)) -> Quiet (bind m k).
Proof.
  intros Hm Hk s. unfold bind. specialize (Hm s).
  destruct (m s) as [[a | e] s1]; simpl in *; subst s1; [apply Hk | reflexivity].
Qed.



End SingleFacts.

Ltac quiet :=
  repeat first
    [ apply Quiet_ret
    | apply Quiet_lift
    | apply Quiet_bind; [| intros ?] ].


Section PaceFacts.

Variables Item S F : Type.
Variable process : Item -> M S.
Variable pause : Z.
Variable echo : Item -> F.

Hypothesis process_single : forall item, Single (process item).



End PaceFacts.



(** ** Lists of addresses *)

Section AddressLists.

Lemma chars_append (a b : string) : chars (a ++ b) = (chars a ++ chars b)%list.
Proof. unfold chars. induction a as [| c a IH]; simpl; [reflexivity | now rewrite IH]. Qed.

Lemma str_chars (s : string) : str (chars s) = s.
Proof. apply string_of_list_ascii_of_string. Qed.


Lemma splitOn_cons (sep : ascii) (l : list ascii) :
  exists p ps, splitOn sep l = p :: ps.
Proof.
  induction l as [| c l (p & ps & IH)]; simpl; [now eexists _, _ |].
  destruct (Ascii.eqb c sep); [now eexists _, _ |].
  rewrite IH. now eexists _, _.
Qed.

Lemma splitOn_app (sep : ascii) (a b : list ascii) :
  splitOn sep (a ++ sep :: b) = (splitOn sep a ++ splitOn sep b)%list.
Proof.
  induction a as [| c a IH]; simpl.
  - now rewrite Ascii.eqb_refl.
  - destruct (Ascii.eqb c sep); [now rewrite IH |].
    rewrite IH. destruct (splitOn_cons sep a) as (p & ps & ->). reflexivity.
Qed.

Lemma splitOn_none (sep : ascii) (l : list ascii) :
  existsb (Ascii.eqb sep) l = false -> splitOn sep l = [l].
Proof.
  induction l as [| c l IH]; simpl; [reflexivity |].
  intros H. apply orb_false_elim in H as [Hc Hl].
  rewrite Ascii.eqb_sym, Hc, (IH Hl). reflexivity.
Qed.

Lemma dropWhile_all (p : ascii -> bool) (l r : list ascii) :
  forallb p l = true -> dropWhile p (l ++ r) = dropWhile p r.
Proof.
  induction l as [| c l IH]; simpl; [reflexivity |].
  intros H. apply andb_prop in H as [Hc Hl]. rewrite Hc. now apply IH.
Qed.

Lemma hex_not_space (c : ascii) : isHexDigit c = true -> isWhiteSpace c = false.
Proof.
  destruct c as [[] [] [] [] [] [] [] []]; try reflexivity;
    intros H; vm_compute in H; discriminate.
Qed.

Lemma forallb_rev (A : Type) (p : A -> bool) (l : list A) :
  forallb p l = true -> forallb p (rev l) = true.
Proof.
  rewrite !forallb_forall. intros H x Hx. apply H. now apply in_rev.
Qed.

(** White space around an address is trimmed away. *)
Lemma trim_padded (before after address : string) :
  forallb isWhiteSpace (chars before) = true ->
  forallb isWhiteSpace (chars after) = true ->
  isHexAddress address = true ->
  trim (before ++ address ++ after) = address.
Proof.
  intros Hb Ha Hx. unfold trim. rewrite !chars_append.
  rewrite (@dropWhile_all isWhiteSpace (chars before) _ Hb).
  unfold isHexAddress in Hx.
  destruct (chars address) as [| c0 [| c1 ds]] eqn:Hc; try discriminate.
  { destruct c0 as [[] [] [] [] [] [] [] []]; discriminate. }
  assert (H0 : c0 = "0"%char /\ c1 = "x"%char
               /\ (Nat.eqb (List.length ds) 40 && forallb isHexDigit ds) = true).
  { destruct c0 as [[] [] [] [] [] [] [] []]; try discriminate;
      destruct c1 as [[] [] [] [] [] [] [] []]; try discriminate. now repeat split. }
  destruct H0 as (-> & -> & Hds). apply andb_prop in Hds as [Hlen Hhex].
  apply Nat.eqb_eq in Hlen.
  cbn [app dropWhile]. change (isWhiteSpace "0") with false. cbv iota.
  change ("0"%char :: "x"%char :: ds ++ chars after)%list
    with (("0"%char :: "x"%char :: ds) ++ chars after)%list.
  rewrite rev_app_distr.
  rewrite (@dropWhile_all isWhiteSpace (rev (chars after)) _ (forallb_rev _ _ Ha)).
  assert (Hrev : dropWhile isWhiteSpace (rev ("0"%char :: "x"%char :: ds))
                 = rev ("0"%char :: "x"%char :: ds)).
  { cbn [rev]. rewrite <- !app_assoc.
    pose proof (forallb_rev _ _ Hhex) as Hr.
    destruct (rev ds) as [| d r] eqn:Hd.
    - apply (f_equal (@List.length ascii)) in Hd. rewrite length_rev in Hd.
      simpl in Hd. lia.
    - simpl in Hr. apply andb_prop in Hr as [Hd0 _].
      cbn [app dropWhile]. now rewrite (hex_not_space _ Hd0). }
  rewrite Hrev, rev_involutive, <- Hc. apply str_chars.
Qed.

Lemma split_append (a b : string) :
  split "," (a ++ "," ++ b) = (split "," a ++ split "," b)%list.
Proof.
  unfold split. rewrite chars_append. simpl.
  change (list_ascii_of_string b) with (chars b).
  now rewrite splitOn_app, map_app.
Qed.

Lemma space_not_comma (l : list ascii) :
  forallb isWhiteSpace l = true -> existsb (Ascii.eqb ",") l = false.
Proof.
  induction l as [| c l IH]; simpl; [reflexivity |].
  intros H. apply andb_prop in H as [Hc Hl]. rewrite (IH Hl), orb_false_r.
  destruct c as [[] [] [] [] [] [] [] []]; try reflexivity;
    vm_compute in Hc; discriminate.
Qed.

Lemma hex_not_comma (l : list ascii) :
  forallb isHexDigit l = true -> existsb (Ascii.eqb ",") l = false.
Proof.
  induction l as [| c l IH]; simpl; [reflexivity |].
  intros H. apply andb_prop in H as [Hc Hl]. rewrite (IH Hl), orb_false_r.
  destruct c as [[] [] [] [] [] [] [] []]; try reflexivity;
    vm_compute in Hc; discriminate.
Qed.

Lemma address_no_comma (address : string) :
  isHexAddress address = true -> existsb (Ascii.eqb ",") (chars address) = false.
Proof.
  unfold isHexAddress. intros Hx.
  destruct (chars address) as [| c0 [| c1 ds]]; try discriminate.
  { destruct c0 as [[] [] [] [] [] [] [] []]; discriminate. }
  destruct c0 as [[] [] [] [] [] [] [] []]; try discriminate;
    destruct c1 as [[] [] [] [] [] [] [] []]; try discriminate.
  apply andb_prop in Hx as [_ Hhex]. simpl. now apply hex_not_comma.
Qed.

End AddressLists.

(** X6. The validation of a comma-separated address list (portfolio)
    accepts a list exactly when it accepts each side of every comma, so
    an empty piece (an empty list, a trailing or a doubled comma) is
    refused; and an address padded with white space is accepted, because
    each piece is trimmed before it is matched. *)
Theorem address_list_validation :
  (forall a b : string,
     validAddressList (a ++ "," ++ b) = validAddressList a && validAddressList b)
  /\ validAddressList EmptyString = false
  /\ (forall before after address : string,
        forallb isWhiteSpace (chars before) = true ->
        forallb isWhiteSpace (chars after) = true ->
        isHexAddress address = true ->
        validAddressList (before ++ address ++ after) = true).
Proof.
  repeat apply conj.
  - intros a b. unfold validAddressList. now rewrite split_append, forallb_app.
  - reflexivity.
  - intros before after address Hb Ha Hx. unfold validAddressList, split.
    rewrite splitOn_none.
    + cbn [map forallb]. rewrite str_chars, (trim_padded _ _ _ Hb Ha Hx), Hx. reflexivity.
    + rewrite !chars_append, !existsb_app.
      now rewrite (space_not_comma _ Hb), (space_not_comma _ Ha), (address_no_comma _ Hx).
Qed.

(** Two padded addresses; a trailing comma. *)
Lemma address_list_validation_witness :
  validAddressList ((" " ++ Sample.tokenA ++ " ") ++ "," ++ (" " ++ Sample.tokenB ++ "  "))
  = true
  /\ validAddressList (Sample.tokenA ++ "," ++ EmptyString) = false.
Proof.
  destruct address_list_validation as (Hcomma & Hempty & Hpad).
  split.
  - rewrite Hcomma.
    rewrite (Hpad " " " " Sample.tokenA), (Hpad " " "  " Sample.tokenB); reflexivity.
  - rewrite Hcomma, Hempty. apply andb_false_r.
Defined.

(** ** What is validated and what is forwarded *)

Section Forwarding.



Lemma validAddressList_map (raw : string) :
  forallb isHexAddress (map trim (split "," raw)) = validAddressList raw.
Proof.
  unfold validAddressList. induction (split "," raw) as [| p ps IH]; simpl;
    [reflexivity | now rewrite IH].
Qed.

(** A handler whose body is one request through the helper. *)
Lemma handler_sends_only (P : Type) (extra : list (string * string)) (method : string)
    (payload : option value) (url : string) (k : value -> M (NextResponse P))
    (h : exn -> M (NextResponse P)) (s : State) :
  (forall data, Quiet (k data)) ->
  (forall e, Quiet (h e)) ->
  SendsOnly (tryCatch (bind (makeRequestWith extra method payload url) k) h) s
    (Terms.authorised s extra method payload url).
Proof.
  intros Hk Hh. unfold SendsOnly, tryCatch, bind. rewrite makeRequestWith_run. cbv zeta.
  exists (upstream s (List.length (fetches s)) (Terms.authorised s extra method payload url)).
  destruct (upstream s _ _) as [e | r]; cbv iota beta; [apply Hh |].
  destruct (ok r); [| apply Hh].
  destruct (json r) as [data | e]; [| apply Hh].
  pose proof (Hk data (record (Fetched (Terms.authorised s extra method payload url)
                                 (Responded r)) s)) as Hq.
  destruct (k data _) as [[a | e] s1]; simpl in Hq; subst s1; [reflexivity | apply Hh].
Qed.

End Forwarding.



(** ** Numbers with a tail *)

Section NumberTails.



Lemma orDefault_some (x d : string) : nonEmpty x = true -> orDefault (Some x) d = x.
Proof. intros H. unfold orDefault. now rewrite H. Qed.


End NumberTails.



(** ** The search text *)

Section Escaping.




End Escaping.



(** ** The transactions of the wallet history *)

Section Transactions.

Variable chainId : string.

Lemma truthy_orValue (a : value) : truthy (orValue a (VStr "completed")) = true.
Proof. unfold orValue. now destruct (truthy a) eqn:E. Qed.

Lemma transformItem_stamped (item : value) :
  isNullish item = false ->
  exists t, WalletHistory.transformItem chainId item = Normal t /\ stamped chainId t.
Proof.
  intros Hitem. unfold WalletHistory.transformItem.
  destruct item; try discriminate; cbn [getProp];
    eexists; (split; [reflexivity |]); (split; [reflexivity |]);
    apply truthy_orValue.
Qed.

Lemma transformItem_null (item : value) :
  isNullish item = true -> exists e, WalletHistory.transformItem chainId item = Throw e.
Proof. destruct item; try discriminate; intros _; eexists; reflexivity. Qed.

Lemma mapItems_stamped (items : list value) :
  forallb (fun item => negb (isNullish item)) items = true ->
  exists ts,
    WalletHistory.mapItems chainId items = Normal ts
    /\ List.length ts = List.length items
    /\ Forall (stamped chainId) ts.
Proof.
  induction items as [| item rest IH]; simpl.
  - intros _. exists []. now repeat split.
  - intros H. apply andb_prop in H as [Hitem Hrest].
    apply negb_true_iff in Hitem.
    destruct (transformItem_stamped _ Hitem) as (t & -> & Ht).
    destruct (IH Hrest) as (ts & -> & Hlen & Hall).
    exists (t :: ts). simpl. repeat split; [now rewrite Hlen | now constructor].
Qed.

Lemma mapItems_null (items : list value) :
  forallb (fun item => negb (isNullish item)) items = false ->
  exists e, WalletHistory.mapItems chainId items = Throw e.
Proof.
  induction items as [| item rest IH]; simpl; [discriminate |].
  intros H. destruct (isNullish item) eqn:Hitem.
  - destruct (transformItem_null _ Hitem) as (e & ->). now exists e.
  - simpl in H. destruct (transformItem_stamped _ Hitem) as (t & -> & _).
    destruct (IH H) as (e & ->). now exists e.
Qed.

End Transactions.

(** X10. When the upstream answers the wallet history request with an
    object whose [items] is an array without [null] entries, the route
    answers 200 with one transaction for each item: [total] is the number
    of items, every transaction carries the chain id of the client's
    request (['1'] when there is none) and a status that is never empty
    (['completed'] where the upstream gives none).  A [null] or
    [undefined] entry makes the route answer 500; [items] missing or
    [null] gives an empty list and a total of zero. *)
Theorem history_transactions :
  forall (query : list (string * string)) (s : State) (address : string)
         (r : UpstreamResponse) (data : value),
    get "address" query = Some address ->
    nonEmpty address = true ->
    upstream s (List.length (fetches s))
      (Terms.historyRequest s address (orDefault (get "limit" query) "10"))
    = Responded r ->
    ok r = true ->
    json r = Normal data ->
    (forall items,
       getProp data "items" = Normal (VArr items) ->
       forallb (fun item => negb (isNullish item)) items = true ->
       exists h,
         fst (WalletHistory.GET query s) = Normal (success h)
         /\ WalletHistory.total h = List.length items
         /\ List.length (WalletHistory.transactions h) = List.length items
         /\ Forall (stamped (orDefault (get "chainId" query) "1"))
              (WalletHistory.transactions h))
    /\ (forall items,
          getProp data "items" = Normal (VArr items) ->
          forallb (fun item => negb (isNullish item)) items = false ->
          exists e,
            fst (WalletHistory.GET query s)
            = Normal (serverError "Failed to fetch wallet transactions" e))
    /\ (forall v,
          getProp data "items" = Normal v ->
          isNullish v = true ->
          exists h,
            fst (WalletHistory.GET query s) = Normal (success h)
            /\ WalletHistory.transactions h = []
            /\ WalletHistory.total h = 0%nat).
Proof.
  intros query s address r data Haddress Hne Hup Hok Hjson.
  assert (Hrun : fst (WalletHistory.GET query s)
                 = match WalletHistory.transformTransactions
                           (orDefault (get "chainId" query) "1") data with
                   | Normal ts =>
                       Normal (success
                                 {| WalletHistory.address := address;
                                    WalletHistory.chain :=
                                      orDefault (get "chain" query) "ethereum";
                                    WalletHistory.chainId :=
                                      orDefault (get "chainId" query) "1";
                                    WalletHistory.transactions := ts;
                                    WalletHistory.total := List.length ts;
                                    WalletHistory.metadata :=
                                      {| WalletHistory.metaLimit :=
                                           parseInt (orDefault (get "limit" query) "10");
                                         WalletHistory.apiProvider := "1inch" |} |})
                   | Throw e =>
                       Normal (serverError "Failed to fetch wallet transactions" e)
                   end).
  { unfold WalletHistory.GET. rewrite Haddress, Hne.
    cbv beta iota zeta delta [tryCatch bind bearer getEnv ret fetch negb].
    match goal with
    | |- context [upstream s ?n ?q] =>
        change q with (Terms.historyRequest s address (orDefault (get "limit" query) "10"))
    end.
    rewrite Hup, Hok. unfold lift. rewrite Hjson.
    destruct (WalletHistory.transformTransactions _ data); reflexivity. }
  rewrite Hrun. unfold WalletHistory.transformTransactions.
  repeat apply conj.
  - intros items -> Hall.
    destruct (mapItems_stamped (orDefault (get "chainId" query) "1") _ Hall)
      as (ts & -> & Hlen & Hstamped).
    eexists. split; [reflexivity |]. simpl. now repeat split.
  - intros items -> Hsome.
    destruct (mapItems_null (orDefault (get "chainId" query) "1") _ Hsome) as (e & ->).
    now exists e.
  - intros v -> Hv. destruct v; try discriminate; eexists; now repeat split.
Qed.

(** Two items, the second without a status, asked for chain 137. *)
Lemma history_transactions_witness :
  exists h,
    fst (WalletHistory.GET [("address", Sample.anAddress); ("chainId", "137")]
           (Sample.steady Sample.withKey
              (VObj [("items", VArr [VObj [("id", VStr "a"); ("status", VStr "pending")];
                                     VObj [("id", VStr "b")]])])))
    = Normal (success h)
    /\ WalletHistory.total h = 2%nat
    /\ Forall (stamped "137") (WalletHistory.transactions h).
Proof.
  destruct (@history_transactions
              [("address", Sample.anAddress); ("chainId", "137")]
              (Sample.steady Sample.withKey
                 (VObj [("items", VArr [VObj [("id", VStr "a"); ("status", VStr "pending")];
                                        VObj [("id", VStr "b")]])]))
              Sample.anAddress
              {| status := 200; statusText := "OK"; text := "";
                 json := Normal (VObj [("items",
                                        VArr [VObj [("id", VStr "a");
                                                    ("status", VStr "pending")];
                                              VObj [("id", VStr "b")]])]) |}
              (VObj [("items", VArr [VObj [("id", VStr "a"); ("status", VStr "pending")];
                                     VObj [("id", VStr "b")]])])
              eq_refl eq_refl eq_refl eq_refl eq_refl) as (Hitems & _ & _).
  destruct (Hitems [VObj [("id", VStr "a"); ("status", VStr "pending")];
                    VObj [("id", VStr "b")]] eq_refl eq_refl)
    as (h & Hrun & Htotal & _ & Hall).
  exists h. now repeat split.
Defined.

(** ** The action [all] of the portfolio route *)






(** ** Gas prices in Gwei *)

Section Gwei.

Local Open Scope Z_scope.



End Gwei.



(** ** The NFT batch and the NFT [GET] *)

(** X13. A sub-request of the NFT batch whose four fields are given and
    not empty is treated as the [GET] with the same parameters: the same
    checks in the same order with the same messages, the same upstream
    request, and on success the same data.  What the sub-request throws
    before any request the [GET] answers with 400, and what it throws
    after the request the [GET] answers with 500. *)
Theorem nft_batch_agrees_with_get :
  forall (query : list (string * string)) (s : State)
         (address chainIds limit offset : string),
    get "address" query = Some address ->
    get "chainIds" query = Some chainIds ->
    get "limit" query = Some limit ->
    get "offset" query = Some offset ->
    nonEmpty address = true ->
    nonEmpty chainIds = true ->
    nonEmpty limit = true ->
    nonEmpty offset = true ->
    let item := {| Nft.reqAddress := Some address;
                   Nft.reqChainIds := Some chainIds;
                   Nft.reqLimit := Some limit;
                   Nft.reqOffset := Some offset |} in
    match Nft.process item s with
    | (Normal entry, s') =>
        Nft.GET query s = (Normal (success (Nft.okData entry)), s')
        /\ Nft.okAddress entry = address
        /\ Nft.okChainIds entry = chainIds
        /\ SendsOnly (Nft.GET query) s
             (Terms.authorised s [] "GET" None
                (Nft.constructUrl address chainIds limit offset))
    | (Throw e, s') =>
        (s' = s /\ Nft.GET query s = (Normal (badRequest (message e)), s))
        \/ (SendsOnly (Nft.process item) s
              (Terms.authorised s [] "GET" None
                 (Nft.constructUrl address chainIds limit offset))
            /\ Nft.GET query s = (Normal (serverError "Failed to fetch NFT data" e), s'))
    end.
Proof.
  intros query s address chainIds limit offset Ha Hc Hl Ho Hna Hnc Hnl Hno item.
  subst item. unfold Nft.process, Nft.GET.
  rewrite Ha, Hc, Hl, Ho. cbv zeta.
  cbn [Nft.reqAddress Nft.reqChainIds Nft.reqLimit Nft.reqOffset Nft.withDefault].
  rewrite !(orDefault_some _ _ Hnc), !(orDefault_some _ _ Hnl), !(orDefault_some _ _ Hno).
  rewrite Hna. cbn [negb].
  destruct (isHexAddress address); cbn [negb]; [| left; now split].
  destruct (Nft.badLimit (parseInt limit)); [left; now split |].
  destruct (Nft.badOffset (parseInt offset)); [left; now split |].
  unfold Nft.makeRequest, tryCatch, bind, SendsOnly.
  rewrite !makeRequestWith_run. cbv zeta.
  set (req := Terms.authorised s [] "GET" None
                (Nft.constructUrl address chainIds limit offset)).
  destruct (upstream s (List.length (fetches s)) req) as [e | r];
    [right; split; [eexists; reflexivity | reflexivity] |].
  destruct (ok r); [| right; split; [eexists; reflexivity | reflexivity]].
  destruct (json r) as [data | e];
    [| right; split; [eexists; reflexivity | reflexivity]].
  unfold lift.
  destruct (Nft.transform data address chainIds (parseInt limit) (parseInt offset))
    as [transformed | e]; cbn [ret fst snd].
  - repeat split. eexists. reflexivity.
  - right. split; [eexists; reflexivity | reflexivity].
Qed.

(** The NFTs of an address from an upstream that answers, and a limit
    out of range. *)
Lemma nft_batch_agrees_with_get_witness :
  (exists entry s',
     Nft.process {| Nft.reqAddress := Some Sample.anAddress; Nft.reqChainIds := Some "1";
                    Nft.reqLimit := Some "2"; Nft.reqOffset := Some "0" |} Sample.flaky
     = (Normal entry, s')
     /\ Nft.GET [("address", Sample.anAddress); ("chainIds", "1");
                 ("limit", "2"); ("offset", "0")] Sample.flaky
        = (Normal (success (Nft.okData entry)), s'))
  /\ Nft.GET [("address", Sample.anAddress); ("chainIds", "1");
              ("limit", "500"); ("offset", "0")] Sample.flaky
     = (Normal (badRequest "Limit must be a number between 1 and 100"), Sample.flaky).
Proof.
  split.
  - pose proof (@nft_batch_agrees_with_get
                  [("address", Sample.anAddress); ("chainIds", "1");
                   ("limit", "2"); ("offset", "0")]
                  Sample.flaky Sample.anAddress "1" "2" "0"
                  eq_refl eq_refl eq_refl eq_refl eq_refl eq_refl eq_refl eq_refl) as H.
    cbv zeta in H.
    destruct (Nft.process _ Sample.flaky) as [[entry | e] s'] eqn:Hrun.
    + exists entry, s'. split; [reflexivity | apply H].
    + vm_compute in Hrun. discriminate.
  - pose proof (@nft_batch_agrees_with_get
                  [("address", Sample.anAddress); ("chainIds", "1");
                   ("limit", "500"); ("offset", "0")]
                  Sample.flaky Sample.anAddress "1" "500" "0"
                  eq_refl eq_refl eq_refl eq_refl eq_refl eq_refl eq_refl eq_refl) as H.
    cbv zeta in H.
    destruct (Nft.process _ Sample.flaky) as [[entry | e] s'] eqn:Hrun.
    + vm_compute in Hrun. discriminate.
    + destruct H as [[_ H] | [[out Hs] _]].
      * assert (He : message e = "Limit must be a number between 1 and 100").
        { vm_compute in Hrun. injection Hrun as <- _. reflexivity. }
        now rewrite <- He.
      * exfalso. rewrite Hrun in Hs. simpl in Hs.
        vm_compute in Hrun. injection Hrun as _ <-. discriminate.
Defined.

(** ** The chain of a request *)

Section Chains.

Variable table : chainTable.

Hypothesis distinct_names : NoDup (map fst table).
Hypothesis ids_not_empty : forallb (fun entry => nonEmpty (snd entry)) table = true.





End Chains.



(* ================================================================== *)
(** * Properties of the components *)
(* ================================================================== *)

(** ** Favourite tokens *)

Section FavouriteFacts.

Import Panel.

Lemma has_In (x : string) (set : list string) : has x set = true <-> In x set.
Proof.
  unfold has. rewrite existsb_exists. split.
  - intros (y & Hy & E). apply String.eqb_eq in E. now subst.
  - intros H. exists x. split; [exact H | apply String.eqb_refl].
Qed.

Lemma has_app (x : string) (a b : list string) : has x (a ++ b) = has x a || has x b.
Proof. apply existsb_app. Qed.

Lemma has_delete (x y : string) (set : list string) :
  has y (delete x set) = negb (String.eqb x y) && has y set.
Proof.
  unfold has, delete. induction set as [| z set IH]; simpl; [now rewrite andb_false_r |].
  destruct (String.eqb_spec x z) as [-> | Hxz]; simpl.
  - rewrite IH. destruct (String.eqb_spec z y) as [-> | Hzy]; simpl.
    + reflexivity.
    + destruct (String.eqb_spec y z) as [-> | _]; [congruence | reflexivity].
  - rewrite IH. destruct (String.eqb_spec y z) as [-> | Hyz]; simpl.
    + destruct (String.eqb_spec x z) as [-> | _]; [congruence | reflexivity].
    + reflexivity.
Qed.

Lemma has_add (x y : string) (set : list string) :
  has y (add x set) = String.eqb x y || has y set.
Proof.
  unfold add. destruct (has x set) eqn:Hx.
  - destruct (String.eqb_spec x y) as [-> | _]; [now rewrite Hx | reflexivity].
  - rewrite has_app. simpl. rewrite orb_false_r, String.eqb_sym. apply orb_comm.
Qed.

Lemma NoDup_delete (x : string) (set : list string) : NoDup set -> NoDup (delete x set).
Proof. apply NoDup_filter. Qed.

Lemma NoDup_add (x : string) (set : list string) : NoDup set -> NoDup (add x set).
Proof.
  intros H. unfold add. destruct (has x set) eqn:Hx; [exact H |].
  apply NoDup_app; [exact H | repeat constructor; intros [] |].
  intros y Hy [<- | []]. apply has_In in Hy. congruence.
Qed.

Lemma newSet_from (items : list string) :
  forall set, NoDup (set ++ items) ->
              fold_left (fun set x => add x set) items set = (set ++ items)%list.
Proof.
  induction items as [| x items IH]; intros set H; simpl.
  - now rewrite app_nil_r.
  - assert (Hx : has x set = false).
    { apply NoDup_remove_2 in H. destruct (has x set) eqn:E; [| reflexivity].
      exfalso. apply H. apply in_or_app. left. now apply has_In. }
    unfold add at 2. rewrite Hx.
    rewrite IH; rewrite <- app_assoc; [reflexivity | exact H].
Qed.

(** Copying a set, and reading back the array of a set. *)
Lemma newSet_NoDup (set : list string) : NoDup set -> newSet set = set.
Proof. intros H. unfold newSet. now rewrite newSet_from. Qed.

End FavouriteFacts.

(** X15. Toggling a favourite in the token search flips the membership
    of that token and of no other, keeps the favourites free of
    repetitions, and stores them so that a reload of the component gives
    the same favourites back; toggling twice restores the membership of
    every token. *)
Theorem favorites_toggle :
  forall (st : Panel.Favorites) (tokenAddress : string),
    NoDup (Panel.favorites st) ->
    let st' := Panel.toggleFavorite tokenAddress st in
    Panel.has tokenAddress (Panel.favorites st')
    = negb (Panel.has tokenAddress (Panel.favorites st))
    /\ (forall other : string,
          other <> tokenAddress ->
          Panel.has other (Panel.favorites st') = Panel.has other (Panel.favorites st))
    /\ NoDup (Panel.favorites st')
    /\ Panel.favorites (Panel.loadFavorites st') = Panel.favorites st'
    /\ (forall other : string,
          Panel.has other (Panel.favorites (Panel.toggleFavorite tokenAddress st'))
          = Panel.has other (Panel.favorites st))
    /\ (forall tokens : list Panel.Token,
          Panel.getFavoriteTokens tokens st'
          = filter (fun token =>
                      if String.eqb tokenAddress (Panel.address token)
                      then negb (Panel.has tokenAddress (Panel.favorites st))
                      else Panel.has (Panel.address token) (Panel.favorites st))
              tokens).
Proof.
  intros st x Hnd st'.
  assert (Hfav : Panel.favorites st'
                 = if Panel.has x (Panel.favorites st)
                   then Panel.delete x (Panel.favorites st)
                   else Panel.add x (Panel.favorites st)).
  { unfold st', Panel.toggleFavorite. cbv zeta. now rewrite (newSet_NoDup Hnd). }
  assert (Hhas : forall y, Panel.has y (Panel.favorites st')
                           = if String.eqb x y then negb (Panel.has x (Panel.favorites st))
                             else Panel.has y (Panel.favorites st)).
  { intros y. rewrite Hfav. destruct (Panel.has x (Panel.favorites st)) eqn:Hx.
    - rewrite has_delete. now destruct (String.eqb_spec x y) as [<- | _].
    - rewrite has_add. destruct (String.eqb_spec x y) as [<- | _]; [reflexivity |].
      reflexivity. }
  assert (Hnd' : NoDup (Panel.favorites st')).
  { rewrite Hfav. destruct (Panel.has x (Panel.favorites st));
      [now apply NoDup_delete | now apply NoDup_add]. }
  repeat apply conj.
  - now rewrite Hhas, String.eqb_refl.
  - intros other Hother. rewrite Hhas.
    destruct (String.eqb_spec x other) as [-> | _]; [congruence | reflexivity].
  - exact Hnd'.
  - unfold Panel.loadFavorites, st', Panel.toggleFavorite, Panel.saveFavorites.
    cbn [Panel.storage Panel.favorites]. apply newSet_NoDup.
    exact Hnd'.
  - intros other.
    assert (Hagain : Panel.favorites (Panel.toggleFavorite x st')
                     = if Panel.has x (Panel.favorites st')
                       then Panel.delete x (Panel.favorites st')
                       else Panel.add x (Panel.favorites st')).
    { unfold Panel.toggleFavorite at 1. cbv zeta. cbn [Panel.saveFavorites Panel.favorites].
      now rewrite (newSet_NoDup Hnd'). }
    rewrite Hagain, (Hhas x), String.eqb_refl.
    destruct (Panel.has x (Panel.favorites st)) eqn:Hx; cbn [negb].
    + rewrite has_add, Hhas.
      destruct (String.eqb_spec x other) as [<- | _]; [now rewrite Hx | reflexivity].
    + rewrite has_delete, Hhas.
      destruct (String.eqb_spec x other) as [<- | _]; [now rewrite Hx | reflexivity].
  - intros tokens. unfold Panel.getFavoriteTokens. apply filter_ext.
    intros token. apply Hhas.
Qed.

(** A token is made a favourite, and is found again after a reload. *)
Lemma favorites_toggle_witness :
  let st := {| Panel.favorites := [Sample.tokenA]; Panel.storage := None |} in
  Panel.has Sample.tokenB (Panel.favorites (Panel.toggleFavorite Sample.tokenB st)) = true
  /\ Panel.favorites (Panel.loadFavorites (Panel.toggleFavorite Sample.tokenB st))
     = Panel.favorites (Panel.toggleFavorite Sample.tokenB st).
Proof.
  intros st.
  assert (Hnd : NoDup (Panel.favorites st)).
  { apply NoDup_cons; [intros [] | apply NoDup_nil]. }
  destruct (@favorites_toggle st Sample.tokenB Hnd) as (Hflip & _ & _ & Hload & _).
  split; [rewrite Hflip; reflexivity | exact Hload].
Defined.

(** ** Shortened addresses *)

Section Shortening.

Lemma length_chars (s : string) : List.length (chars s) = String.length s.
Proof. induction s as [| c s IH]; simpl; [reflexivity | now rewrite <- IH]. Qed.



Lemma length_append (a b : string) :
  String.length (a ++ b) = (String.length a + String.length b)%nat.
Proof. induction a as [| c a IH]; simpl; [reflexivity | now rewrite IH]. Qed.

End Shortening.



(** ** The parameters that an action requires *)

(** X17. The traces route: [syncedInterval] needs nothing but the chain
    (['1'] by default), [blockTrace] needs a block number and [txTrace] a
    block number and a transaction hash.  A request that lacks what its
    action needs is answered with 400 and nothing is sent; otherwise one
    request goes to the URL of the action, with the parameters as the
    client wrote them. *)
Theorem traces_parameters :
  forall (query : list (string * string)) (s : State),
    let chain := orDefault (get "chain" query) "1" in
    let blockNumber := get "blockNumber" query in
    let txHash := get "txHash" query in
    (get "action" query = Some "syncedInterval" ->
     SendsOnly (Traces.GET query) s
       (Terms.authorised s [] "GET" None
          (Traces.BASE_URL ++ "/" ++ chain ++ "/synced-interval")))
    /\ (get "action" query = Some "blockTrace" ->
        (missing blockNumber = true ->
         Traces.GET query s
         = (Normal (badRequest "blockNumber parameter is required for blockTrace action"), s))
        /\ (missing blockNumber = false ->
            SendsOnly (Traces.GET query) s
              (Terms.authorised s [] "GET" None
                 (Traces.BASE_URL ++ "/" ++ chain ++ "/block-trace/"
                  ++ interpolate blockNumber))))
    /\ (get "action" query = Some "txTrace" ->
        (missing blockNumber || missing txHash = true ->
         Traces.GET query s
         = (Normal (badRequest
                      "blockNumber and txHash parameters are required for txTrace action"),
            s))
        /\ (missing blockNumber || missing txHash = false ->
            SendsOnly (Traces.GET query) s
              (Terms.authorised s [] "GET" None
                 (Traces.BASE_URL ++ "/" ++ chain ++ "/block-trace/"
                  ++ interpolate blockNumber ++ "/tx-hash/" ++ interpolate txHash)))).
Proof.
  intros query s chain blockNumber txHash. subst chain blockNumber txHash.
  repeat apply conj; intros Haction; [| split; intros Hp | split; intros Hp];
    unfold Traces.GET; rewrite Haction; cbv zeta;
    cbn [missing interpolate nonEmpty negb String.eqb Ascii.eqb Bool.eqb andb];
    try rewrite Hp; try reflexivity;
    unfold Traces.makeRequest, Traces.syncedIntervalUrl, Traces.blockTraceUrl,
      Traces.txTraceUrl;
    apply handler_sends_only; intros; quiet.
Qed.

(** A transaction trace without its hash, and with it. *)
Lemma traces_parameters_witness :
  Traces.GET [("action", "txTrace"); ("blockNumber", "17000000")] Sample.down
  = (Normal (badRequest "blockNumber and txHash parameters are required for txTrace action"),
     Sample.down)
  /\ SendsOnly
       (Traces.GET [("action", "txTrace"); ("blockNumber", "17000000"); ("txHash", "0xabc")])
       Sample.down
       (Terms.authorised Sample.down [] "GET" None
          "https://api.1inch.dev/traces/v1.0/chain/1/block-trace/17000000/tx-hash/0xabc").
Proof.
  split.
  - destruct (traces_parameters [("action", "txTrace"); ("blockNumber", "17000000")]
                Sample.down) as (_ & _ & Htx).
    destruct (Htx eq_refl) as [Hmissing _]. apply Hmissing. reflexivity.
  - destruct (traces_parameters
                [("action", "txTrace"); ("blockNumber", "17000000"); ("txHash", "0xabc")]
                Sample.down) as (_ & _ & Htx).
    destruct (Htx eq_refl) as [_ Hgiven]. apply Hgiven. reflexivity.
Defined.

(** X18. The domains route: [lookup] needs a domain that contains a dot
    and [reverseLookup] an address of the hex format; [providersData]
    needs nothing.  A request that lacks what its action needs is
    answered with 400 and nothing is sent; otherwise one request goes to
    the URL of the action. *)
Theorem domains_parameters :
  forall (query : list (string * string)) (s : State),
    let domain := get "domain" query in
    let address := get "address" query in
    (get "action" query = Some "lookup" ->
     (missing domain = true ->
      Domains.GET query s
      = (Normal (badRequest "Domain parameter is required for lookup action"), s))
     /\ (missing domain = false -> includes "." (interpolate domain) = false ->
         Domains.GET query s = (Normal (badRequest "Invalid domain format"), s))
     /\ (missing domain = false -> includes "." (interpolate domain) = true ->
         SendsOnly (Domains.GET query) s
           (Terms.authorised s [] "GET" None
              (Domains.BASE_URL ++ "/" ++ interpolate domain ++ "/lookup"))))
    /\ (get "action" query = Some "reverseLookup" ->
        (missing address = true ->
         Domains.GET query s
         = (Normal (badRequest "Address parameter is required for reverseLookup action"), s))
        /\ (missing address = false -> isHexAddress (interpolate address) = false ->
            Domains.GET query s = (Normal (badRequest "Invalid wallet address format"), s))
        /\ (isHexAddress (interpolate address) = true ->
            SendsOnly (Domains.GET query) s
              (Terms.authorised s [] "GET" None
                 (Domains.BASE_URL ++ "/" ++ interpolate address ++ "/reverse-lookup"))))
    /\ (get "action" query = Some "providersData" ->
        SendsOnly (Domains.GET query) s
          (Terms.authorised s [] "GET" None
             (Domains.BASE_URL ++ "/get-providers-data-with-avatar"))).
Proof.
  intros query s domain address. subst domain address.
  repeat apply conj; intros Haction; [repeat apply conj | repeat apply conj |].
  - intros Hp. unfold Domains.GET. rewrite Haction. cbv zeta.
    cbn [missing interpolate nonEmpty negb String.eqb Ascii.eqb Bool.eqb andb].
    now rewrite Hp.
  - intros Hp Hdot. unfold Domains.GET. rewrite Haction. cbv zeta.
    cbn [missing interpolate nonEmpty negb String.eqb Ascii.eqb Bool.eqb andb].
    now rewrite Hp, Hdot.
  - intros Hp Hdot. unfold Domains.GET. rewrite Haction. cbv zeta.
    cbn [missing interpolate nonEmpty negb String.eqb Ascii.eqb Bool.eqb andb].
    rewrite Hp, Hdot. cbn [negb]. unfold Domains.makeRequest, Domains.lookupUrl.
    apply handler_sends_only; intros; quiet.
  - intros Hp. unfold Domains.GET. rewrite Haction. cbv zeta.
    cbn [missing interpolate nonEmpty negb String.eqb Ascii.eqb Bool.eqb andb].
    now rewrite Hp.
  - intros Hp Hhex. unfold Domains.GET. rewrite Haction. cbv zeta.
    cbn [missing interpolate nonEmpty negb String.eqb Ascii.eqb Bool.eqb andb].
    now rewrite Hp, Hhex.
  - intros Hhex.
    assert (Hp : missing (get "address" query) = false).
    { destruct (get "address" query) as [a |]; [| discriminate Hhex].
      simpl in *. now rewrite (hexAddress_nonEmpty _ Hhex). }
    unfold Domains.GET. rewrite Haction. cbv zeta.
    cbn [missing interpolate nonEmpty negb String.eqb Ascii.eqb Bool.eqb andb].
    rewrite Hp, Hhex. cbn [negb]. unfold Domains.makeRequest, Domains.reverseLookupUrl.
    apply handler_sends_only; intros; quiet.
  - unfold Domains.GET. rewrite Haction. cbv zeta.
    cbn [missing interpolate nonEmpty negb String.eqb Ascii.eqb Bool.eqb andb].
    unfold Domains.makeRequest, Domains.providersUrl.
    apply handler_sends_only; intros; quiet.
Qed.

(** A domain without a dot, and a domain that is only a dot. *)
Lemma domains_parameters_witness :
  Domains.GET [("action", "lookup"); ("domain", "vitalik")] Sample.down
  = (Normal (badRequest "Invalid domain format"), Sample.down)
  /\ SendsOnly (Domains.GET [("action", "lookup"); ("domain", ".")]) Sample.down
       (Terms.authorised Sample.down [] "GET" None
          "https://api.1inch.dev/domains/v2.0/./lookup").
Proof.
  split.
  - destruct (domains_parameters [("action", "lookup"); ("domain", "vitalik")] Sample.down)
      as (Hlookup & _).
    destruct (Hlookup eq_refl) as (_ & Hbad & _). apply Hbad; reflexivity.
  - destruct (domains_parameters [("action", "lookup"); ("domain", ".")] Sample.down)
      as (Hlookup & _).
    destruct (Hlookup eq_refl) as (_ & _ & Hgood). apply Hgood; reflexivity.
Defined.

(** ** The token list of the spot price [POST] *)

Lemma hexAddress_length (a : string) : isHexAddress a = true -> String.length a = 42%nat.
Proof.
  unfold isHexAddress. rewrite <- length_chars.
  destruct (chars a) as [| c0 [| c1 ds]]; try discriminate.
  { destruct c0 as [[] [] [] [] [] [] [] []]; discriminate. }
  destruct c0 as [[] [] [] [] [] [] [] []]; try discriminate;
    destruct c1 as [[] [] [] [] [] [] [] []]; try discriminate.
  intros H. apply andb_prop in H as [H _]. apply Nat.eqb_eq in H. simpl. now rewrite H.
Qed.

Lemma spot_post_body (body : SpotPrice.PostBody) (s : State) :
  SpotPrice.POST (Normal body) s
  = tryCatch
      (let chainId := match SpotPrice.bodyChainId body with Some c => c | None => "1" end in
       if isLiteral (SpotPrice.bodyAction body) "requested" then
         match SpotPrice.bodyTokens body with
         | None => ret (badRequest "Tokens array is required for requested action")
         | Some tokens =>
             if negb (forallb isHexAddress tokens) then
               ret (badRequest "Invalid token address format")
             else
               bind (SpotPrice.makeRequest (SpotPrice.BASE_URL ++ "/" ++ chainId) "POST"
                       (Some (SpotPrice.tokensBody tokens)))
                 (fun data =>
                    bind (lift (SpotPrice.entries data))
                      (fun es =>
                         ret (success
                                (SpotPrice.RequestedResult
                                   {| SpotPrice.requestedChainId := chainId;
                                      SpotPrice.requestedTokens := tokens;
                                      SpotPrice.requestedData := fst (SpotPrice.reshape es);
                                      SpotPrice.requestedFormattedPrices :=
                                        snd (SpotPrice.reshape es) |}))))
         end
       else if isLiteral (SpotPrice.bodyAction body) "batch" then
         match SpotPrice.bodyChains body with
         | None => ret (badRequest "Chains array is required for batch action")
         | Some chains =>
             bind (forOf SpotPrice.process 1000 SpotPrice.echo chains [])
               (fun results =>
                  ret (success
                         (SpotPrice.BatchedResult
                            {| batchSuccess := true;
                               results := results;
                               total := List.length chains;
                               successful := List.length (filter entrySuccess results);
                               failed :=
                                 List.length
                                   (filter (fun r => negb (entrySuccess r)) results) |})))
         end
       else ret (badRequest "Invalid action. Use: requested or batch"))
      (fun error => ret (serverError "Failed to process spot price request" error)) s.
Proof. reflexivity. Qed.

(** X19. The [requested] action of the spot price [POST] needs a token
    list in which every token has the hex format, matched as it is
    written: unlike the address list of the [GET], a token padded with
    white space is refused.  Without a list, or with a token that does
    not match, the answer is 400 and nothing is sent; otherwise one
    [POST] goes to the URL of the chain (['1'] by default) with the
    tokens as its body, also when the list is empty. *)
Theorem spot_requested_tokens :
  forall (body : SpotPrice.PostBody) (s : State),
    isLiteral (SpotPrice.bodyAction body) "requested" = true ->
    let chainId := match SpotPrice.bodyChainId body with Some c => c | None => "1" end in
    (SpotPrice.bodyTokens body = None ->
     SpotPrice.POST (Normal body) s
     = (Normal (badRequest "Tokens array is required for requested action"), s))
    /\ (forall tokens,
          SpotPrice.bodyTokens body = Some tokens ->
          forallb isHexAddress tokens = false ->
          SpotPrice.POST (Normal body) s
          = (Normal (badRequest "Invalid token address format"), s))
    /\ (forall tokens,
          SpotPrice.bodyTokens body = Some tokens ->
          forallb isHexAddress tokens = true ->
          SendsOnly (SpotPrice.POST (Normal body)) s
            (Terms.authorised s [] "POST" (Some (SpotPrice.tokensBody tokens))
               (SpotPrice.BASE_URL ++ "/" ++ chainId)))
    /\ (forall before behind address : string,
          isHexAddress address = true ->
          nonEmpty (before ++ behind) = true ->
          isHexAddress (before ++ address ++ behind) = false).
Proof.
  intros body s Haction chainId. subst chainId. repeat apply conj.
  - intros Htokens. rewrite spot_post_body. cbv zeta. now rewrite Haction, Htokens.
  - intros tokens Htokens Hbad. rewrite spot_post_body. cbv zeta.
    now rewrite Haction, Htokens, Hbad.
  - intros tokens Htokens Hgood. unfold SendsOnly. rewrite spot_post_body. cbv zeta.
    rewrite Haction, Htokens, Hgood. cbn [negb].
    unfold SpotPrice.makeRequest. cbn [truthy SpotPrice.tokensBody andb String.eqb
                                         Ascii.eqb Bool.eqb].
    apply handler_sends_only; intros; quiet.
  - intros before after0 address Hhex Hpad.
    destruct (isHexAddress (before ++ address ++ after0)) eqn:E; [| reflexivity].
    apply hexAddress_length in E. apply hexAddress_length in Hhex.
    rewrite !length_append, Hhex in E.
    assert (Hlen : String.length (before ++ after0) = 0%nat)
      by (rewrite length_append; lia).
    destruct (before ++ after0); [discriminate Hpad | discriminate Hlen].
Qed.

(** An empty token list goes upstream; a padded token does not. *)
Lemma spot_requested_tokens_witness :
  SendsOnly
    (SpotPrice.POST (Normal {| SpotPrice.bodyAction := Some "requested";
                               SpotPrice.bodyChainId := None;
                               SpotPrice.bodyTokens := Some [];
                               SpotPrice.bodyChains := None |}))
    Sample.down
    (Terms.authorised Sample.down [] "POST" (Some (VObj [("tokens", VArr [])]))
       "https://api.1inch.dev/price/v1.1/1")
  /\ SpotPrice.POST (Normal {| SpotPrice.bodyAction := Some "requested";
                               SpotPrice.bodyChainId := None;
                               SpotPrice.bodyTokens := Some [" " ++ Sample.tokenA];
                               SpotPrice.bodyChains := None |}) Sample.down
     = (Normal (badRequest "Invalid token address format"), Sample.down).
Proof.
  split.
  - destruct (@spot_requested_tokens
                {| SpotPrice.bodyAction := Some "requested";
                   SpotPrice.bodyChainId := None;
                   SpotPrice.bodyTokens := Some [];
                   SpotPrice.bodyChains := None |} Sample.down eq_refl)
      as (_ & _ & Hgood & _).
    apply (Hgood [] eq_refl eq_refl).
  - destruct (@spot_requested_tokens
                {| SpotPrice.bodyAction := Some "requested";
                   SpotPrice.bodyChainId := None;
                   SpotPrice.bodyTokens := Some [" " ++ Sample.tokenA];
                   SpotPrice.bodyChains := None |} Sample.down eq_refl)
      as (_ & Hbad & _ & Hpadded).
    apply (Hbad [" " ++ Sample.tokenA] eq_refl).
    cbn [forallb]. change (" " ++ Sample.tokenA) with (" " ++ Sample.tokenA ++ EmptyString).
    rewrite (Hpadded " " EmptyString Sample.tokenA eq_refl eq_refl). reflexivity.
Defined.

(** ** The edges of a batch *)



(** ** What the batch forms do not check *)

Lemma request_sends_only (A : Type) (extra : list (string * string)) (method : string)
    (payload : option value) (url : string) (k : value -> M A) (s : State) :
  (forall data, Quiet (k data)) ->
  SendsOnly (bind (makeRequestWith extra method payload url) k) s
    (Terms.authorised s extra method payload url).
Proof.
  intros Hk. unfold SendsOnly, bind. rewrite makeRequestWith_run. cbv zeta.
  exists (upstream s (List.length (fetches s)) (Terms.authorised s extra method payload url)).
  destruct (upstream s _ _) as [e | r]; cbv iota beta; [reflexivity |].
  destruct (ok r); [| reflexivity].
  destruct (json r) as [data | e]; [| reflexivity].
  apply Hk.
Qed.

(** X21. The batch forms of the portfolio and spot price routes do not
    check the format of the addresses that their [GET] forms check: an
    address list that the [GET] refuses with 400 is sent upstream by a
    sub-request of the batch, spliced into the URL as it is.  The
    portfolio batch also lacks the action [all] that the [GET] has. *)
Theorem batch_skips_address_format :
  forall (addresses : string) (s : State),
    nonEmpty addresses = true ->
    validAddressList addresses = false ->
    Portfolio.GET [("action", "currentValue"); ("addresses", addresses)] s
    = (Normal (badRequest "Invalid wallet address format"), s)
    /\ SendsOnly
         (Portfolio.process {| Portfolio.opAction := Some "currentValue";
                               Portfolio.opAddresses := Some addresses;
                               Portfolio.opChainId := None;
                               Portfolio.opFromTimestamp := None;
                               Portfolio.opToTimestamp := None |}) s
         (Terms.authorised s [] "GET" None
            (Portfolio.BASE_URL ++ "/current_value?addresses=" ++ addresses
             ++ "&chain_id=1"))
    /\ SpotPrice.GET [("action", "addresses"); ("addresses", addresses)] s
       = (Normal (badRequest "Invalid token address format"), s)
    /\ SendsOnly
         (SpotPrice.process {| SpotPrice.reqChain := None;
                               SpotPrice.reqChainId := None;
                               SpotPrice.reqTokens := None;
                               SpotPrice.reqAddresses := Some addresses |}) s
         (Terms.authorised s [] "GET" None (SpotPrice.BASE_URL ++ "/1/" ++ addresses))
    /\ Portfolio.process {| Portfolio.opAction := Some "all";
                            Portfolio.opAddresses := Some addresses;
                            Portfolio.opChainId := None;
                            Portfolio.opFromTimestamp := None;
                            Portfolio.opToTimestamp := None |} s
       = (Throw (Error "Invalid action: all"), s).
Proof.
  intros addresses s Hne Hbad. repeat apply conj.
  - apply portfolio_rejects_malformed_addresses; simpl; try rewrite Hne; auto.
  - unfold Portfolio.process. cbv zeta.
    cbn [Portfolio.opAddresses Portfolio.opAction Portfolio.opChainId Portfolio.echo
         Portfolio.echoChainId missing interpolate].
    rewrite Hne. cbn [negb].
    unfold Portfolio.makeRequest, Portfolio.currentValueUrl.
    apply request_sends_only; intros; quiet.
  - unfold SpotPrice.GET. cbv zeta.
    cbn [get String.eqb Ascii.eqb Bool.eqb andb orDefault nonEmpty negb missing interpolate].
    rewrite Hne, validAddressList_map, Hbad. reflexivity.
  - unfold SpotPrice.process. cbv zeta.
    cbn [SpotPrice.reqTokens SpotPrice.reqAddresses SpotPrice.reqChainId SpotPrice.reqChain
         missing interpolate].
    rewrite Hne. cbn [negb].
    unfold SpotPrice.makeRequest.
    apply request_sends_only; intros; quiet.
  - unfold Portfolio.process. cbv zeta.
    cbn [Portfolio.opAddresses Portfolio.opAction missing]. rewrite Hne. reflexivity.
Qed.

(** An address list that is not one. *)
Lemma batch_skips_address_format_witness :
  SendsOnly
    (Portfolio.process {| Portfolio.opAction := Some "currentValue";
                          Portfolio.opAddresses := Some "not-an-address";
                          Portfolio.opChainId := None;
                          Portfolio.opFromTimestamp := None;
                          Portfolio.opToTimestamp := None |}) Sample.down
    (Terms.authorised Sample.down [] "GET" None
       "https://api.1inch.dev/portfolio/portfolio/v4/overview/erc20/current_value?addresses=not-an-address&chain_id=1").
Proof.
  apply (@batch_skips_address_format "not-an-address" Sample.down); reflexivity.
Defined.

(** ** One request at most *)

Section AtMostOnceFacts.

Lemma AtMostOnce_quiet (A : Type) (m : M A) : Quiet m -> AtMostOnce m.
Proof. intros H s. left. apply H. Qed.

Lemma AtMostOnce_request (A : Type) (extra : list (string * string)) (method : string)
    (payload : option value) (url : string) (k : value -> M A) :
  (forall data, Quiet (k data)) ->
  AtMostOnce (bind (makeRequestWith extra method payload url) k).
Proof.
  intros Hk s. right.
  destruct (@request_sends_only A extra method payload url k s Hk) as (out & H).
  exists (Terms.authorised s extra method payload url), out. exact H.
Qed.

Lemma AtMostOnce_handler (P : Type) (body : M (NextResponse P)) (error : string) :
  AtMostOnce body -> AtMostOnce (tryCatch body (fun e => ret (serverError error e))).
Proof.
  intros Hb s. specialize (Hb s). unfold tryCatch.
  destruct (body s) as [[r | e] s']; exact Hb.
Qed.

End AtMostOnceFacts.

Ltac at_most_once :=
  repeat first
    [ apply AtMostOnce_quiet; solve [quiet]
    | apply AtMostOnce_request; intros ?; solve [quiet]
    | match goal with
      | |- AtMostOnce (if ?b then _ else _) => destruct b
      | |- AtMostOnce (match ?x with _ => _ end) => destruct x
      end ].

Lemma history_at_most_once (query : list (string * string)) :
  AtMostOnce (WalletHistory.GET query).
Proof.
  intros s. unfold WalletHistory.GET.
  destruct (get "address" query) as [address |]; [| now left].
  destruct (nonEmpty address); [| now left].
  right.
  cbv beta iota zeta delta [tryCatch bind bearer getEnv ret fetch negb].
  match goal with
  | |- context [upstream s ?n ?q] => exists q, (upstream s n q); destruct (upstream s n q) as [e | r0]
  end.
  - reflexivity.
  - destruct (ok r0); simpl.
    + unfold lift, throw.
      destruct (json r0) as [data | e]; simpl;
        [destruct (WalletHistory.transformTransactions _ data); simpl |]; reflexivity.
    + destruct (status r0 =? 401)%Z; [| destruct (status r0 =? 429)%Z]; reflexivity.
Qed.

(** X22. A [GET] handler sends at most one upstream request and does
    nothing else: it makes no second attempt after a failure and no
    pause.  The one exception is the action [all] of the portfolio route,
    which goes through its plan of two or three requests. *)
Theorem get_sends_at_most_once :
  (forall query, AtMostOnce (WalletHistory.GET query))
  /\ (forall query, AtMostOnce (Nft.GET query))
  /\ (forall query, AtMostOnce (GasPrice.GET query))
  /\ (forall query,
        get "action" query <> Some "all" -> AtMostOnce (Portfolio.GET query))
  /\ (forall query, AtMostOnce (SpotPrice.GET query))
  /\ (forall query, AtMostOnce (Tokens.GET query))
  /\ (forall query, AtMostOnce (Traces.GET query))
  /\ (forall query, AtMostOnce (Domains.GET query)).
Proof.
  repeat apply conj.
  - exact history_at_most_once.
  - intros query. unfold Nft.GET. apply AtMostOnce_handler.
    cbv zeta. unfold Nft.makeRequest. at_most_once.
  - intros query. unfold GasPrice.GET. apply AtMostOnce_handler.
    cbv zeta. unfold GasPrice.makeRequest. at_most_once.
  - intros query Hall. unfold Portfolio.GET. apply AtMostOnce_handler.
    cbv zeta. unfold Portfolio.makeRequest.
    destruct (get "action" query) as [action |]; [| at_most_once].
    cbn [missing interpolate].
    destruct (negb (nonEmpty action)); [at_most_once |].
    destruct (missing (get "addresses" query)); [at_most_once |].
    destruct (negb (validAddressList (interpolate (get "addresses" query))));
      [at_most_once |].
    destruct (String.eqb action "currentValue"); [at_most_once |].
    destruct (String.eqb action "profitAndLoss"); [at_most_once |].
    destruct (String.eqb action "tokenDetails"); [at_most_once |].
    destruct (String.eqb_spec action "all") as [-> | _]; [congruence | at_most_once].
  - intros query. unfold SpotPrice.GET. apply AtMostOnce_handler.
    cbv zeta. unfold SpotPrice.makeRequest. at_most_once.
  - intros query. unfold Tokens.GET. apply AtMostOnce_handler.
    cbv zeta. unfold Tokens.makeRequest. at_most_once.
  - intros query. unfold Traces.GET. apply AtMostOnce_handler.
    cbv zeta. unfold Traces.makeRequest. at_most_once.
  - intros query. unfold Domains.GET. apply AtMostOnce_handler.
    cbv zeta. unfold Domains.makeRequest. at_most_once.
Qed.

(** Gas prices from an upstream that is down: one request, no second
    attempt. *)
Lemma get_sends_at_most_once_witness :
  List.length (Terms.added Sample.down (snd (GasPrice.GET [] Sample.down))) = 1%nat
  /\ AtMostOnce (Portfolio.GET [("action", "currentValue")]).
Proof.
  destruct get_sends_at_most_once as (_ & _ & Hgas & Hportfolio & _).
  split.
  - destruct (Hgas [] Sample.down) as [H | (req & out & H)].
    + exfalso. apply (f_equal trace) in H. vm_compute in H. discriminate.
    + rewrite H, added_after. reflexivity.
  - apply Hportfolio. simpl. discriminate.
Defined.
